(** * split_json.py: the record normalizer and the streaming partition engine

    A shallow embedding of [src/split_json.py].

    Conventions of the embedding.
    - A Python [str] is a list of Unicode code points ([pystr]); its UTF-8
      size is computed by [utf8_len].  Strings are assumed to hold scalar
      values only (a lone surrogate cannot be encoded and is outside the model).
    - A parsed JSON value, as [ijson.items] yields it, is a [pyval].  Numbers
      with a fraction or an exponent (which ijson yields as [decimal.Decimal])
      are not part of the value type.
    - A [dict] is an association list in insertion order; [dict_get] returns
      the first binding of a key (a Python dict has no repeated key).
    - Python's [repr] of a non-empty list or dict depends on the Unicode
      database of the interpreter; it is a parameter ([py_repr]) of the
      development.
    - The file system is a finite map from absolute, normalised paths to
      texts.  Storage never fails in the model, symbolic links do not exist,
      and progress messages on the standard output are left out.
    - The input document is given as the list of records that the streaming
      parser yields.
    - What [load_config] finds at the path of [config.json] is given by its
      outcome ([config_file]): no file, an error of the operating system, a
      text that is not JSON, or the value that [json.load] returns. *)

From Stdlib Require Import ZArith NArith QArith List String Ascii Lia.
From Stdlib Require Import DecimalString DecimalPos DecimalZ.
From stdpp Require Import base option list gmap.
Import ListNotations.

#[local] Set Warnings "-register-all".
#[local] Open Scope Z_scope.

(** ** Python strings *)

Abbreviation pystr := (list N).

(** An ASCII literal as a Python string. *)
Definition u (s : string) : pystr := map N_of_ascii (list_ascii_of_string s).

(** [len(s.encode("utf-8"))] *)
Definition utf8_char_len (c : N) : Z :=
  if (c <? 128)%N then 1
  else if (c <? 2048)%N then 2
  else if (c <? 65536)%N then 3
  else 4.

Definition utf8_len (s : pystr) : Z :=
  fold_right (fun c acc => utf8_char_len c + acc) 0 s.

(** [str.isspace] on one character, which is also what the regular
    expression class [\s] matches on [str] patterns. *)
Definition isspace (c : N) : bool :=
  ((9 <=? c) && (c <=? 13) || (28 <=? c) && (c <=? 32)
   || (c =? 133) || (c =? 160) || (c =? 5760)
   || (8192 <=? c) && (c <=? 8202)
   || (c =? 8232) || (c =? 8233) || (c =? 8239) || (c =? 8287)
   || (c =? 12288))%N.

(** [s.lstrip()], [s.rstrip()] and [s.strip()] *)
Fixpoint lstrip (s : pystr) : pystr :=
  match s with
  | c :: s' => if isspace c then lstrip s' else s
  | [] => []
  end.

Definition rstrip (s : pystr) : pystr := rev (lstrip (rev s)).

Definition strip (s : pystr) : pystr := rstrip (lstrip s).

(** [s.startswith(p)] *)
Fixpoint startswith (p s : pystr) : bool :=
  match p, s with
  | [], _ => true
  | a :: p', b :: s' => (a =? b)%N && startswith p' s'
  | _ :: _, [] => false
  end.

(** [sep.join(parts)] *)
Fixpoint str_join (sep : pystr) (parts : list pystr) : pystr :=
  match parts with
  | [] => []
  | [p] => p
  | p :: ps => p ++ sep ++ str_join sep ps
  end.

(** [c in s] for a single character [c] *)
Definition contains_char (c : N) (s : pystr) : bool := existsb (N.eqb c) s.

(** [s.replace(a, b)] for single characters [a] and [b] *)
Definition replace_char (a b : N) (s : pystr) : pystr :=
  map (fun c => if (c =? a)%N then b else c) s.

(** [str(n)] for an [int] *)
Definition str_int (n : Z) : pystr := u (NilZero.string_of_int (Z.to_int n)).

(** [f"{n:,}"]: the decimal digits in groups of three, from the right. *)
Fixpoint group3 (rev_digits : pystr) : pystr :=
  match rev_digits with
  | a :: b :: c :: ((_ :: _) as rest) => a :: b :: c :: 44%N :: group3 rest
  | _ => rev_digits
  end.

Definition format_grouped (n : Z) : pystr :=
  if n <? 0 then 45%N :: rev (group3 (rev (str_int (- n))))
  else rev (group3 (rev (str_int n))).

(** ** Python values *)

Inductive pyval :=
| PNone
| PBool (b : bool)
| PInt (n : Z)
| PStr (s : pystr)
| PList (items : list pyval)
| PDict (items : list (pystr * pyval)).

(** Truth value of an object, as [if x], [not x] and [x or y] test it. *)
Definition truthy (v : pyval) : bool :=
  match v with
  | PNone => false
  | PBool b => b
  | PInt n => negb (n =? 0)
  | PStr s => negb (bool_decide (s = []))
  | PList l => negb (bool_decide (length l = 0%nat))
  | PDict d => negb (bool_decide (length d = 0%nat))
  end.

(** [x or y] *)
Definition py_or (x y : pyval) : pyval := if truthy x then x else y.

(** [d.get(key)], [None] when the key is absent. *)
Fixpoint dict_get (d : list (pystr * pyval)) (key : pystr) : option pyval :=
  match d with
  | [] => None
  | (k, v) :: d' => if bool_decide (k = key) then Some v else dict_get d' key
  end.

(** [d.get(key, dflt)] *)
Definition dict_get_default (d : list (pystr * pyval)) (key : pystr) (dflt : pyval) : pyval :=
  default dflt (dict_get d key).

(** The exceptions that the modelled code can raise. *)
Inductive exn :=
| ValueError (msg : pystr)
| AttributeError
| TypeError
| FileNotFoundError.

(** A computation that returns an [A] or raises: [x ← e; k] runs [k] on the
    value of [e] and propagates its exception. *)
#[global] Instance exn_bind : MBind (sum exn) := fun A B f x =>
  match x with
  | inl e => inl e
  | inr a => f a
  end.

(** [iter(v)]: the items a [for] loop or a generator draws from [v]. *)
Definition py_iter (v : pyval) : exn + list pyval :=
  match v with
  | PStr s => inr (map (fun c => PStr [c]) s)
  | PList l => inr l
  | PDict d => inr (map (fun kv => PStr (fst kv)) d)
  | PNone | PBool _ | PInt _ => inl TypeError
  end.

(** ** json.dumps(obj, ensure_ascii=False, separators=(",", ":")) *)

Definition hex_digit (d : N) : N := if (d <? 10)%N then (48 + d)%N else (87 + d)%N.

(** One character inside a JSON string: the quote, the backslash and the
    control characters below U+0020 are escaped, everything else is kept. *)
Definition json_escape_char (c : N) : pystr :=
  if (c =? 34)%N then [92%N; 34%N]
  else if (c =? 92)%N then u "\\"
  else if (c =? 10)%N then u "\n"
  else if (c =? 13)%N then u "\r"
  else if (c =? 9)%N then u "\t"
  else if (c =? 8)%N then u "\b"
  else if (c =? 12)%N then u "\f"
  else if (c <? 32)%N then u "\u00" ++ [hex_digit (c / 16)%N; hex_digit (c mod 16)%N]
  else [c].

Definition json_string (s : pystr) : pystr :=
  [34%N] ++ concat (map json_escape_char s) ++ [34%N].

Fixpoint json_dumps_with (item_sep key_sep : pystr) (v : pyval) : pystr :=
  match v with
  | PNone => u "null"
  | PBool true => u "true"
  | PBool false => u "false"
  | PInt n => str_int n
  | PStr s => json_string s
  | PList l => u "[" ++ str_join item_sep (map (json_dumps_with item_sep key_sep) l) ++ u "]"
  | PDict d =>
      u "{" ++ str_join item_sep
                 (map (fun kv => json_string (fst kv) ++ key_sep
                                   ++ json_dumps_with item_sep key_sep (snd kv)) d)
        ++ u "}"
  end.

(** [json.dumps(obj, ensure_ascii=False, separators=(",", ":"))] *)
Definition json_dumps (v : pyval) : pystr := json_dumps_with (u ",") (u ":") v.

(** [json.dump(objs, f, ensure_ascii=False, separators=(",", ":"))] of a list *)
Definition json_dump_list (objs : list pyval) : pystr := json_dumps (PList objs).

(** ** posixpath: join, normpath, abspath *)

Module posixpath.

(** [s.split("/")] *)
Fixpoint split_slash (s : pystr) : list pystr :=
  match s with
  | [] => [[]]
  | c :: s' =>
      if (c =? 47)%N then [] :: split_slash s'
      else match split_slash s' with
           | w :: ws => (c :: w) :: ws
           | [] => [[c]]
           end
  end.

Definition endswith_slash (s : pystr) : bool :=
  match rev s with
  | c :: _ => (c =? 47)%N
  | [] => false
  end.

Definition join (a b : pystr) : pystr :=
  if startswith (u "/") b then b
  else if bool_decide (a = []) || endswith_slash a then a ++ b
  else a ++ u "/" ++ b.

Definition initial_slashes (path : pystr) : nat :=
  if startswith (u "/") path then
    if startswith (u "//") path && negb (startswith (u "///") path) then 2%nat else 1%nat
  else 0%nat.

(** One round of the loop of [normpath] over the components. *)
Definition norm_step (slashes : nat) (new_comps : list pystr) (comp : pystr) : list pystr :=
  if bool_decide (comp = []) || bool_decide (comp = u ".") then new_comps
  else if negb (bool_decide (comp = u ".."))
          || (bool_decide (slashes = 0%nat) && bool_decide (new_comps = []))
          || (negb (bool_decide (new_comps = []))
              && bool_decide (last new_comps = Some (u "..")))
       then new_comps ++ [comp]
       else removelast new_comps.

Definition normpath (path : pystr) : pystr :=
  if bool_decide (path = []) then u "."
  else
    let slashes := initial_slashes path in
    let comps := fold_left (norm_step slashes) (split_slash path) [] in
    let path := concat (repeat (u "/") slashes) ++ str_join (u "/") comps in
    if bool_decide (path = []) then u "." else path.

Definition isabs (path : pystr) : bool := startswith (u "/") path.

(** [os.getcwd()] is an absolute path; [cwd] is what follows its first slash. *)
Definition getcwd (cwd : pystr) : pystr := 47%N :: cwd.

Definition abspath (cwd path : pystr) : pystr :=
  if isabs path then normpath path else normpath (join (getcwd cwd) path).

(** What [normpath] makes of a path apart from the end of its last
    component: [normpath (path ++ t) = stem path ++ t] when [t] holds no
    slash and completes the last component into an ordinary name. *)
Definition stem (path : pystr) : pystr :=
  let slashes := initial_slashes path in
  let comps := split_slash path in
  let kept := fold_left (norm_step slashes) (removelast comps) [] in
  concat (repeat (u "/") slashes)
  ++ (if bool_decide (kept = []) then [] else str_join (u "/") kept ++ u "/")
  ++ List.last comps [].

(** Not the empty string, [.] or [..]. *)
Definition ordinary (c : pystr) : Prop := c ≠ [] ∧ c ≠ u "." ∧ c ≠ u "..".

(** The path ends with an underscore. *)
Definition ends_underscore (z : pystr) : Prop := ∃ q, z = q ++ [95%N].

(** The stem of the absolute path of a name. *)
Definition abs_stem (cwd z : pystr) : pystr :=
  if isabs z then stem z else stem (join (getcwd cwd) z).

(** A component that [normpath] keeps as it is. *)
Definition clean (c : pystr) : Prop :=
  c ≠ [] ∧ c ≠ u "." ∧ c ≠ u ".." ∧ 47%N ∉ c.

(** The shape of what [normpath] returns on an absolute path. *)
Definition normal_abs (path : pystr) : Prop :=
  ∃ k comps, (k = 1%nat ∨ k = 2%nat) ∧ Forall clean comps
             ∧ path = concat (repeat (u "/") k) ++ str_join (u "/") comps.

End posixpath.

(** ** The record normalizer *)

Section Normalizer.

(** Python's [repr] of a non-empty [list] or [dict]. *)
Variable py_repr : pyval -> pystr.

(** [str(v)], which is also what an f-string field [{v}] inserts. *)
Definition py_str (v : pyval) : pystr :=
  match v with
  | PNone => u "None"
  | PBool true => u "True"
  | PBool false => u "False"
  | PInt n => str_int n
  | PStr s => s
  | PList [] => u "[]"
  | PDict [] => u "{}"
  | PList (_ :: _) | PDict (_ :: _) => py_repr v
  end.

(** The [parts] list that the loop of [_extract_text] builds from a list:
    strings are kept, mappings give their [text] field, any other item is
    skipped. *)
Fixpoint extract_parts (items : list pyval) : list pyval :=
  match items with
  | [] => []
  | PStr s :: rest => PStr s :: extract_parts rest
  | PDict d :: rest => dict_get_default d (u "text") (PStr []) :: extract_parts rest
  | _ :: rest => extract_parts rest
  end.

Definition _extract_text (obj : pyval) : pystr :=
  match obj with
  | PNone => []
  | PStr s => s
  | PDict d => py_str (dict_get_default d (u "text") (PStr []))
  | PList l => str_join [] (map py_str (extract_parts l))
  | PBool _ | PInt _ => py_str obj
  end.

(** [_WS_RE.sub(" ", s)] with [_WS_RE = re.compile(r"\s+")]: every maximal
    run of whitespace is replaced by one space.  [in_run] tells that the
    previous character belonged to the run being replaced. *)
Fixpoint ws_sub (in_run : bool) (s : pystr) : pystr :=
  match s with
  | [] => []
  | c :: s' =>
      if isspace c then (if in_run then ws_sub true s' else 32%N :: ws_sub true s')
      else c :: ws_sub false s'
  end.

Definition _normalize_text (s : pystr) : pystr :=
  if bool_decide (s = []) then [] else strip (ws_sub false s).

(** A record that is not a mapping has no [get]: [AttributeError].  A true
    [text_entities] that cannot be iterated raises [TypeError]. *)
Definition obj_to_md (obj : pyval) : exn + pystr :=
  match obj with
  | PDict d =>
      let date := dict_get_default d (u "date") (PStr []) in
      let date :=
        if truthy date && contains_char 84 (py_str date)
        then PStr (take 16 (replace_char 84 32 (py_str date)))
        else date in
      let author :=
        py_or (py_or (dict_get_default d (u "from") PNone)
                     (dict_get_default d (u "actor") PNone))
              (PStr []) in
      let text := py_or (dict_get_default d (u "text") PNone) (PStr []) in
      text ← (if negb (truthy text) && truthy (dict_get_default d (u "text_entities") PNone)
              then entities ← py_iter (dict_get_default d (u "text_entities") PNone);
                   inr (str_join (u " ") (map _extract_text entities))
              else inr (_extract_text text));
      let text := _normalize_text text in
      let lines := [u "### " ++ py_str date ++ u " | " ++ py_str author] in
      let lines :=
        if negb (bool_decide (text = []))
        then lines ++ [if startswith (u "#") text then 92%N :: text else text]
        else lines in
      inr (str_join [10%N] lines)
  | _ => inl AttributeError
  end.

(** The [format_ == "chat"] branch of the loop of [json_to_txt]: the text
    that [fout.write] receives for one record. *)
Definition json_to_txt_chat (obj : pyval) : exn + pystr :=
  match obj with
  | PDict d =>
      let date := dict_get_default d (u "date") (PStr []) in
      let date :=
        if contains_char 84 (py_str date)
        then PStr (take 16 (replace_char 84 32 (py_str date)))
        else date in
      let author :=
        py_or (py_or (dict_get_default d (u "from") PNone)
                     (dict_get_default d (u "actor") PNone))
              (PStr []) in
      let text := py_or (dict_get_default d (u "text") PNone) (PStr []) in
      text ← (if negb (truthy text) && truthy (dict_get_default d (u "text_entities") PNone)
              then entities ← py_iter (dict_get_default d (u "text_entities") PNone);
                   inr (str_join (u " ") (map _extract_text entities))
              else inr (_extract_text text));
      let text := _normalize_text text in
      let line := py_str date ++ u " | " ++ py_str author ++ u ": " ++ text in
      inr (rstrip line ++ [10%N])
  | _ => inl AttributeError
  end.

End Normalizer.

(** ** The partition engine *)

(** What the code asks of the operating system, in order. *)
Inductive io_event :=
| EMakedirs (path : pystr)
| EOpenRead (path : pystr)
| EWrite (path text : pystr)
| EReplace (src dst : pystr).

(** One call of [write_part] that wrote a file: its name, its [n], the
    buffer it flushed and the text it wrote.  (Specification only: the code
    keeps no such record.) *)
Record part := {
  part_path : pystr;
  part_count : Z;
  part_md_blocks : list pystr;
  part_objects : list pyval;
  part_text : pystr;
}.

(** The local variables of [split_json] that its loop and [write_part]
    update, the file system, and the history of the run. *)
Record state := {
  created_files : list pystr;
  current_objects : list pyval;
  current_md_blocks : list pystr;
  current_size : Z;
  part_index : Z;
  total_read : Z;
  files : gmap pystr pystr;
  trace : list io_event;
  parts : list part;
}.

(** Reading a text file line by line: [\r\n] and [\r] arrive as [\n], and a
    line keeps its newline. *)
Fixpoint universal_newlines (s : pystr) : pystr :=
  match s with
  | [] => []
  | c :: s' =>
      if (c =? 13)%N then
        match s' with
        | c' :: s'' => if (c' =? 10)%N then 10%N :: universal_newlines s''
                       else 10%N :: universal_newlines s'
        | [] => [10%N]
        end
      else c :: universal_newlines s'
  end.

Fixpoint lines_of (s : pystr) : list pystr :=
  match s with
  | [] => []
  | c :: s' =>
      if (c =? 10)%N then [c] :: lines_of s'
      else match lines_of s' with
           | l :: ls => (c :: l) :: ls
           | [] => [[c]]
           end
  end.

Definition sep : pystr := [10; 45; 45; 45; 10]%N.

Section Engine.

Variable py_repr : pyval -> pystr.

(** The working directory of the process (see [posixpath.getcwd]) and the
    arguments of [split_json]. *)
Variable cwd : pystr.
Variables input_path output_dir output_prefix : pystr.
Variable max_file_size_mb : option Q.
Variable max_objects_per_file : option Z.
Variable output_format : pystr.

(** The file that [open(name, ...)] designates. *)
Definition resolve (name : pystr) : pystr := posixpath.abspath cwd name.

Definition is_md : bool := bool_decide (output_format = u "md").

Definition ext : pystr := if is_md then u ".md" else u ".json".

(** [int(max_file_size_mb * 1024 * 1024) if max_file_size_mb else None]:
    the product is exact on floats, and [int] truncates towards zero. *)
Definition max_size_bytes : option Z :=
  match max_file_size_mb with
  | Some mb =>
      if Qnum mb =? 0 then None
      else Some (Z.quot (Qnum mb * 1024 * 1024) (Z.pos (Qden mb)))
  | None => None
  end.

(** [limit and test limit]: a limit that is [None] or [0] is false. *)
Definition limit_and (limit : option Z) (test : Z -> bool) : bool :=
  match limit with
  | Some l => negb (l =? 0) && test l
  | None => false
  end.

(** [len(current_md_blocks) if output_format == "md" else len(current_objects)] *)
Definition n_current (st : state) : Z :=
  if is_md then Z.of_nat (length (current_md_blocks st))
  else Z.of_nat (length (current_objects st)).

(** The name of the part of a given index. *)
Definition part_name (index : Z) : pystr :=
  posixpath.join output_dir (output_prefix ++ u "_" ++ str_int index ++ ext).

Definition write_part (st : state) : state :=
  let n := n_current st in
  if n =? 0 then st
  else
    let out_name := part_name (part_index st) in
    let text :=
      if is_md then str_join sep (current_md_blocks st)
      else json_dump_list (current_objects st) in
    {| created_files := created_files st ++ [resolve out_name];
       current_objects := [];
       current_md_blocks := [];
       current_size := 0;
       part_index := part_index st + 1;
       total_read := total_read st;
       files := <[resolve out_name := text]> (files st);
       trace := trace st ++ [EWrite out_name text];
       parts := parts st ++ [{| part_path := resolve out_name;
                                part_count := n;
                                part_md_blocks := current_md_blocks st;
                                part_objects := current_objects st;
                                part_text := text |}] |}.

(** The rendered unit of a record and the size the loop charges for it. *)
Definition measure (obj : pyval) (st : state) : exn + (pystr * Z) :=
  if is_md then
    obj_content ← obj_to_md py_repr obj;
    inr (obj_content,
         utf8_len obj_content
         + (if bool_decide (current_md_blocks st = []) then 0 else utf8_len sep))
  else
    let obj_json := json_dumps obj in
    inr (obj_json, utf8_len obj_json).

(** The tests of the three flush decisions made before a record is added. *)
Definition size_reached (st : state) : bool :=
  limit_and max_size_bytes (fun l => l <=? current_size st).

Definition no_room_for (obj_size : Z) (st : state) : bool :=
  limit_and max_size_bytes
    (fun l => negb (n_current st =? 0) && (l <? current_size st + obj_size)).

Definition count_reached (st : state) : bool :=
  limit_and max_objects_per_file (fun l => l <=? n_current st).

Definition flush_if_full (st : state) : state :=
  if size_reached st then write_part st else st.

Definition flush_if_no_room (obj_size : Z) (st : state) : state :=
  if no_room_for obj_size st then write_part st else st.

Definition flush_if_count (st : state) : state :=
  if count_reached st then write_part st else st.

(** The three decisions in a row. *)
Definition flushes (obj_size : Z) (st : state) : state :=
  flush_if_count (flush_if_no_room obj_size (flush_if_full st)).

(** Adding the record to the buffer. *)
Definition append_unit (obj : pyval) (obj_content : pystr) (obj_size : Z) (st : state) : state :=
  {| created_files := created_files st;
     current_objects := if is_md then current_objects st else current_objects st ++ [obj];
     current_md_blocks :=
       if is_md then current_md_blocks st ++ [obj_content] else current_md_blocks st;
     current_size := current_size st + obj_size;
     part_index := part_index st;
     total_read := total_read st + 1;
     files := files st;
     trace := trace st;
     parts := parts st |}.

(** The body of [for obj in parser]. *)
Definition loop_body (obj : pyval) (st : state) : exn + state :=
  '(obj_content, obj_size) ← measure obj st;
  let st := flush_if_full st in
  let st := flush_if_no_room obj_size st in
  let st := flush_if_count st in
  inr (append_unit obj obj_content obj_size st).

(** The loop: an exception leaves it with the state reached so far. *)
Fixpoint for_each (records : list pyval) (st : state) : state * option exn :=
  match records with
  | [] => (st, None)
  | obj :: rest =>
      match loop_body obj st with
      | inl e => (st, Some e)
      | inr st' => for_each rest st'
      end
  end.

(** The message of the [ValueError] raised when no limit is given. *)
Definition no_limit_message : pystr :=
  [1059; 1082; 1072; 1078; 1080; 1090; 1077; 32; 1093; 1086; 1090; 1103; 32; 1073;
   1099; 32; 1086; 1076; 1085; 1086; 32; 1086; 1075; 1088; 1072; 1085; 1080; 1095;
   1077; 1085; 1080; 1077; 58; 32; 109; 97; 120; 95; 102; 105; 108; 101; 95; 115;
   105; 122; 101; 95; 109; 98; 32; 1080; 1083; 1080; 32; 109; 97; 120; 95; 111; 98;
   106; 101; 99; 116; 115; 95; 112; 101; 114; 95; 102; 105; 108; 101]%N.

(** The localized heading of the report line, up to the count. *)
Definition report_heading : pystr :=
  [35; 35; 35; 32; 1054; 1090; 1095; 1105; 1090; 32; 124; 32; 1042; 1089; 1077; 1075;
   1086; 32; 1089; 1086; 1086; 1073; 1097; 1077; 1085; 1080; 1081; 58; 32]%N.

(** The report line: the heading, then [total_read] formatted with [:,]. *)
Definition report_line (total : Z) : pystr := report_heading ++ format_grouped total.

(** What the rewriting loop copies from the lines of the first part. *)
Definition copy_lines (text : pystr) : pystr :=
  concat (map (fun line => rstrip line ++ [10%N])
              (filter (fun line => strip line <> []) (lines_of (universal_newlines text)))).

(** The report written into the first file (Markdown only). *)
Definition add_report (st : state) : state * option exn :=
  match created_files st with
  | first_path :: _ =>
      if is_md then
        let tmp_path := first_path ++ u ".tmp" in
        match files st !! resolve first_path with
        | None =>
            (* open(first_path, "r") fails *)
            (st, Some FileNotFoundError)
        | Some text =>
            let new_text := report_line (total_read st) ++ sep ++ copy_lines text in
            ({| created_files := created_files st;
                current_objects := current_objects st;
                current_md_blocks := current_md_blocks st;
                current_size := current_size st;
                part_index := part_index st;
                total_read := total_read st;
                files := <[resolve first_path := new_text]>
                           (delete (resolve tmp_path)
                              (<[resolve tmp_path := new_text]> (files st)));
                trace := trace st ++ [EOpenRead first_path; EWrite tmp_path new_text;
                                      EReplace tmp_path first_path];
                parts := parts st |}, None)
        end
      else (st, None)
  | [] => (st, None)
  end.

(** The state once [os.makedirs(output_dir, exist_ok=True)] has run. *)
Definition initial_state (fs : gmap pystr pystr) : state :=
  {| created_files := [];
     current_objects := [];
     current_md_blocks := [];
     current_size := 0;
     part_index := 1;
     total_read := 0;
     files := fs;
     trace := [EMakedirs output_dir];
     parts := [] |}.

(** [open(input_path, "rb")] *)
Definition open_input (st : state) : state :=
  {| created_files := created_files st;
     current_objects := current_objects st;
     current_md_blocks := current_md_blocks st;
     current_size := current_size st;
     part_index := part_index st;
     total_read := total_read st;
     files := files st;
     trace := trace st ++ [EOpenRead input_path];
     parts := parts st |}.

(** [split_json] on the records of the input and the file system [fs]: the
    state it ends in and what it returns or raises. *)
Definition split_json (records : list pyval) (fs : gmap pystr pystr)
  : state * (exn + list pystr) :=
  let st := initial_state fs in
  if bool_decide (max_file_size_mb = None) && bool_decide (max_objects_per_file = None)
  then (st, inl (ValueError no_limit_message))
  else
    let st := open_input st in
    match for_each records st with
    | (st, Some e) => (st, inl e)
    | (st, None) =>
        let st :=
          if negb (bool_decide (current_objects st = []))
             || negb (bool_decide (current_md_blocks st = []))
          then write_part st else st in
        match add_report st with
        | (st, Some e) => (st, inl e)
        | (st, None) => (st, inr (created_files st))
        end
    end.

(** *** Book-keeping of a run, for the statements below *)

(** What [write_part] recorded of a part agrees with the buffer it flushed. *)
Definition part_ok (p : part) : Prop :=
  part_count p ≠ 0
  ∧ resolve (part_path p) = part_path p
  ∧ if is_md
    then part_count p = Z.of_nat (length (part_md_blocks p))
         ∧ part_text p = str_join sep (part_md_blocks p)
         ∧ part_objects p = []
    else part_count p = Z.of_nat (length (part_objects p))
         ∧ part_text p = json_dump_list (part_objects p)
         ∧ part_md_blocks p = [].

(** The state of the loop once the records [seen] have been consumed. *)
Record loop_inv (seen : list pyval) (st : state) : Prop := {
  inv_total : total_read st = Z.of_nat (length seen);
  inv_catalog : created_files st = map part_path (parts st);
  inv_size : 0 <= current_size st;
  inv_units :
    if is_md
    then map inr (concat (map part_md_blocks (parts st)) ++ current_md_blocks st)
         = map (obj_to_md py_repr) seen
         ∧ current_objects st = []
    else concat (map part_objects (parts st)) ++ current_objects st = seen
         ∧ current_md_blocks st = [];
  inv_parts : Forall part_ok (parts st);
  inv_files : Forall (fun p => is_Some (files st !! part_path p)) (parts st);
}.

(** The absolute paths of the parts are [part_stem ++ str_int index ++ ext]. *)
Definition part_stem : pystr :=
  posixpath.abs_stem cwd (posixpath.join output_dir (output_prefix ++ u "_")).

(** The parts have the names of the indices 1, 2, ... in order, and each
    file holds the text that [write_part] wrote. *)
Definition files_inv (st : state) : Prop :=
  part_index st = Z.of_nat (length (parts st)) + 1
  ∧ ∀ j p, parts st !! j = Some p ->
           part_path p = part_stem ++ str_int (Z.of_nat j + 1) ++ ext
           ∧ files st !! part_path p = Some (part_text p).

(** The number of units in a list of parts. *)
Definition part_total (ps : list part) : Z :=
  fold_right (fun p acc => part_count p + acc) 0 ps.

(** Every part, and the buffer, hold at most [C] units. *)
Definition count_inv (C : Z) (st : state) : Prop :=
  n_current st <= C ∧ Forall (fun p => part_count p <= C) (parts st).

(** With the count limit alone: every part written so far is full, and the
    buffer is not empty once a part has been written. *)
Definition chunk_inv (C : Z) (st : state) : Prop :=
  Forall (fun p => part_count p = C) (parts st)
  ∧ n_current st <= C
  ∧ (parts st ≠ [] -> 1 <= n_current st).

(** A Markdown part within the byte limit [B], or made of one unit that is
    itself larger than [B]. *)
Definition within_limit (B : Z) (p : part) : Prop :=
  utf8_len (part_text p) <= B
  ∨ ∃ unit, part_md_blocks p = [unit] ∧ B < utf8_len unit.

(** Markdown mode: [current_size] bounds the size of the joined buffer, and
    a buffer of two units or more is within the limit. *)
Definition size_inv (B : Z) (st : state) : Prop :=
  utf8_len (str_join sep (current_md_blocks st)) <= current_size st
  ∧ (2 <= n_current st -> current_size st <= B)
  ∧ Forall (within_limit B) (parts st).

(** The number of units of a part. *)
Definition part_units (p : part) : Z :=
  if is_md then Z.of_nat (length (part_md_blocks p))
  else Z.of_nat (length (part_objects p)).

(** The record can be rendered as Markdown. *)
Definition renders (obj : pyval) : bool :=
  match obj_to_md py_repr obj with
  | inr _ => true
  | inl _ => false
  end.

(** Every record can be rendered in the mode of the run (JSON mode renders
    nothing). *)
Definition all_render (records : list pyval) : bool :=
  negb is_md || forallb renders records.

(** Two states that differ at most in the file system, which holds the same
    text at every path of the catalog. *)
Definition agree (st1 st2 : state) : Prop :=
  created_files st1 = created_files st2
  ∧ current_objects st1 = current_objects st2
  ∧ current_md_blocks st1 = current_md_blocks st2
  ∧ current_size st1 = current_size st2
  ∧ part_index st1 = part_index st2
  ∧ total_read st1 = total_read st2
  ∧ trace st1 = trace st2
  ∧ parts st1 = parts st2
  ∧ ∀ p, p ∈ created_files st1 -> files st1 !! p = files st2 !! p.

(** JSON mode: the bytes that the loop charges for a list of records. *)
Definition units_size (objs : list pyval) : Z :=
  fold_right (fun obj acc => utf8_len (json_dumps obj) + acc) 0 objs.

(** A JSON part whose records, as charged, are within the limit [B], or
    made of one record that is itself larger than [B]. *)
Definition json_within_limit (B : Z) (p : part) : Prop :=
  units_size (part_objects p) <= B
  ∨ ∃ obj, part_objects p = [obj] ∧ B < utf8_len (json_dumps obj).

(** JSON mode: [current_size] is the charge of the buffer, and a buffer of
    two records or more is within the limit. *)
Definition json_size_inv (B : Z) (st : state) : Prop :=
  current_size st = units_size (current_objects st)
  ∧ (2 <= n_current st -> current_size st <= B)
  ∧ Forall (json_within_limit B) (parts st).

End Engine.

(** A decimal digit. *)
Definition is_digit (c : N) : Prop := (48 <= c <= 57)%N.

(** [N] units cut into parts of [C]: full parts, then the rest. *)
Definition chunk_sizes (C N : Z) : list Z :=
  repeat C (Z.to_nat (N / C)) ++ (if N mod C =? 0 then [] else [N mod C]).

(** [ceil(N / C)] *)
Definition ceil_div (N C : Z) : Z := (N + C - 1) / C.

(** A stand-in for [repr] in the evaluations below, none of which prints a
    non-empty list or mapping. *)
Definition no_repr (v : pyval) : pystr := [].

(** ** The normalizer, as the specification words it *)

Section NormalizerSpec.

Variable py_repr : pyval -> pystr.

(** The date slot: the [date] field, absent as the empty string; when it
    holds a [T], that letter becomes a space and sixteen characters are kept. *)
Definition record_date (d : list (pystr * pyval)) : pystr :=
  let s := py_str py_repr (dict_get_default d (u "date") (PStr [])) in
  if contains_char 84 s then take 16 (replace_char 84 32 s) else s.

(** A field that is present and true, as text. *)
Definition field_text (d : list (pystr * pyval)) (key : pystr) : option pystr :=
  match dict_get d key with
  | Some v => if truthy v then Some (py_str py_repr v) else None
  | None => None
  end.

(** The author slot: [from], else [actor], else the empty string. *)
Definition record_author (d : list (pystr * pyval)) : pystr :=
  match field_text d (u "from") with
  | Some a => a
  | None => default [] (field_text d (u "actor"))
  end.

(** The text of one item of a sequence: a string is itself, a mapping gives
    its [text] field, anything else (a nested sequence included) gives
    nothing. *)
Definition item_text (v : pyval) : pystr :=
  match v with
  | PStr s => s
  | PDict d => py_str py_repr (dict_get_default d (u "text") (PStr []))
  | _ => []
  end.

(** The text of an entity or of the [text] field: the items of a sequence
    are concatenated with nothing between them. *)
Definition entity_text (v : pyval) : pystr :=
  match v with
  | PNone => []
  | PStr s => s
  | PDict d => py_str py_repr (dict_get_default d (u "text") (PStr []))
  | PList l => concat (map item_text l)
  | PBool _ | PInt _ => py_str py_repr v
  end.

(** The extraction rule that the specification describes: a sequence is
    extracted recursively, its parts separated by single spaces. *)
Fixpoint claimed_entity_text (v : pyval) : pystr :=
  match v with
  | PNone => []
  | PStr s => s
  | PDict d => py_str py_repr (dict_get_default d (u "text") (PStr []))
  | PList l => str_join (u " ") (map claimed_entity_text l)
  | PBool _ | PInt _ => py_str py_repr v
  end.

(** A value that is present and true. *)
Definition present (o : option pyval) : option pyval :=
  match o with
  | Some v => if truthy v then Some v else None
  | None => None
  end.

(** The text of a record before normalisation, parametrised by the rule
    that extracts one entity: the entities joined by single spaces when the
    [text] field is absent or false and [text_entities] is true, else the
    [text] field. *)
Definition record_text_with (rule : pyval -> pystr) (d : list (pystr * pyval)) : exn + pystr :=
  match present (dict_get d (u "text")) with
  | Some text => inr (rule text)
  | None =>
      match present (dict_get d (u "text_entities")) with
      | Some entities =>
          items ← py_iter entities; inr (str_join (u " ") (map rule items))
      | None => inr []
      end
  end.

(** The Markdown block made of a date, an author and a normalised text. *)
Definition md_block (date author text : pystr) : pystr :=
  let header := u "### " ++ date ++ u " | " ++ author in
  if bool_decide (text = []) then header
  else header ++ [10%N] ++ (if startswith (u "#") text then 92%N :: text else text).

End NormalizerSpec.

(** [s.split()]: the maximal runs of characters that are not whitespace.
    [w] is the word being read. *)
Fixpoint split_ws (w : pystr) (s : pystr) : list pystr :=
  match s with
  | [] => match w with [] => [] | _ => [w] end
  | c :: s' =>
      if isspace c then
        match w with
        | [] => split_ws [] s'
        | _ => w :: split_ws [] s'
        end
      else split_ws (w ++ [c]) s'
  end.

Definition words (s : pystr) : list pystr := split_ws [] s.

(** A word: not empty, and free of whitespace. *)
Definition is_word (w : pystr) : Prop := w ≠ [] ∧ Forall (fun c => isspace c = false) w.

(** ** Sample inputs *)

(** A message of a chat export. *)
Definition message (date author text : string) : pyval :=
  PDict [(u "id", PInt 1); (u "date", PStr (u date)); (u "from", PStr (u author));
         (u "text", PStr (u text))].

Definition five_messages : list pyval :=
  [message "2023-12-27T10:28:01" "Ann" "hi  there";
   message "2023-12-27T10:29:11" "Bob" "#tag";
   message "2023-12-27T10:30:00" "Ann" "";
   message "2023-12-27T10:31:42" "Bob" "three";
   message "2023-12-27T10:32:07" "Ann" "four"].

(** A message whose [text] is a sequence of two fragments. *)
Definition fragments_message : list (pystr * pyval) :=
  [(u "text", PList [PStr (u "a"); PStr (u "b")])].

(** A message whose text starts with [#] and holds line breaks. *)
Definition heading_message : list (pystr * pyval) :=
  [(u "date", PStr (u "2024-01-01T09:00:00")); (u "from", PStr (u "Ann"));
   (u "text", PStr ([35; 32; 97; 10; 10; 98; 13; 10; 99]%N))].

(** ** The flat export *)

(** [s.rfind(c)] for a single character [c]: the index of its last
    occurrence, or -1. *)
Fixpoint rfind (c : N) (s : pystr) : Z :=
  match s with
  | [] => -1
  | a :: s' =>
      let i := rfind c s' in
      if 0 <=? i then i + 1 else if (a =? c)%N then 0 else -1
  end.

(** [p in s] for two strings *)
Fixpoint contains_str (p s : pystr) : bool :=
  startswith p s
  || match s with
     | [] => false
     | _ :: s' => contains_str p s'
     end.

Module ospath.

(** [os.path.basename(p)], which is [p[p.rfind("/") + 1:]] *)
Definition basename (p : pystr) : pystr := drop (Z.to_nat (rfind 47 p + 1)) p.

(** [os.path.splitext(p)]: the extension starts at the last dot, when that
    dot comes after the last slash and after a character of the file name
    that is not a dot. *)
Definition splitext (p : pystr) : pystr * pystr :=
  let sepIndex := rfind 47 p in
  let dotIndex := rfind 46 p in
  if (sepIndex <? dotIndex)
     && existsb (fun c => negb (c =? 46)%N)
          (take (Z.to_nat (dotIndex - (sepIndex + 1))) (drop (Z.to_nat (sepIndex + 1)) p))
  then (take (Z.to_nat dotIndex) p, drop (Z.to_nat dotIndex) p)
  else (p, []).

End ospath.

(** [json.dumps(obj, ensure_ascii=False)], with the separators that
    [json.dumps] has by default. *)
Definition json_dumps_default (v : pyval) : pystr := json_dumps_with (u ", ") (u ": ") v.

(** What [json_to_txt] leaves behind: the file system and the operations it
    asked for. *)
Record txt_state := {
  txt_files : gmap pystr pystr;
  txt_trace : list io_event;
}.

Section FlatExport.

Variable py_repr : pyval -> pystr.

(** The working directory of the process and the arguments of
    [json_to_txt]. *)
Variable cwd : pystr.
Variable input_path : pystr.
Variable output_path : option pystr.
Variable output_dir : pystr.
Variable format_ : pystr.

(** [output_path], or its default [output_dir/base.txt]. *)
Definition txt_output_path : pystr :=
  match output_path with
  | Some path => path
  | None =>
      let base := fst (ospath.splitext (ospath.basename input_path)) in
      posixpath.join output_dir (base ++ u ".txt")
  end.

(** What [fout.write] receives for one record. *)
Definition txt_line (obj : pyval) : exn + pystr :=
  if bool_decide (format_ = u "chat") then json_to_txt_chat py_repr obj
  else inr (json_dumps_default obj ++ [10%N]).

(** The loop over the records: [written] is what [fout] has received so
    far; an exception leaves the loop with it. *)
Fixpoint txt_loop (records : list pyval) (written : pystr) : pystr * option exn :=
  match records with
  | [] => (written, None)
  | obj :: rest =>
      match txt_line obj with
      | inl e => (written, Some e)
      | inr line => txt_loop rest (written ++ line)
      end
  end.

(** [json_to_txt] on the records of the input and the file system [fs]: the
    output file is created when it is opened and holds, once closed, what
    the loop wrote, also when the loop raises. *)
Definition json_to_txt (records : list pyval) (fs : gmap pystr pystr)
  : txt_state * (exn + pystr) :=
  let out := txt_output_path in
  let '(written, r) := txt_loop records [] in
  ({| txt_files := <[resolve cwd out := written]> fs;
      txt_trace := [EMakedirs output_dir; EOpenRead input_path; EWrite out written] |},
   match r with
   | Some e => inl e
   | None => inr (posixpath.abspath cwd out)
   end).

End FlatExport.

(** A record whose flat line is a single line: a mapping that can be
    rendered and whose date and author hold no newline. *)
Definition one_line (py_repr : pyval -> pystr) (obj : pyval) : bool :=
  match obj with
  | PDict d =>
      match json_to_txt_chat py_repr obj with
      | inr _ =>
          negb (contains_char 10 (record_date py_repr d))
          && negb (contains_char 10 (record_author py_repr d))
      | inl _ => false
      end
  | _ => false
  end.

(** ** The text of a part, line by line *)

(** [s.split("\n")] *)
Fixpoint split_lines (s : pystr) : list pystr :=
  match s with
  | [] => [[]]
  | c :: s' =>
      if (c =? 10)%N then [] :: split_lines s'
      else match split_lines s' with
           | w :: ws => (c :: w) :: ws
           | [] => [[c]]
           end
  end.

(** A line that the rewriting of the first part copies as it is: not empty,
    without a carriage return, and without whitespace at its end. *)
Definition tidy_line (line : pystr) : bool :=
  negb (bool_decide (line = [])) && negb (contains_char 13 line)
  && bool_decide (rstrip line = line).

(** A text made of such lines. *)
Definition tidy (text : pystr) : bool := forallb tidy_line (split_lines text).

(** ** The configuration file *)

(** A value of [config.json] as [json.load] returns it; a number with a
    fraction or an exponent is a [float] (the non-finite ones, which
    [json.load] accepts, are left out). *)
Inductive jsonval :=
| JNull
| JBool (b : bool)
| JInt (n : Z)
| JFloat (x : Q)
| JStr (s : pystr)
| JList (items : list jsonval)
| JDict (items : list (pystr * jsonval)).

Definition DEFAULT_CONFIG : list (pystr * jsonval) :=
  [(u "max_file_size_mb", JFloat 150);
   (u "max_objects_per_file", JInt 400000);
   (u "array_path", JStr (u "messages"));
   (u "output_format", JStr (u "md"))].

(** What [load_config] finds at [CONFIG_PATH]: no file; a file that cannot
    be opened or read ([OSError]); a text that is not JSON
    ([json.JSONDecodeError]); or the value that [json.load] returns. *)
Inductive config_file :=
| Missing
| Unreadable
| Malformed
| Loaded (data : jsonval).

(** [d.get(key)] and [d[key] = v] on a mapping of the configuration. *)
Fixpoint config_get (d : list (pystr * jsonval)) (key : pystr) : option jsonval :=
  match d with
  | [] => None
  | (k, v) :: d' => if bool_decide (k = key) then Some v else config_get d' key
  end.

Fixpoint config_set (d : list (pystr * jsonval)) (key : pystr) (v : jsonval)
  : list (pystr * jsonval) :=
  match d with
  | [] => [(key, v)]
  | (k, w) :: d' => if bool_decide (k = key) then (k, v) :: d' else (k, w) :: config_set d' key v
  end.

(** [if key in data: out[key] = data[key]].  On a list, [in] looks for an
    item equal to the key and on a string for the key as a substring, and
    neither can be indexed by a string; any other value that is not a
    mapping has no [in]. *)
Definition merge_key (data : jsonval) (out : list (pystr * jsonval)) (key : pystr)
  : exn + list (pystr * jsonval) :=
  match data with
  | JDict d =>
      match config_get d key with
      | Some v => inr (config_set out key v)
      | None => inr out
      end
  | JList l =>
      if existsb (fun item => match item with
                              | JStr s => bool_decide (s = key)
                              | _ => false
                              end) l
      then inl TypeError else inr out
  | JStr s => if contains_str key s then inl TypeError else inr out
  | JNull | JBool _ | JInt _ | JFloat _ => inl TypeError
  end.

(** The loop [for key in DEFAULT_CONFIG] *)
Fixpoint merge_keys (data : jsonval) (keys : list pystr) (out : list (pystr * jsonval))
  : exn + list (pystr * jsonval) :=
  match keys with
  | [] => inr out
  | key :: rest => out' ← merge_key data out key; merge_keys data rest out'
  end.

(** [load_config]: only [json.JSONDecodeError] and [OSError] are caught. *)
Definition load_config (file : config_file) : exn + list (pystr * jsonval) :=
  match file with
  | Missing | Unreadable | Malformed => inr DEFAULT_CONFIG
  | Loaded data => merge_keys data (map fst DEFAULT_CONFIG) DEFAULT_CONFIG
  end.

(** * Proofs *)

(** ** Strings *)

Lemma lstrip_app (a b : pystr) :
  lstrip (a ++ b) = if bool_decide (lstrip a = []) then lstrip b else lstrip a ++ b.
Proof.
  induction a as [|c a IH]; simpl; [done|].
  destruct (isspace c); [done|]. by rewrite bool_decide_eq_false_2.
Qed.

Lemma rstrip_app (a b : pystr) :
  rstrip (a ++ b) = if bool_decide (rstrip b = []) then rstrip a else a ++ rstrip b.
Proof.
  unfold rstrip. rewrite rev_app_distr, lstrip_app.
  destruct (decide (lstrip (rev b) = [])) as [H|H].
  - rewrite !bool_decide_eq_true_2; [done| by rewrite H | done].
  - rewrite !bool_decide_eq_false_2; [|by intros ?%(f_equal (@rev N)); rewrite rev_involutive in *|done].
    by rewrite rev_app_distr, rev_involutive.
Qed.

Lemma rstrip_snoc (s : pystr) (c : N) :
  isspace c = false -> rstrip (s ++ [c]) = s ++ [c].
Proof.
  intros H. unfold rstrip. rewrite rev_app_distr. simpl. rewrite H.
  simpl. by rewrite rev_involutive.
Qed.

Lemma rstrip_word (w : pystr) : is_word w -> rstrip w = w.
Proof.
  intros [Hne Hw]. destruct (exists_last Hne) as (w' & c & ->).
  apply rstrip_snoc. apply Forall_app in Hw as [_ Hc]. by inversion Hc.
Qed.

Lemma is_word_snoc (w : pystr) (c : N) :
  Forall (fun c => isspace c = false) w -> isspace c = false -> is_word (w ++ [c]).
Proof.
  intros Hw Hc. split; [by destruct w|]. apply Forall_app. auto.
Qed.

Lemma split_ws_words (s : pystr) (w : pystr) :
  Forall (fun c => isspace c = false) w -> Forall is_word (split_ws w s).
Proof.
  revert w. induction s as [|c s IH]; intros w Hw; simpl.
  - destruct w; [constructor|]. constructor; [done|constructor].
  - destruct (isspace c) eqn:Hc.
    + destruct w; [by apply IH|]. constructor; [done|by apply IH].
    + apply IH. apply Forall_app. auto.
Qed.

Lemma split_ws_concat (s : pystr) (w : pystr) :
  concat (split_ws w s) = w ++ filter (fun c => isspace c = false) s.
Proof.
  revert w. induction s as [|c s IH]; intros w; simpl.
  - destruct w; simpl; by rewrite ?app_nil_r.
  - destruct (isspace c) eqn:Hc.
    + rewrite filter_cons_False by (by rewrite Hc).
      destruct w; simpl; by rewrite IH.
    + rewrite filter_cons_True by done. rewrite IH. by rewrite <- app_assoc.
Qed.

Lemma str_join_words_nil (ws : list pystr) :
  Forall is_word ws -> str_join [32%N] ws = [] -> ws = [].
Proof.
  intros Hws. destruct ws as [|w ws]; [done|].
  inversion Hws as [|? ? [Hne _] _]; subst.
  destruct w; [done|]. by destruct ws.
Qed.

Lemma ws_sub_true_false (s : pystr) : ws_sub true s = ws_sub false (lstrip s).
Proof.
  induction s as [|c s IH]; simpl; [done|].
  destruct (isspace c) eqn:Hc; [done|]. simpl. by rewrite Hc.
Qed.

Lemma lstrip_ws_sub (b : bool) (s : pystr) : lstrip (ws_sub b s) = ws_sub true s.
Proof.
  revert b. induction s as [|c s IH]; intros b; simpl; [done|].
  destruct (isspace c) eqn:Hc.
  - destruct b; [apply IH|]. simpl. apply IH.
  - simpl. by rewrite Hc.
Qed.

Lemma rstrip_ws_sub (s : pystr) :
  (forall w, is_word w -> rstrip (w ++ ws_sub false s) = str_join [32%N] (split_ws w s))
  ∧ rstrip (ws_sub true s) = str_join [32%N] (split_ws [] s).
Proof.
  induction s as [|c s [IHw IHt]]; simpl.
  - split; [|done]. intros w Hw. rewrite app_nil_r.
    destruct w; [by destruct Hw|]. by apply rstrip_word.
  - destruct (isspace c) eqn:Hc.
    + split; [|done]. intros w Hw.
      assert (Hsp : rstrip [32%N] = []) by done.
      assert (Hws := split_ws_words s [] (List.Forall_nil _)).
      rewrite rstrip_app. change (32%N :: ws_sub true s) with ([32%N] ++ ws_sub true s).
      rewrite rstrip_app, IHt, Hsp.
      destruct w as [|a w]; [by destruct Hw|].
      destruct (split_ws [] s) as [|x xs] eqn:Hx.
      * simpl. by apply rstrip_word.
      * assert (Hj : str_join [32%N] (x :: xs) ≠ []).
        { intros E. by apply str_join_words_nil in E. }
        rewrite (bool_decide_eq_false_2 _ Hj).
        rewrite bool_decide_eq_false_2 by done. done.
    + split.
      * intros w [_ Hw]. rewrite (cons_middle c), app_assoc. apply IHw.
        by apply is_word_snoc.
      * change (c :: ws_sub false s) with ([c] ++ ws_sub false s). apply IHw.
        by apply (is_word_snoc []).
Qed.

Lemma _normalize_text_words (s : pystr) :
  _normalize_text s = str_join [32%N] (words s).
Proof.
  unfold _normalize_text, words, strip. case_bool_decide as H; [by subst|].
  rewrite lstrip_ws_sub. apply rstrip_ws_sub.
Qed.

Lemma words_spec (s : pystr) :
  Forall is_word (words s) ∧ concat (words s) = filter (fun c => isspace c = false) s.
Proof. split; [by apply split_ws_words|apply split_ws_concat]. Qed.

Lemma str_join_words_space (ws : list pystr) (c : N) :
  Forall is_word ws -> c ∈ str_join [32%N] ws -> isspace c = true -> c = 32%N.
Proof.
  induction ws as [|w ws IH]; intros Hws Hc Hsp; [by apply elem_of_nil in Hc|].
  inversion Hws as [|? ? [_ Hw] Hws']; subst.
  assert (Hnw : c ∉ w).
  { intros Hin. rewrite Forall_forall in Hw. apply Hw in Hin. congruence. }
  destruct ws as [|x xs]; simpl in Hc; [done|].
  apply elem_of_app in Hc as [?|Hc]; [done|].
  apply elem_of_cons in Hc as [?|Hc]; [done|]. by apply IH.
Qed.

Lemma _normalize_text_no_newline (s : pystr) : 10%N ∉ _normalize_text s.
Proof.
  rewrite _normalize_text_words. intros H.
  by apply str_join_words_space in H; [|apply words_spec|].
Qed.

Lemma utf8_len_cons (c : N) (a : pystr) : utf8_len (c :: a) = utf8_char_len c + utf8_len a.
Proof. reflexivity. Qed.

Lemma utf8_char_len_bounds (c : N) : 1 <= utf8_char_len c <= 4.
Proof. unfold utf8_char_len. repeat case_match; lia. Qed.

Lemma utf8_len_app (a b : pystr) : utf8_len (a ++ b) = utf8_len a + utf8_len b.
Proof.
  induction a as [|c a IH]; [done|].
  rewrite <- app_comm_cons, !utf8_len_cons, IH. lia.
Qed.

Lemma utf8_len_nonneg (a : pystr) : 0 <= utf8_len a.
Proof.
  induction a as [|c a IH]; [done|].
  rewrite utf8_len_cons. pose proof (utf8_char_len_bounds c). lia.
Qed.

Lemma str_join_snoc (sp : pystr) (l : list pystr) (x : pystr) :
  str_join sp (l ++ [x]) = match l with [] => x | _ => str_join sp l ++ sp ++ x end.
Proof.
  induction l as [|a l IH]; [done|].
  destruct l as [|b l]; [done|].
  change (str_join sp ((a :: b :: l) ++ [x])) with (a ++ sp ++ str_join sp ((b :: l) ++ [x])).
  rewrite IH. change (str_join sp (a :: b :: l)) with (a ++ sp ++ str_join sp (b :: l)).
  by rewrite <- !app_assoc.
Qed.

(** ** Decimal numerals *)

Lemma string_of_uint_digits (d : Decimal.uint) :
  Forall is_digit (u (NilEmpty.string_of_uint d)).
Proof.
  induction d; simpl; try constructor; try done; unfold is_digit; simpl; lia.
Qed.

Lemma str_int_digits (n : Z) : 0 <= n -> Forall is_digit (str_int n).
Proof.
  intros Hn. unfold str_int. destruct n as [|p|p]; [| |lia].
  - repeat constructor; unfold is_digit; simpl; lia.
  - simpl. unfold NilZero.string_of_uint.
    destruct (Pos.to_uint p) eqn:E; try apply (string_of_uint_digits (_ _)).
    repeat constructor; unfold is_digit; simpl; lia.
Qed.

Lemma group3_cons4 (a b c d : N) (rest : pystr) :
  group3 (a :: b :: c :: d :: rest) = a :: b :: c :: 44%N :: group3 (d :: rest).
Proof. reflexivity. Qed.

Lemma group3_filter_aux (n : nat) (l : pystr) :
  (length l <= n)%nat -> Forall is_digit l ->
  filter (fun c => c ≠ 44%N) (group3 l) = l.
Proof.
  revert l. induction n as [n IH] using lt_wf_ind. intros l Hl Hd.
  assert (Hf : ∀ c, is_digit c -> c ≠ 44%N) by (unfold is_digit; lia).
  destruct l as [|a [|b [|c [|d rest]]]]; [simpl..|rewrite group3_cons4].
  - done.
  - inversion Hd; subst. rewrite filter_cons_True by auto. done.
  - inversion Hd as [|? ? ? Hd']; subst. inversion Hd'; subst.
    rewrite !filter_cons_True by auto. done.
  - inversion Hd as [|? ? ? Hd']; subst. inversion Hd' as [|? ? ? Hd'']; subst.
    inversion Hd''; subst. rewrite !filter_cons_True by auto. done.
  - inversion Hd as [|? ? ? Hd']; subst. inversion Hd' as [|? ? ? Hd'']; subst.
    inversion Hd'' as [|? ? ? Hd3]; subst.
    rewrite !filter_cons_True by auto. rewrite filter_cons_False by (intros ?; done).
    do 3 f_equal. simpl in Hl. apply (IH (length (d :: rest))); simpl; [lia|lia|done].
Qed.

Lemma filter_rev_comma (l : pystr) :
  filter (fun c => c ≠ 44%N) (rev l) = rev (filter (fun c => c ≠ 44%N) l).
Proof.
  induction l as [|a l IH]; [done|]. simpl. rewrite filter_app, IH.
  destruct (decide (a ≠ 44%N)).
  - rewrite (filter_cons_True _ a l) by done. by rewrite filter_cons_True by done.
  - rewrite (filter_cons_False _ a l) by done. rewrite filter_cons_False by done.
    by rewrite app_nil_r.
Qed.

Lemma format_grouped_digits (n : Z) :
  0 <= n -> filter (fun c => c ≠ 44%N) (format_grouped n) = str_int n.
Proof.
  intros Hn. unfold format_grouped. rewrite (proj2 (Z.ltb_ge _ _) Hn).
  rewrite filter_rev_comma.
  rewrite (group3_filter_aux (length (rev (str_int n)))); [by rewrite rev_involutive|done|].
  apply Forall_rev. by apply str_int_digits.
Qed.

(** ** The normalizer *)

Section NormalizerFacts.

Variable py_repr : pyval -> pystr.

Lemma str_join_nil_concat (parts : list pystr) : str_join [] parts = concat parts.
Proof.
  induction parts as [|p ps IH]; [done|].
  destruct ps as [|q qs]; simpl in *.
  - by rewrite app_nil_r.
  - by rewrite IH.
Qed.

Lemma extract_parts_item_text (l : list pyval) :
  concat (map (py_str py_repr) (extract_parts l)) = concat (map (item_text py_repr) l).
Proof.
  induction l as [|v l IH]; [done|].
  destruct v; simpl; rewrite ?IH; done.
Qed.

Lemma _extract_text_entity_text (v : pyval) :
  _extract_text py_repr v = entity_text py_repr v.
Proof.
  destruct v; try done.
  simpl. rewrite str_join_nil_concat. apply extract_parts_item_text.
Qed.

Lemma falsy_str_no_T (v : pyval) :
  truthy v = false -> contains_char 84 (py_str py_repr v) = false.
Proof.
  destruct v as [|b|n|s|l|d]; simpl.
  - done.
  - by intros ->.
  - intros H. apply negb_false_iff, Z.eqb_eq in H. by subst.
  - intros H. apply negb_false_iff, bool_decide_eq_true in H. by subst.
  - by destruct l.
  - by destruct d.
Qed.

Lemma py_or_present (d : list (pystr * pyval)) (key : pystr) (v : pyval) :
  py_or (dict_get_default d key PNone) v = default v (present (dict_get d key)).
Proof.
  unfold py_or, dict_get_default, present.
  destruct (dict_get d key) as [w|]; simpl; [by destruct (truthy w)|done].
Qed.

Lemma md_date_record_date (d : list (pystr * pyval)) :
  let date := dict_get_default d (u "date") (PStr []) in
  py_str py_repr
    (if truthy date && contains_char 84 (py_str py_repr date)
     then PStr (take 16 (replace_char 84 32 (py_str py_repr date)))
     else date)
  = record_date py_repr d.
Proof.
  intros date. unfold record_date. fold date.
  destruct (truthy date) eqn:Ht; simpl.
  - by destruct (contains_char 84 (py_str py_repr date)).
  - by rewrite falsy_str_no_T.
Qed.

Lemma chat_date_record_date (d : list (pystr * pyval)) :
  let date := dict_get_default d (u "date") (PStr []) in
  py_str py_repr
    (if contains_char 84 (py_str py_repr date)
     then PStr (take 16 (replace_char 84 32 (py_str py_repr date)))
     else date)
  = record_date py_repr d.
Proof.
  intros date. unfold record_date. fold date.
  by destruct (contains_char 84 (py_str py_repr date)).
Qed.

Lemma author_record_author (d : list (pystr * pyval)) :
  py_str py_repr
    (py_or (py_or (dict_get_default d (u "from") PNone) (dict_get_default d (u "actor") PNone))
           (PStr []))
  = record_author py_repr d.
Proof.
  unfold record_author, field_text, py_or, dict_get_default.
  destruct (dict_get d (u "from")) as [v|]; simpl.
  - destruct (truthy v) eqn:Hv; simpl; [by rewrite Hv|].
    destruct (dict_get d (u "actor")) as [w|]; simpl; [by destruct (truthy w)|done].
  - destruct (dict_get d (u "actor")) as [w|]; simpl; [by destruct (truthy w)|done].
Qed.

Lemma text_record_text (d : list (pystr * pyval)) :
  let text := py_or (dict_get_default d (u "text") PNone) (PStr []) in
  (if negb (truthy text) && truthy (dict_get_default d (u "text_entities") PNone)
   then entities ← py_iter (dict_get_default d (u "text_entities") PNone);
        inr (str_join (u " ") (map (_extract_text py_repr) entities))
   else inr (_extract_text py_repr text))
  = record_text_with (entity_text py_repr) d.
Proof.
  intros text. unfold record_text_with, present. subst text.
  unfold py_or, dict_get_default.
  destruct (dict_get d (u "text")) as [t|]; simpl.
  - destruct (truthy t) eqn:Ht; simpl.
    + rewrite Ht. simpl. by rewrite _extract_text_entity_text.
    + destruct (dict_get d (u "text_entities")) as [e|]; simpl; [|done].
      destruct (truthy e); simpl; [|done].
      destruct (py_iter e) as [x|items]; simpl; [done|].
      f_equal. f_equal. apply map_ext. intros. apply _extract_text_entity_text.
  - destruct (dict_get d (u "text_entities")) as [e|]; simpl; [|done].
    destruct (truthy e); simpl; [|done].
    destruct (py_iter e) as [x|items]; simpl; [done|].
    f_equal. f_equal. apply map_ext. intros. apply _extract_text_entity_text.
Qed.

Lemma obj_to_md_spec (d : list (pystr * pyval)) :
  obj_to_md py_repr (PDict d)
  = (raw ← record_text_with (entity_text py_repr) d;
     inr (md_block (record_date py_repr d) (record_author py_repr d)
            (_normalize_text raw))).
Proof.
  unfold obj_to_md. cbv zeta.
  rewrite text_record_text, md_date_record_date, author_record_author.
  destruct (record_text_with _ d) as [e|raw]; simpl; [done|].
  unfold md_block. destruct (bool_decide (_normalize_text raw = [])); simpl; [done|].
  by rewrite <- !app_assoc.
Qed.

Lemma json_to_txt_chat_spec (d : list (pystr * pyval)) :
  json_to_txt_chat py_repr (PDict d)
  = (raw ← record_text_with (entity_text py_repr) d;
     inr (rstrip (record_date py_repr d ++ u " | " ++ record_author py_repr d
                    ++ u ": " ++ _normalize_text raw) ++ [10%N])).
Proof.
  unfold json_to_txt_chat. cbv zeta.
  by rewrite text_record_text, chat_date_record_date, author_record_author.
Qed.

End NormalizerFacts.

(** ** Paths *)

Module posixpath_facts.
Import posixpath.

Lemma split_slash_nonempty (s : pystr) : split_slash s ≠ [].
Proof. destruct s as [|c s]; simpl; [done|]. destruct (c =? 47)%N; [done|]. by destruct (split_slash s). Qed.

Lemma split_slash_no_slash (s : pystr) : Forall (fun c => 47%N ∉ c) (split_slash s).
Proof.
  induction s as [|c s IH]; simpl.
  - repeat constructor. apply not_elem_of_nil.
  - destruct (c =? 47)%N eqn:Hc.
    + constructor; [apply not_elem_of_nil|done].
    + apply N.eqb_neq in Hc. destruct (split_slash s) as [|w ws].
      * repeat constructor. intros [?|?%elem_of_nil]%elem_of_cons; [congruence|done].
      * inversion IH; subst. constructor; [|done].
        intros [?|?]%elem_of_cons; [congruence|done].
Qed.

Lemma split_slash_cons_slash (s : pystr) : split_slash (47%N :: s) = [] :: split_slash s.
Proof. done. Qed.

Lemma split_slash_word (w : pystr) : 47%N ∉ w -> split_slash w = [w].
Proof.
  induction w as [|c w IH]; intros H; simpl; [done|].
  apply not_elem_of_cons in H as [Hc Hw].
  destruct (c =? 47)%N eqn:E; [apply N.eqb_eq in E; congruence|].
  by rewrite IH.
Qed.

Lemma split_slash_app_word (w s : pystr) :
  47%N ∉ w -> split_slash (w ++ 47%N :: s) = w :: split_slash s.
Proof.
  induction w as [|c w IH]; intros H; simpl; [done|].
  apply not_elem_of_cons in H as [Hc Hw].
  destruct (c =? 47)%N eqn:E; [apply N.eqb_eq in E; congruence|].
  by rewrite IH.
Qed.

Lemma split_slash_join (comps : list pystr) :
  comps ≠ [] -> Forall (fun c => 47%N ∉ c) comps ->
  split_slash (str_join (u "/") comps) = comps.
Proof.
  induction comps as [|c comps IH]; intros Hne Hc; [done|].
  inversion Hc; subst. destruct comps as [|d comps].
  - simpl. by apply split_slash_word.
  - change (str_join (u "/") (c :: d :: comps)) with (c ++ 47%N :: str_join (u "/") (d :: comps)).
    rewrite split_slash_app_word by done. by rewrite IH.
Qed.

Lemma norm_step_clean (k : nat) (acc : list pystr) (c : pystr) :
  clean c -> norm_step k acc c = acc ++ [c].
Proof.
  intros (H1 & H2 & H3 & _). unfold norm_step.
  rewrite !bool_decide_eq_false_2 by done. done.
Qed.

Lemma fold_norm_step_clean (k : nat) (comps acc : list pystr) :
  Forall clean comps -> fold_left (norm_step k) comps acc = acc ++ comps.
Proof.
  revert acc. induction comps as [|c comps IH]; intros acc H; simpl.
  - by rewrite app_nil_r.
  - inversion H; subst. rewrite norm_step_clean by done.
    rewrite IH by done. by rewrite <- app_assoc.
Qed.

Lemma Forall_removelast {A} (P : A -> Prop) (l : list A) :
  Forall P l -> Forall P (removelast l).
Proof.
  induction l as [|a l IH]; intros H; simpl; [done|].
  inversion H; subst. destruct l; [constructor|]. constructor; auto.
Qed.

Lemma norm_step_keeps_clean (k : nat) (acc : list pystr) (c : pystr) :
  k ≠ 0%nat -> 47%N ∉ c -> Forall clean acc -> Forall clean (norm_step k acc c).
Proof.
  intros Hk Hc Hacc. unfold norm_step.
  destruct (bool_decide (c = [])) eqn:E1; [done|].
  destruct (bool_decide (c = u ".")) eqn:E2; [done|]. simpl.
  apply bool_decide_eq_false in E1, E2.
  destruct (bool_decide (c = u "..")) eqn:E3; simpl.
  - rewrite (bool_decide_eq_false_2 (k = 0%nat)) by done. simpl.
    destruct (bool_decide (acc = [])) eqn:E4; simpl.
    { apply bool_decide_eq_true in E4. by subst. }
    destruct (bool_decide (last acc = Some (u ".."))) eqn:E5;
      [|by apply Forall_removelast].
    exfalso. apply bool_decide_eq_true in E5. apply last_Some in E5 as [l' ->].
    apply Forall_app in Hacc as [_ Hl]. inversion Hl as [|? ? (_ & _ & H & _) _]. done.
  - apply bool_decide_eq_false in E3. apply Forall_app. split; [done|].
    repeat constructor; done.
Qed.

Lemma fold_norm_step_keeps_clean (k : nat) (comps acc : list pystr) :
  k ≠ 0%nat -> Forall (fun c => 47%N ∉ c) comps -> Forall clean acc ->
  Forall clean (fold_left (norm_step k) comps acc).
Proof.
  intros Hk. revert acc. induction comps as [|c comps IH]; intros acc Hc Hacc; simpl; [done|].
  inversion Hc; subst. apply IH; [done|]. by apply norm_step_keeps_clean.
Qed.

Lemma initial_slashes_abs (path : pystr) :
  isabs path = true -> initial_slashes path = 1%nat ∨ initial_slashes path = 2%nat.
Proof.
  unfold isabs, initial_slashes. intros ->.
  destruct (startswith (u "//") path && negb (startswith (u "///") path)); auto.
Qed.

Lemma normpath_abs (path : pystr) : isabs path = true -> normal_abs (normpath path).
Proof.
  intros Habs. unfold normpath.
  destruct path as [|c path]; [done|]. rewrite bool_decide_eq_false_2 by done.
  cbv zeta. set (k := initial_slashes (c :: path)).
  set (comps := fold_left (norm_step k) (split_slash (c :: path)) []).
  assert (Hk : k = 1%nat ∨ k = 2%nat) by by apply initial_slashes_abs.
  rewrite bool_decide_eq_false_2 by (by destruct Hk as [-> | ->]).
  exists k, comps. repeat split; [done|].
  apply fold_norm_step_keeps_clean; [lia|apply split_slash_no_slash|constructor].
Qed.

Lemma str_join_clean_head (comps : list pystr) :
  Forall clean comps -> startswith (u "/") (str_join (u "/") comps) = false.
Proof.
  intros H. destruct comps as [|c comps]; [done|].
  inversion H as [|? ? (Hne & _ & _ & Hs) _]; subst.
  destruct c as [|a c]; [done|].
  assert (a ≠ 47%N) by (intros ->; apply Hs; left).
  assert (Hhd : ∀ s, startswith (u "/") (a :: s) = false).
  { intros s. change (startswith (u "/") (a :: s)) with ((47 =? a)%N && true).
    rewrite (proj2 (N.eqb_neq _ _)); done. }
  destruct comps; apply Hhd.
Qed.

Lemma normpath_normal_abs (path : pystr) : normal_abs path -> normpath path = path.
Proof.
  intros (k & comps & Hk & Hc & ->).
  pose proof (str_join_clean_head comps Hc) as Hhd.
  assert (Hns : Forall (fun c => 47%N ∉ c) comps).
  { eapply Forall_impl; [exact Hc|]. by intros c (_ & _ & _ & ?). }
  set (J := str_join (u "/") comps) in *.
  assert (Hfold : ∀ n, fold_left (norm_step k) (repeat [] n ++ split_slash J) [] = comps).
  { intros n. rewrite fold_left_app.
    assert (fold_left (norm_step k) (repeat [] n) [] = []) as ->.
    { induction n as [|n IH]; [done|]. simpl. exact IH. }
    destruct comps as [|c0 comps']; [done|].
    unfold J. rewrite split_slash_join by done. by rewrite fold_norm_step_clean. }
  unfold normpath.
  assert (Hsl : initial_slashes (concat (repeat (u "/") k) ++ J) = k).
  { unfold initial_slashes. destruct J as [|a J']; [by destruct Hk as [-> | ->]|].
    change (startswith (u "/") (a :: J')) with ((47 =? a)%N && true) in Hhd.
    rewrite andb_true_r in Hhd.
    destruct Hk as [-> | ->].
    - change (startswith (u "/") (concat (repeat (u "/") 1) ++ a :: J')) with true.
      change (startswith (u "//") (concat (repeat (u "/") 1) ++ a :: J'))
        with ((47 =? a)%N && true).
      by rewrite Hhd.
    - change (startswith (u "/") (concat (repeat (u "/") 2) ++ a :: J')) with true.
      change (startswith (u "//") (concat (repeat (u "/") 2) ++ a :: J')) with true.
      change (startswith (u "///") (concat (repeat (u "/") 2) ++ a :: J'))
        with ((47 =? a)%N && true).
      by rewrite Hhd. }
  rewrite bool_decide_eq_false_2 by (by destruct Hk as [-> | ->]).
  cbv zeta. rewrite Hsl.
  assert (split_slash (concat (repeat (u "/") k) ++ J) = repeat [] k ++ split_slash J) as ->.
  { by destruct Hk as [-> | ->]. }
  rewrite Hfold. fold J.
  rewrite bool_decide_eq_false_2 by (by destruct Hk as [-> | ->]). done.
Qed.

Lemma normal_abs_isabs (path : pystr) : normal_abs path -> isabs path = true.
Proof. intros (k & comps & [-> | ->] & _ & ->); done. Qed.

Lemma join_getcwd_isabs (cwd path : pystr) :
  isabs path = false -> isabs (join (getcwd cwd) path) = true.
Proof.
  unfold join, isabs, getcwd. intros ->. simpl.
  by destruct (endswith_slash (47%N :: cwd)).
Qed.

Lemma abspath_normal (cwd path : pystr) : normal_abs (abspath cwd path).
Proof.
  unfold abspath. destruct (isabs path) eqn:H; apply normpath_abs; [done|].
  by apply join_getcwd_isabs.
Qed.

Lemma abspath_idem (cwd cwd' path : pystr) :
  abspath cwd' (abspath cwd path) = abspath cwd path.
Proof.
  pose proof (abspath_normal cwd path) as H.
  unfold abspath at 1. rewrite (normal_abs_isabs _ H). by apply normpath_normal_abs.
Qed.

End posixpath_facts.

Module posixpath_suffix.
Import posixpath posixpath_facts.

Lemma removelast_cons {A} (a : A) (l : list A) : l ≠ [] -> removelast (a :: l) = a :: removelast l.
Proof. by destruct l. Qed.

Lemma last_cons_ne {A} (a d : A) (l : list A) : l ≠ [] -> List.last (a :: l) d = List.last l d.
Proof. by destruct l. Qed.

Lemma split_slash_suffix (x t : pystr) :
  47%N ∉ t ->
  split_slash (x ++ t)
  = removelast (split_slash x) ++ [List.last (split_slash x) [] ++ t].
Proof.
  intros Ht. induction x as [|c x IH].
  - simpl. by apply split_slash_word.
  - pose proof (split_slash_nonempty x) as Hne.
    change ((c :: x) ++ t) with (c :: (x ++ t)). simpl split_slash.
    destruct (c =? 47)%N.
    + rewrite IH, removelast_cons, last_cons_ne by done. done.
    + rewrite IH. destruct (split_slash x) as [|w ws]; [done|].
      destruct ws as [|w' ws']; [done|].
      rewrite !removelast_cons, !last_cons_ne by done. done.
Qed.

Lemma startswith_slash_app (x t : pystr) :
  47%N ∉ t -> startswith (u "/") (x ++ t) = startswith (u "/") x.
Proof.
  intros Ht. destruct x as [|a x]; [|done]. destruct t as [|b t]; [done|].
  apply not_elem_of_cons in Ht as [Hb _].
  change (startswith (u "/") ([] ++ b :: t)) with ((47 =? b)%N && true).
  by rewrite (proj2 (N.eqb_neq 47 b)) by done.
Qed.

Lemma startswith_cons (a : N) (p : pystr) (b : N) (s : pystr) :
  startswith (a :: p) (b :: s) = (a =? b)%N && startswith p s.
Proof. done. Qed.

Lemma initial_slashes_suffix (x t : pystr) :
  47%N ∉ t -> initial_slashes (x ++ t) = initial_slashes x.
Proof.
  intros Ht. unfold initial_slashes. rewrite startswith_slash_app by done.
  destruct (startswith (u "/") x) eqn:H1; [|done].
  destruct x as [|a x]; [done|]. simpl app.
  change (u "//") with (47%N :: u "/"). change (u "///") with (47%N :: 47%N :: u "/").
  rewrite !startswith_cons. destruct (47 =? a)%N; [|done].
  rewrite !andb_true_l. rewrite startswith_slash_app by done.
  destruct x as [|b x].
  - change ([] ++ t) with t. change (startswith (47%N :: u "/") []) with false.
    destruct t as [|c t]; [done|].
    apply not_elem_of_cons in Ht as [Hc _]. rewrite startswith_cons.
    by rewrite (proj2 (N.eqb_neq 47 c)) by done.
  - change ((b :: x) ++ t) with (b :: (x ++ t)). rewrite !startswith_cons.
    by rewrite startswith_slash_app.
Qed.

Lemma norm_step_ordinary (k : nat) (acc : list pystr) (c : pystr) :
  ordinary c -> norm_step k acc c = acc ++ [c].
Proof.
  intros (H1 & H2 & H3). unfold norm_step.
  rewrite !bool_decide_eq_false_2 by done. done.
Qed.

Lemma normpath_suffix (x t : pystr) :
  47%N ∉ t -> ordinary (List.last (split_slash x) [] ++ t) ->
  normpath (x ++ t) = stem x ++ t.
Proof.
  intros Ht Ho. unfold normpath, stem.
  assert (x ++ t ≠ []) as Hne.
  { intros [-> ->]%app_eq_nil. by destruct Ho. }
  rewrite bool_decide_eq_false_2 by done. cbv zeta.
  rewrite initial_slashes_suffix, split_slash_suffix by done.
  rewrite fold_left_app. simpl fold_left. rewrite norm_step_ordinary by done.
  rewrite str_join_snoc.
  set (kept := fold_left _ _ _). set (l := List.last _ _) in *.
  set (sl := concat _).
  assert (l ++ t ≠ []) as Hlt by by destruct Ho.
  assert (∀ a b : pystr, a ++ b ++ l ++ t ≠ []) as Hnil.
  { intros a b [_ E]%app_eq_nil. by apply app_eq_nil in E as [_ E]. }
  destruct kept as [|a kept'] eqn:Hk.
  - rewrite (bool_decide_eq_true_2 (@nil pystr = [])) by done.
    rewrite (bool_decide_eq_false_2 _ (Hnil sl [])). by rewrite <- !app_assoc.
  - rewrite (bool_decide_eq_false_2 (a :: kept' = [])) by done.
    rewrite <- !app_assoc.
    change (u "/" ++ l ++ t) with ([47%N] ++ l ++ t).
    rewrite (app_assoc _ [47%N]).
    by rewrite (bool_decide_eq_false_2 _ (Hnil sl _)).
Qed.

Lemma last_split_slash_suffix (x t : pystr) :
  47%N ∉ t -> List.last (split_slash (x ++ t)) [] = List.last (split_slash x) [] ++ t.
Proof. intros Ht. rewrite split_slash_suffix by done. apply last_last. Qed.

Lemma join_suffix (a b t : pystr) : b ≠ [] -> join a (b ++ t) = join a b ++ t.
Proof.
  intros Hb. unfold join.
  assert (startswith (u "/") (b ++ t) = startswith (u "/") b) as -> by by destruct b.
  destruct (startswith (u "/") b); [done|].
  destruct (bool_decide (a = []) || endswith_slash a); by rewrite <- ?app_assoc.
Qed.

Lemma join_ends_underscore (a z : pystr) : ends_underscore z -> ends_underscore (join a z).
Proof.
  intros [q ->]. unfold join. destruct (startswith _ _); [by exists q|].
  destruct (_ || _).
  - exists (a ++ q). by rewrite <- app_assoc.
  - exists (a ++ u "/" ++ q). by rewrite <- !app_assoc.
Qed.

Lemma ordinary_underscore (l t : pystr) : ordinary (l ++ 95%N :: t).
Proof.
  assert (∀ s, 95%N ∉ s -> l ++ 95%N :: t ≠ s) as H.
  { intros s Hs <-. apply Hs, elem_of_app. right. left. }
  split; [by destruct l|]. split; apply H.
  - by intros [?|?%elem_of_nil]%elem_of_cons.
  - by intros [?|[?|?%elem_of_nil]%elem_of_cons]%elem_of_cons.
Qed.

Lemma normpath_underscore_suffix (z t : pystr) :
  ends_underscore z -> 47%N ∉ t -> normpath (z ++ t) = stem z ++ t.
Proof.
  intros [q ->] Ht. apply normpath_suffix; [done|].
  rewrite last_split_slash_suffix, <- app_assoc.
  - apply ordinary_underscore.
  - by intros [?|?%elem_of_nil]%elem_of_cons.
Qed.

Lemma abspath_underscore_suffix (cwd z t : pystr) :
  ends_underscore z -> 47%N ∉ t -> abspath cwd (z ++ t) = abs_stem cwd z ++ t.
Proof.
  intros Hz Ht. unfold abspath, abs_stem.
  assert (z ≠ []) as Hne by (destruct Hz as [q ->]; by destruct q).
  assert (isabs (z ++ t) = isabs z) as -> by (unfold isabs; by destruct z).
  destruct (isabs z).
  - by apply normpath_underscore_suffix.
  - rewrite join_suffix by done. apply normpath_underscore_suffix; [|done].
    by apply join_ends_underscore.
Qed.

Lemma abspath_tmp (cwd path : pystr) :
  abspath cwd (abspath cwd path ++ u ".tmp")
  = stem (abspath cwd path) ++ u ".tmp".
Proof.
  pose proof (abspath_normal cwd path) as Hn.
  unfold abspath at 1.
  assert (isabs (abspath cwd path ++ u ".tmp") = true) as ->.
  { apply normal_abs_isabs in Hn. unfold isabs in *.
    by destruct (abspath cwd path). }
  apply normpath_suffix.
  - by intros [?|[?|[?|[?|?%elem_of_nil]%elem_of_cons]%elem_of_cons]%elem_of_cons]%elem_of_cons.
  - set (l := List.last _ _).
    assert (∀ s, (length s < 4)%nat -> l ++ u ".tmp" ≠ s) as H.
    { intros s Hs E. apply (f_equal length) in E. rewrite length_app in E. simpl in E. lia. }
    split; [|split]; apply H; simpl; lia.
Qed.

End posixpath_suffix.

(** Decimal strings *)

Lemma u_inj (a b : string) : u a = u b -> a = b.
Proof.
  unfold u. intros H.
  rewrite <- (string_of_list_ascii_of_string a), <- (string_of_list_ascii_of_string b).
  f_equal. revert H. generalize (list_ascii_of_string a) (list_ascii_of_string b).
  induction l as [|x l IH]; intros [|y l'] H; try done.
  simpl in H. injection H as Hxy Hl. f_equal; [|by apply IH].
  rewrite <- (ascii_N_embedding x), <- (ascii_N_embedding y). by rewrite Hxy.
Qed.

Lemma str_int_inj (a b : Z) : str_int a = str_int b -> a = b.
Proof.
  intros H%u_inj.
  assert (Hnn : ∀ z, Z.to_int z ≠ Decimal.Pos Decimal.Nil ∧ Z.to_int z ≠ Decimal.Neg Decimal.Nil).
  { intros [|p|p]; simpl; split; try done; intros [= E]; by apply Unsigned.to_uint_nonnil in E. }
  apply (f_equal NilZero.int_of_string) in H.
  rewrite !NilZero.isi in H by apply Hnn.
  injection H as H. apply (f_equal Z.of_int) in H. by rewrite !DecimalZ.of_to in H.
Qed.

Lemma str_int_no_slash (n : Z) : 0 <= n -> 47%N ∉ str_int n.
Proof.
  intros Hn H. pose proof (str_int_digits n Hn) as Hd.
  rewrite Forall_forall in Hd. apply Hd in H. unfold is_digit in H. lia.
Qed.

(** ** The engine *)

Section EngineFacts.

Variable py_repr : pyval -> pystr.
Variable cwd : pystr.
Variables input_path output_dir output_prefix : pystr.
Variable max_file_size_mb : option Q.
Variable max_objects_per_file : option Z.
Variable output_format : pystr.

Abbreviation md := (is_md output_format).
Abbreviation n_of := (n_current output_format).
Abbreviation msb := (max_size_bytes max_file_size_mb).
Abbreviation wp := (write_part cwd output_dir output_prefix output_format).
Abbreviation full := (flush_if_full cwd output_dir output_prefix max_file_size_mb output_format).
Abbreviation no_room := (flush_if_no_room cwd output_dir output_prefix max_file_size_mb output_format).
Abbreviation count := (flush_if_count cwd output_dir output_prefix max_objects_per_file output_format).
Abbreviation add := (append_unit output_format).
Abbreviation body := (loop_body py_repr cwd output_dir output_prefix max_file_size_mb
                    max_objects_per_file output_format).
Abbreviation loop := (for_each py_repr cwd output_dir output_prefix max_file_size_mb
                    max_objects_per_file output_format).
Abbreviation run := (split_json py_repr cwd input_path output_dir output_prefix max_file_size_mb
                   max_objects_per_file output_format).

Abbreviation size_reached' := (size_reached max_file_size_mb).
Abbreviation no_room_for' := (no_room_for max_file_size_mb output_format).
Abbreviation count_reached' := (count_reached max_objects_per_file output_format).
Abbreviation flushes' := (flushes cwd output_dir output_prefix max_file_size_mb
                        max_objects_per_file output_format).
Abbreviation inv := (loop_inv py_repr cwd output_format).
Abbreviation ok := (part_ok cwd output_format).
Abbreviation cinv := (count_inv output_format).
Abbreviation chunk := (chunk_inv output_format).
Abbreviation sinv := (size_inv output_format).
Abbreviation units := (part_units output_format).
Abbreviation all_render' := (all_render py_repr output_format).

Lemma write_part_empty (st : state) : n_of st = 0 -> wp st = st.
Proof. intros H. unfold write_part. by rewrite H. Qed.

Lemma n_current_write_part (st : state) : n_of (wp st) = 0.
Proof.
  unfold write_part. destruct (n_of st =? 0) eqn:H; [by apply Z.eqb_eq|].
  unfold n_current. simpl. by destruct md.
Qed.

Lemma write_part_idem (st : state) : wp (wp st) = wp st.
Proof. apply write_part_empty, n_current_write_part. Qed.

Lemma flushes_cases (obj_size : Z) (st : state) :
  (flushes' obj_size st = st
   ∧ (n_of st = 0
      ∨ (size_reached' st = false ∧ no_room_for' obj_size st = false ∧ count_reached' st = false)))
  ∨ (flushes' obj_size st = wp st ∧ n_of st ≠ 0
     ∧ (size_reached' st = true ∨ no_room_for' obj_size st = true ∨ count_reached' st = true)).
Proof.
  unfold flushes, flush_if_count, flush_if_no_room, flush_if_full.
  destruct (decide (n_of st = 0)) as [Hn|Hn].
  { left. split; [|by left]. rewrite (write_part_empty st Hn).
    destruct (size_reached' st);
      repeat (match goal with |- context [if ?c then _ else _] => destruct c end;
              rewrite ?(write_part_empty st Hn)); done. }
  destruct (size_reached' st) eqn:H1.
  { right. split; [|by auto].
    repeat (match goal with |- context [if ?c then _ else _] => destruct c end;
            rewrite ?write_part_idem); done. }
  destruct (no_room_for' obj_size st) eqn:H2.
  { right. split; [|by auto].
    repeat (match goal with |- context [if ?c then _ else _] => destruct c end;
            rewrite ?write_part_idem); done. }
  destruct (count_reached' st) eqn:H3.
  - right. auto.
  - left. auto.
Qed.

Lemma loop_body_inv (obj : pyval) (st st' : state) :
  body obj st = inr st' ->
  ∃ obj_content obj_size,
    measure py_repr output_format obj st = inr (obj_content, obj_size)
    ∧ st' = add obj obj_content obj_size (flushes' obj_size st).
Proof.
  unfold loop_body. destruct (measure _ _ obj st) as [e|[obj_content obj_size]]; simpl; [done|].
  intros [= <-]. eauto.
Qed.

Lemma for_each_invariant (I : list pyval -> state -> Prop) :
  (∀ seen st obj st', I seen st -> body obj st = inr st' -> I (seen ++ [obj]) st') ->
  ∀ records seen st0 st r,
    I seen st0 -> loop records st0 = (st, r) ->
    ∃ consumed, I (seen ++ consumed) st ∧ consumed `prefix_of` records
                ∧ (r = None -> consumed = records)
                ∧ (∀ e, r = Some e -> ∃ obj, (consumed ++ [obj]) `prefix_of` records
                                             ∧ body obj st = inl e).
Proof.
  intros Hstep. induction records as [|obj rest IH]; intros seen st0 st r H0; simpl.
  - intros [= <- <-]. exists []. rewrite app_nil_r. by repeat split.
  - destruct (body obj st0) as [e|st1] eqn:Hb.
    + intros [= <- <-]. exists []. rewrite app_nil_r. repeat split; try done.
      * apply prefix_nil.
      * intros e' [= <-]. exists obj. split; [|done]. by apply prefix_cons, prefix_nil.
    + intros Hl. eapply IH in Hl as (consumed & HI & Hp & Hn & He); [|by eapply Hstep].
      exists (obj :: consumed). rewrite <- app_assoc in HI. repeat split; try done.
      * by apply prefix_cons.
      * intros ->. by rewrite Hn.
      * intros e Hr. destruct (He e Hr) as (o & Hpo & Hbo). exists o. split; [|done].
        by apply (prefix_cons obj).
Qed.

Lemma measure_inv (obj : pyval) (st : state) (obj_content : pystr) (obj_size : Z) :
  measure py_repr output_format obj st = inr (obj_content, obj_size) ->
  0 <= obj_size
  ∧ if md
    then obj_to_md py_repr obj = inr obj_content
         ∧ obj_size = utf8_len obj_content
                      + (if bool_decide (current_md_blocks st = []) then 0 else utf8_len sep)
    else obj_content = json_dumps obj ∧ obj_size = utf8_len obj_content.
Proof.
  unfold measure. pose proof (utf8_len_nonneg sep) as Hk.
  generalize dependent (utf8_len sep). intros k Hk. destruct md.
  - destruct (obj_to_md py_repr obj) as [e|c]; simpl; [done|].
    intros [= <- <-]. pose proof (utf8_len_nonneg c).
    split; [case_bool_decide; lia|done].
  - intros [= <- <-]. split; [apply utf8_len_nonneg|done].
Qed.

Lemma loop_inv_initial (fs : gmap pystr pystr) :
  inv [] (open_input input_path (initial_state output_dir fs)).
Proof. constructor; simpl; try done. by destruct md. Qed.

Lemma loop_inv_write_part (seen : list pyval) (st : state) :
  inv seen st -> inv seen (wp st).
Proof.
  intros [Ht Hc Hs Hu Hp Hf]. unfold write_part.
  destruct (n_of st =? 0) eqn:Hn; [by constructor|].
  apply Z.eqb_neq in Hn.
  constructor; simpl.
  - done.
  - by rewrite map_app, Hc.
  - done.
  - destruct md; destruct Hu as [Hu Hb]; (split; [|done]);
      rewrite (map_app _ (parts st)), concat_app; simpl; rewrite !app_nil_r; done.
  - apply Forall_app. split; [done|]. constructor; [|done].
    split; [done|]. split; [apply posixpath_facts.abspath_idem|].
    simpl. unfold n_current in *.
    destruct md; destruct Hu as [Hu Hb]; by rewrite ?Hb in *.
  - apply Forall_app. split.
    + eapply Forall_impl; [exact Hf|]. intros p Hp'. simpl in *.
      by apply lookup_insert_is_Some'; right.
    + constructor; [|done]. simpl. by rewrite lookup_insert_eq.
Qed.

Lemma loop_inv_flushes (seen : list pyval) (obj_size : Z) (st : state) :
  inv seen st -> inv seen (flushes' obj_size st).
Proof.
  intros H. destruct (flushes_cases obj_size st) as [[-> _]|[-> _]]; [done|].
  by apply loop_inv_write_part.
Qed.

Lemma loop_inv_step (seen : list pyval) (st : state) (obj : pyval) (st' : state) :
  inv seen st -> body obj st = inr st' -> inv (seen ++ [obj]) st'.
Proof.
  intros H (c & sz & Hm & ->)%loop_body_inv.
  apply measure_inv in Hm as [Hsz Hm].
  apply (loop_inv_flushes _ sz) in H. destruct H as [Ht Hc Hs Hu Hp Hf].
  constructor; simpl; try done.
  - rewrite Ht, length_app. simpl. lia.
  - lia.
  - destruct md; destruct Hu as [Hu Hb]; destruct Hm as [Hm _].
    + split; [|done]. rewrite app_assoc, map_app, (map_app _ seen), Hu. simpl. by rewrite Hm.
    + split; [|done]. by rewrite app_assoc, Hu.
Qed.

(** *** The count limit *)

Lemma n_current_append (obj : pyval) (c : pystr) (sz : Z) (st : state) :
  n_of (add obj c sz st) = n_of st + 1.
Proof.
  unfold n_current, append_unit. simpl. destruct md; rewrite length_app; simpl; lia.
Qed.

Lemma parts_append (obj : pyval) (c : pystr) (sz : Z) (st : state) :
  parts (add obj c sz st) = parts st.
Proof. done. Qed.

Lemma parts_write_part (st : state) :
  n_of st ≠ 0 -> ∃ p, parts (wp st) = parts st ++ [p] ∧ part_count p = n_of st
                      ∧ part_md_blocks p = current_md_blocks st
                      ∧ part_objects p = current_objects st.
Proof.
  intros H. unfold write_part. rewrite (proj2 (Z.eqb_neq _ _) H). simpl. eauto.
Qed.

Lemma n_current_nonneg (st : state) : 0 <= n_of st.
Proof. unfold n_current. destruct md; lia. Qed.

Lemma count_reached_false (C : Z) (st : state) :
  max_objects_per_file = Some C -> C ≠ 0 -> count_reached' st = false -> n_of st < C.
Proof.
  unfold count_reached, limit_and. intros -> HC.
  rewrite (proj2 (Z.eqb_neq _ _) HC). simpl. intros H%Z.leb_gt. done.
Qed.

Lemma count_reached_true (C : Z) (st : state) :
  max_objects_per_file = Some C -> count_reached' st = true -> C <= n_of st.
Proof.
  unfold count_reached, limit_and. intros ->.
  intros [_ H%Z.leb_le]%andb_true_iff. done.
Qed.

Lemma count_inv_write_part (C : Z) (st : state) :
  cinv C st -> cinv C (wp st).
Proof.
  intros [Hn Hp]. destruct (decide (n_of st = 0)) as [H0|H0].
  { by rewrite write_part_empty. }
  destruct (parts_write_part st H0) as (p & Hps & Hc & _).
  pose proof (n_current_nonneg st).
  split; [rewrite n_current_write_part; lia|].
  rewrite Hps. apply Forall_app. split; [done|]. constructor; [lia|done].
Qed.

Lemma count_inv_step (C : Z) (st st' : state) (obj : pyval) :
  max_objects_per_file = Some C -> 0 < C ->
  cinv C st -> body obj st = inr st' -> cinv C st'.
Proof.
  intros HC Hpos Hinv (c & sz & _ & ->)%loop_body_inv.
  unfold count_inv in *. rewrite n_current_append, parts_append.
  destruct (flushes_cases sz st) as [[-> Hno]|[-> [Hn _]]].
  - destruct Hinv as [Hn Hp]. split; [|done].
    destruct Hno as [H0|(_ & _ & H3)]; [lia|].
    apply (count_reached_false C) in H3; [lia|done|lia].
  - apply count_inv_write_part in Hinv as [_ Hp]. split; [|done].
    rewrite n_current_write_part. lia.
Qed.

Lemma part_total_app (ps qs : list part) : part_total (ps ++ qs) = part_total ps + part_total qs.
Proof. induction ps as [|p ps IH]; simpl; [done|]. unfold part_total in *. simpl. lia. Qed.

Lemma part_total_units (ps : list part) :
  Forall ok ps ->
  part_total ps = if md then Z.of_nat (length (concat (map part_md_blocks ps)))
                  else Z.of_nat (length (concat (map part_objects ps))).
Proof.
  induction 1 as [|p ps (_ & _ & Hp) _ IH]; [by destruct md|].
  change (part_total (p :: ps)) with (part_count p + part_total ps). rewrite IH.
  simpl. destruct md; destruct Hp as (-> & _); rewrite length_app; lia.
Qed.

Lemma loop_inv_total (seen : list pyval) (st : state) :
  inv seen st -> part_total (parts st) + n_of st = Z.of_nat (length seen).
Proof.
  intros [_ _ _ Hu Hp _]. rewrite (part_total_units _ Hp). unfold n_current.
  destruct md; destruct Hu as [Hu Hb].
  - apply (f_equal length) in Hu. rewrite !length_map, length_app in Hu. lia.
  - apply (f_equal length) in Hu. rewrite length_app in Hu. lia.
Qed.

Lemma part_total_bound (C : Z) (ps : list part) :
  Forall (fun p => part_count p <= C) ps -> part_total ps <= C * Z.of_nat (length ps).
Proof.
  induction 1 as [|p ps Hp _ IH]; [simpl; lia|].
  change (part_total (p :: ps)) with (part_count p + part_total ps).
  rewrite length_cons. lia.
Qed.

Lemma part_total_full (C : Z) (ps : list part) :
  Forall (fun p => part_count p = C) ps -> part_total ps = C * Z.of_nat (length ps).
Proof.
  induction 1 as [|p ps Hp _ IH]; [simpl; lia|].
  change (part_total (p :: ps)) with (part_count p + part_total ps).
  rewrite length_cons. lia.
Qed.

(** *** The count limit alone *)

Lemma no_size_limit (st : state) (sz : Z) :
  msb = None -> size_reached' st = false ∧ no_room_for' sz st = false.
Proof. unfold size_reached, no_room_for. by intros ->. Qed.

Lemma chunk_inv_step (C : Z) (st st' : state) (obj : pyval) :
  msb = None -> max_objects_per_file = Some C -> 0 < C ->
  chunk C st -> body obj st = inr st' -> chunk C st'.
Proof.
  intros Hmsb HC Hpos (Hp & Hn & H1) (c & sz & _ & ->)%loop_body_inv.
  unfold chunk_inv. rewrite n_current_append, parts_append.
  pose proof (n_current_nonneg st) as H0.
  destruct (no_size_limit st sz Hmsb) as [Hs1 Hs2].
  destruct (flushes_cases sz st) as [[-> Hno]|[-> (Hne & Hyes)]].
  - split; [done|]. split; [|lia].
    destruct Hno as [?|(_ & _ & H3)]; [lia|].
    apply (count_reached_false C) in H3; [lia|done|lia].
  - destruct Hyes as [?|[?|H3]]; [congruence..|].
    apply (count_reached_true C) in H3; [|done].
    destruct (parts_write_part st Hne) as (p & -> & Hc & _).
    rewrite n_current_write_part. split; [|lia].
    apply Forall_app. split; [done|]. constructor; [lia|done].
Qed.

(** *** The byte limit in Markdown mode *)

Lemma no_room_for_false (B sz : Z) (st : state) :
  msb = Some B -> B ≠ 0 -> n_of st ≠ 0 -> no_room_for' sz st = false ->
  current_size st + sz <= B.
Proof.
  unfold no_room_for, limit_and. intros -> HB Hn.
  rewrite (proj2 (Z.eqb_neq _ _) HB), (proj2 (Z.eqb_neq _ _) Hn). simpl.
  intros H%Z.ltb_ge. done.
Qed.

Lemma size_inv_write_part (B : Z) (st : state) :
  md = true -> sinv B st -> sinv B (wp st).
Proof.
  intros Hmd (Ht & Hn & Hp). destruct (decide (n_of st = 0)) as [H0|H0].
  { by rewrite write_part_empty. }
  unfold size_inv. rewrite n_current_write_part.
  unfold write_part. rewrite (proj2 (Z.eqb_neq _ _) H0). simpl.
  split; [done|]. split; [lia|].
  apply Forall_app. split; [done|]. constructor; [|done].
  unfold within_limit. simpl. rewrite Hmd.
  unfold n_current in Hn, H0. rewrite Hmd in Hn, H0.
  destruct (current_md_blocks st) as [|a [|b l]] eqn:Hb; [done| |].
  - simpl. destruct (decide (utf8_len a <= B)); [by left|right]. exists a. split; [done|lia].
  - left. rewrite <- Hb in *. etrans; [exact Ht|]. apply Hn. rewrite Hb. simpl. lia.
Qed.

Lemma size_inv_step (B : Z) (st st' : state) (obj : pyval) :
  md = true -> msb = Some B -> B ≠ 0 -> 0 <= current_size st ->
  sinv B st -> body obj st = inr st' -> sinv B st'.
Proof.
  intros Hmd HB HB0 Hsz Hinv (c & sz & Hm & ->)%loop_body_inv.
  apply measure_inv in Hm as [Hsz0 Hm]. rewrite Hmd in Hm. destruct Hm as [_ ->].
  assert (utf8_len sep = 5) as Hsep by done. rewrite Hsep in *.
  unfold size_inv. rewrite n_current_append, parts_append.
  destruct (flushes_cases
              (utf8_len c + (if bool_decide (current_md_blocks st = []) then 0 else 5)) st)
    as [[-> Hno]|[-> (Hne & _)]].
  - destruct Hinv as (Ht & Hn & Hp). simpl. rewrite Hmd.
    split; [|split; [|done]].
    + rewrite str_join_snoc. destruct (current_md_blocks st) as [|a l] eqn:Hb.
      * rewrite bool_decide_eq_true_2 by done. lia.
      * rewrite bool_decide_eq_false_2 by done. rewrite <- Hb in *.
        rewrite !utf8_len_app. fold sep. rewrite Hsep. lia.
    + intros H2. assert (n_of st ≠ 0) as Hn0 by lia.
      destruct Hno as [?|(_ & H & _)]; [done|].
      by apply (no_room_for_false B) in H.
  - apply (size_inv_write_part B st Hmd) in Hinv as (_ & _ & Hp).
    pose proof (n_current_write_part st) as Hn0.
    rewrite Hn0. split; [|split; [lia|done]].
    unfold write_part. rewrite (proj2 (Z.eqb_neq _ _) Hne). simpl. rewrite Hmd. simpl.
    case_bool_decide; lia.
Qed.

(** *** The run as a whole *)

Lemma final_flush (st : state) :
  (if negb (bool_decide (current_objects st = []))
      || negb (bool_decide (current_md_blocks st = []))
   then wp st else st) = wp st.
Proof.
  destruct (bool_decide (current_objects st = [])) eqn:H1; [|done].
  destruct (bool_decide (current_md_blocks st = [])) eqn:H2; [|done].
  apply bool_decide_eq_true in H1, H2. simpl. symmetry. apply write_part_empty.
  unfold n_current. rewrite H1, H2. by destruct md.
Qed.

Lemma split_json_no_limit (records : list pyval) (fs : gmap pystr pystr) :
  max_file_size_mb = None -> max_objects_per_file = None ->
  run records fs = (initial_state output_dir fs, inl (ValueError no_limit_message)).
Proof. intros -> ->. done. Qed.

Lemma split_json_limit (records : list pyval) (fs : gmap pystr pystr) :
  max_file_size_mb ≠ None ∨ max_objects_per_file ≠ None ->
  run records fs
  = match loop records (open_input input_path (initial_state output_dir fs)) with
    | (st, Some e) => (st, inl e)
    | (st, None) =>
        match add_report cwd output_format (wp st) with
        | (st', Some e) => (st', inl e)
        | (st', None) => (st', inr (created_files st'))
        end
    end.
Proof.
  intros H. unfold split_json.
  assert (bool_decide (max_file_size_mb = None) && bool_decide (max_objects_per_file = None)
          = false) as ->.
  { apply andb_false_iff. destruct H; [left|right]; by apply bool_decide_eq_false. }
  destruct (loop records _) as [st [e|]]; [done|]. by rewrite final_flush.
Qed.

Lemma body_raises (obj : pyval) (st : state) (e : exn) :
  body obj st = inl e -> md = true ∧ obj_to_md py_repr obj = inl e.
Proof.
  unfold loop_body, measure. destruct md; [|done].
  destruct (obj_to_md py_repr obj) as [e'|c]; simpl; [|done]. by intros [= ->].
Qed.

Lemma loop_result (records : list pyval) (fs : gmap pystr pystr) :
  ∃ st r consumed,
    loop records (open_input input_path (initial_state output_dir fs)) = (st, r)
    ∧ inv consumed st
    ∧ consumed `prefix_of` records
    ∧ (r = None -> consumed = records)
    ∧ (∀ e, r = Some e -> md = true ∧ ∃ obj, obj ∈ records ∧ obj_to_md py_repr obj = inl e).
Proof.
  destruct (loop records _) as [st r] eqn:Hl. exists st, r.
  eapply (for_each_invariant inv loop_inv_step _ []) in Hl
    as (consumed & Hi & Hp & Hn & He); [|apply loop_inv_initial].
  exists consumed. split; [done|]. split; [done|]. split; [done|]. split; [done|].
  intros e Hr. destruct (He e Hr) as (obj & [k Hk] & [Hmd Hobj]%body_raises).
  split; [done|]. exists obj. split; [|done]. rewrite Hk.
    apply elem_of_app; left. apply elem_of_app; right. by left.
Qed.

Lemma add_report_parts (st : state) :
  parts (fst (add_report cwd output_format st)) = parts st
  ∧ created_files (fst (add_report cwd output_format st)) = created_files st
  ∧ total_read (fst (add_report cwd output_format st)) = total_read st.
Proof.
  unfold add_report. destruct (created_files st) as [|first_path rest] eqn:E;
    [simpl; by rewrite ?E|].
  destruct md; [|simpl; by rewrite ?E].
  destruct (files st !! resolve cwd first_path); simpl; by rewrite ?E.
Qed.

Lemma add_report_json (st : state) :
  md = false -> add_report cwd output_format st = (st, None).
Proof. unfold add_report. intros ->. by destruct (created_files st). Qed.

Lemma add_report_md (consumed : list pyval) (st : state) :
  md = true -> inv consumed st ->
  match parts st with
  | [] => add_report cwd output_format st = (st, None)
  | p :: _ =>
      ∃ st' text,
        add_report cwd output_format st = (st', None)
        ∧ files st !! part_path p = Some text
        ∧ files st' !! part_path p
          = Some (report_line (Z.of_nat (length consumed)) ++ sep ++ copy_lines text)
  end.
Proof.
  intros Hmd [Ht Hc _ _ Hp Hf]. unfold add_report. rewrite Hc, Hmd.
  destruct (parts st) as [|p ps]; [done|]. simpl.
  inversion Hp as [|? ? (_ & Hres & _) _]; subst.
  inversion Hf as [|? ? [text Htext] _]; subst.
  rewrite Hres, Htext, Ht. eexists _, text. split; [done|]. split; [done|].
  simpl. by rewrite lookup_insert_eq.
Qed.

(** *** Two runs that differ in the files they find *)

Lemma agree_n_current (st1 st2 : state) : agree st1 st2 -> n_of st1 = n_of st2.
Proof. intros (_ & Ho & Hb & _). unfold n_current. by rewrite Ho, Hb. Qed.

Lemma agree_write_part (st1 st2 : state) : agree st1 st2 -> agree (wp st1) (wp st2).
Proof.
  intros H. pose proof (agree_n_current _ _ H) as Hn.
  unfold write_part. rewrite <- Hn. destruct (n_of st1 =? 0); [done|].
  destruct H as (Hc & Ho & Hb & Hs & Hi & Ht & Htr & Hp & Hf).
  unfold agree. simpl. rewrite Hc, Ho, Hb, Hi, Ht, Htr, Hp.
  repeat (split; [done|]).
  intros p [Hin|Heq%list_elem_of_singleton]%elem_of_app; [|subst p].
  - match goal with
    | |- <[?k := _]> _ !! p = _ => destruct (decide (k = p)) as [->|Hne]
    end.
    + by rewrite !lookup_insert_eq.
    + rewrite !lookup_insert_ne by done. apply Hf. by rewrite Hc.
  - by rewrite !lookup_insert_eq.
Qed.

Lemma agree_flushes (sz : Z) (st1 st2 : state) :
  agree st1 st2 -> agree (flushes' sz st1) (flushes' sz st2).
Proof.
  intros H. unfold flushes.
  assert (Hfull : agree (full st1) (full st2)).
  { unfold flush_if_full, size_reached.
    pose proof H as (? & ? & ? & Hs & ?). rewrite Hs.
    destruct (limit_and msb _); [by apply agree_write_part|done]. }
  assert (Hroom : agree (no_room sz (full st1)) (no_room sz (full st2))).
  { unfold flush_if_no_room, no_room_for.
    rewrite (agree_n_current _ _ Hfull).
    pose proof Hfull as (? & ? & ? & Hs & ?). rewrite Hs.
    destruct (limit_and msb _); [by apply agree_write_part|done]. }
  unfold flush_if_count, count_reached. rewrite (agree_n_current _ _ Hroom).
  destruct (limit_and max_objects_per_file _); [by apply agree_write_part|done].
Qed.

Lemma agree_measure (obj : pyval) (st1 st2 : state) :
  agree st1 st2 -> measure py_repr output_format obj st1 = measure py_repr output_format obj st2.
Proof. intros (_ & _ & Hb & _). unfold measure. by rewrite Hb. Qed.

Lemma agree_append (obj : pyval) (c : pystr) (sz : Z) (st1 st2 : state) :
  agree st1 st2 -> agree (add obj c sz st1) (add obj c sz st2).
Proof.
  intros (Hc & Ho & Hb & Hs & Hi & Ht & Htr & Hp & Hf).
  unfold agree, append_unit. simpl. rewrite Ho, Hb, Hs, Ht. by repeat split.
Qed.

Lemma agree_loop (records : list pyval) (st1 st2 : state) :
  agree st1 st2 ->
  snd (loop records st1) = snd (loop records st2)
  ∧ agree (fst (loop records st1)) (fst (loop records st2)).
Proof.
  revert st1 st2. induction records as [|obj rest IH]; intros st1 st2 H; [done|].
  simpl. unfold loop_body. rewrite <- (agree_measure obj _ _ H).
  destruct (measure py_repr output_format obj st1) as [e|[c sz]]; simpl; [done|].
  apply IH. by apply agree_append, agree_flushes.
Qed.

Lemma agree_add_report (consumed : list pyval) (st1 st2 : state) :
  inv consumed st1 -> agree st1 st2 ->
  snd (add_report cwd output_format st1) = snd (add_report cwd output_format st2)
  ∧ agree (fst (add_report cwd output_format st1)) (fst (add_report cwd output_format st2)).
Proof.
  intros [_ Hcat _ _ Hok _] H.
  pose proof H as (Hc & Ho & Hb & Hs & Hi & Ht & Htr & Hp & Hf).
  unfold add_report. rewrite <- Hc.
  destruct (created_files st1) as [|first_path rest] eqn:Hcf; [done|].
  destruct md; [|done].
  assert (Hres : resolve cwd first_path = first_path).
  { rewrite ?Hcf in Hcat. destruct (parts st1) as [|p ps]; [done|].
    injection Hcat as -> _. by inversion Hok as [|? ? (_ & ? & _) _]. }
  rewrite Hres, <- (Hf first_path) by left.
  destruct (files st1 !! first_path) as [text|]; [|done].
  simpl. split; [done|]. unfold agree. simpl. rewrite ?Hcf, Ho, Hb, Hs, Hi, Ht, Htr, Hp.
  repeat (split; [done|]).
  intros p Hin.
  destruct (decide (first_path = p)) as [->|Hne]; [by rewrite !lookup_insert_eq|].
  rewrite !lookup_insert_ne by done.
  destruct (decide (resolve cwd (first_path ++ u ".tmp") = p)) as [->|Hne'].
  - by rewrite !lookup_delete_eq.
  - rewrite !lookup_delete_ne, !lookup_insert_ne by done. by apply Hf.
Qed.

Lemma split_json_agree (records : list pyval) (fs1 fs2 : gmap pystr pystr) :
  snd (run records fs1) = snd (run records fs2)
  ∧ agree (fst (run records fs1)) (fst (run records fs2)).
Proof.
  destruct (decide (max_file_size_mb = None ∧ max_objects_per_file = None)) as [[H1 H2]|Hl].
  { rewrite !split_json_no_limit by done. simpl. split; [done|].
    unfold agree. simpl. repeat (split; [done|]). by intros p ?%elem_of_nil. }
  assert (max_file_size_mb ≠ None ∨ max_objects_per_file ≠ None) as Hlim.
  { destruct max_file_size_mb; [by left|]. destruct max_objects_per_file; [by right|].
    by destruct Hl. }
  rewrite !split_json_limit by done.
  destruct (loop_result records fs1) as (st1 & r1 & consumed & Hl1 & Hinv & _).
  assert (Hinit : agree (open_input input_path (initial_state output_dir fs1))
                        (open_input input_path (initial_state output_dir fs2))).
  { unfold agree. simpl. repeat (split; [done|]). by intros p ?%elem_of_nil. }
  destruct (agree_loop records _ _ Hinit) as [Hr Hst]. rewrite Hl1 in Hr, Hst |- *.
  destruct (loop records (open_input input_path (initial_state output_dir fs2)))
    as [st2 r2]. simpl in Hr, Hst. subst r2.
  destruct r1 as [e|]; [done|].
  apply agree_write_part in Hst. apply loop_inv_write_part in Hinv.
  destruct (agree_add_report _ _ _ Hinv Hst) as [Hr' Hst'].
  destruct (add_report cwd output_format (wp st1)) as [st1' r1'].
  destruct (add_report cwd output_format (wp st2)) as [st2' r2'].
  simpl in Hr', Hst'. subst r2'. destruct r1'; simpl; [done|].
  split; [|done]. f_equal. apply Hst'.
Qed.

Lemma add_report_returns (consumed : list pyval) (st : state) :
  inv consumed st -> ∃ st', add_report cwd output_format st = (st', None).
Proof.
  intros H. destruct md eqn:Hmd.
  - pose proof (add_report_md consumed st Hmd H) as Hr.
    destruct (parts st) as [|p ps]; [eauto|]. destruct Hr as (st' & text & ? & _). eauto.
  - rewrite add_report_json by done. eauto.
Qed.

(** Where a run with a limit ends: at a record that cannot be rendered,
    with the invariant [I] of the loop, or after the last flush, with what
    [I] gives once the buffer is flushed. *)
Lemma run_invariant (I : list pyval -> state -> Prop) (F : state -> Prop)
    (records : list pyval) (fs : gmap pystr pystr) :
  max_file_size_mb ≠ None ∨ max_objects_per_file ≠ None ->
  I [] (open_input input_path (initial_state output_dir fs)) ->
  (∀ seen st obj st', inv seen st -> I seen st -> body obj st = inr st' -> I (seen ++ [obj]) st') ->
  (∀ st, inv records st -> I records st -> F (wp st)) ->
  ∃ consumed st,
    inv consumed st
    ∧ parts (fst (run records fs)) = parts st
    ∧ created_files (fst (run records fs)) = created_files st
    ∧ ((∃ e obj, snd (run records fs) = inl e ∧ md = true ∧ obj ∈ records
                 ∧ obj_to_md py_repr obj = inl e ∧ I consumed st)
       ∨ (consumed = records ∧ n_of st = 0 ∧ F st
          ∧ add_report cwd output_format st = (fst (run records fs), None)
          ∧ snd (run records fs) = inr (created_files st))).
Proof.
  intros Hlim H0 Hstep Hwp. rewrite split_json_limit by done.
  destruct (loop records _) as [st r] eqn:Hl.
  assert (Hstep' : ∀ seen st obj st', inv seen st ∧ I seen st -> body obj st = inr st' ->
                     inv (seen ++ [obj]) st' ∧ I (seen ++ [obj]) st').
  { intros seen st1 obj st1' [Hi1 HI1] Hb.
    split; [by eapply loop_inv_step|by eapply Hstep]. }
  destruct (for_each_invariant (fun seen st => inv seen st ∧ I seen st) Hstep' records [] _ st r
              (conj (loop_inv_initial fs) H0) Hl)
    as (consumed & [Hinv HI] & Hp & Hn & He).
  simpl in Hinv, HI. destruct r as [e|].
  - exists consumed, st. simpl. repeat (split; [done|]). left.
    destruct (He e eq_refl) as (obj & [k Hk] & [Hmd Hobj]%body_raises).
    exists e, obj. repeat (split; [done|]). split; [|done]. rewrite Hk.
    apply elem_of_app; left. apply elem_of_app; right. by left.
  - rewrite (Hn eq_refl) in *.
    pose proof (loop_inv_write_part _ _ Hinv) as Hinv'.
    destruct (add_report_returns _ _ Hinv') as [st' Hst'].
    pose proof (add_report_parts (wp st)) as (Hp1 & Hp2 & _).
    rewrite Hst' in Hp1, Hp2 |- *. simpl in *.
    exists records, (wp st). repeat (split; [by auto|]).
    right. repeat (split; [by auto using n_current_write_part|]). by rewrite Hp2.
Qed.

Lemma all_render_no_error (records : list pyval) (obj : pyval) (e : exn) :
  all_render' records = true -> md = true -> obj ∈ records -> obj_to_md py_repr obj ≠ inl e.
Proof.
  unfold all_render. intros H Hmd Hin Hobj. rewrite Hmd in H. simpl in H.
  rewrite forallb_forall in H. apply list_elem_of_In, H in Hin.
  unfold renders in Hin. by rewrite Hobj in Hin.
Qed.

Lemma obj_to_md_exn (obj : pyval) (e : exn) :
  obj_to_md py_repr obj = inl e -> e = AttributeError ∨ e = TypeError.
Proof.
  destruct obj as [| | | | |d]; try (intros [= <-]; by left).
  rewrite obj_to_md_spec. unfold record_text_with.
  destruct (present _); [done|]. destruct (present _) as [v|]; [|done].
  destruct v; simpl; try done; intros [= <-]; by right.
Qed.

(** The only [ValueError] is the one of the missing limits. *)
Lemma value_error_iff (records : list pyval) (fs : gmap pystr pystr) :
  (∃ msg, snd (run records fs) = inl (ValueError msg))
  ↔ max_file_size_mb = None ∧ max_objects_per_file = None.
Proof.
  split.
  - intros [msg Hmsg].
    destruct (decide (max_file_size_mb = None ∧ max_objects_per_file = None)) as [|Hn];
      [done|exfalso].
    assert (max_file_size_mb ≠ None ∨ max_objects_per_file ≠ None) as Hlim.
    { destruct max_file_size_mb; [by left|]. destruct max_objects_per_file; [by right|].
      by destruct Hn. }
    destruct (run_invariant (fun _ _ => True) (fun _ => True) records fs Hlim)
      as (consumed & st & _ & _ & _ & [(e & obj & He & _ & _ & Hobj & _)|(_ & _ & _ & _ & Hs)]);
      try done.
    + rewrite He in Hmsg. injection Hmsg as ->.
      by apply obj_to_md_exn in Hobj as [?|?].
    + by rewrite Hs in Hmsg.
  - intros [H1 H2]. rewrite split_json_no_limit by done. by eexists.
Qed.

Lemma part_units_count (ps : list part) :
  Forall ok ps -> map units ps = map part_count ps.
Proof.
  induction 1 as [|p ps (_ & _ & Hp) _ IH]; [done|]. simpl. rewrite IH. f_equal.
  unfold part_units. by destruct md; destruct Hp as (-> & _).
Qed.

Lemma ceil_div_bound (C N len : Z) : 0 < C -> N <= C * len -> ceil_div N C <= len.
Proof.
  intros HC HN. unfold ceil_div.
  assert ((N + C - 1) / C < len + 1); [|lia]. apply Z.div_lt_upper_bound; lia.
Qed.

Lemma map_part_count_full (C : Z) (ps : list part) :
  Forall (fun p => part_count p = C) ps -> map part_count ps = repeat C (length ps).
Proof. induction 1 as [|p ps Hp _ IH]; [done|]. simpl. by rewrite Hp, IH. Qed.

Lemma chunk_sizes_spec (C len n : Z) :
  0 < C -> 0 <= len -> 0 <= n <= C -> (len ≠ 0 -> 1 <= n) ->
  chunk_sizes C (C * len + n)
  = repeat C (Z.to_nat len) ++ (if n =? 0 then [] else [n]).
Proof.
  intros HC Hlen Hn H1. unfold chunk_sizes.
  destruct (decide (n = C)) as [->|Hne].
  - replace (C * len + C) with ((len + 1) * C) by lia.
    rewrite Z.div_mul, Z.mod_mul by lia. simpl.
    rewrite (proj2 (Z.eqb_neq C 0)) by lia.
    rewrite Z2Nat.inj_add by lia. rewrite repeat_app. simpl. by rewrite app_nil_r.
  - assert (0 <= n < C) as Hn' by lia.
    replace (C * len + n) with (n + len * C) by lia.
    rewrite Z.div_add, Z.mod_add by lia.
    rewrite Z.div_small, Z.mod_small by lia. simpl. done.
Qed.

Lemma ceil_div_chunks (C N : Z) :
  0 < C -> 0 <= N -> Z.of_nat (length (chunk_sizes C N)) = ceil_div N C.
Proof.
  intros HC HN. unfold chunk_sizes, ceil_div.
  rewrite length_app, repeat_length.
  pose proof (Z.div_mod N C ltac:(lia)) as Hdm.
  pose proof (Z.mod_pos_bound N C HC) as Hm.
  pose proof (Z.div_pos N C HN HC) as Hd.
  rewrite Nat2Z.inj_add, Z2Nat.id by lia.
  destruct (N mod C =? 0) eqn:E.
  - apply Z.eqb_eq in E. simpl.
    apply Z.div_unique with (r := C - 1); lia.
  - apply Z.eqb_neq in E. simpl.
    apply Z.div_unique with (r := N mod C - 1); lia.
Qed.

(** *** What the invariants give for a run *)

Lemma limit_present_count (C : Z) :
  max_objects_per_file = Some C -> max_file_size_mb ≠ None ∨ max_objects_per_file ≠ None.
Proof. intros ->. by right. Qed.

Lemma ok_units (p : part) : ok p -> units p = part_count p.
Proof. intros (_ & _ & Hp). unfold part_units. by destruct md; destruct Hp as (-> & _). Qed.

Lemma run_completes (records : list pyval) (fs : gmap pystr pystr) :
  max_file_size_mb ≠ None ∨ max_objects_per_file ≠ None ->
  all_render' records = true ->
  ∃ st, inv records st ∧ n_of st = 0
        ∧ parts (fst (run records fs)) = parts st
        ∧ created_files (fst (run records fs)) = created_files st
        ∧ add_report cwd output_format st = (fst (run records fs), None)
        ∧ snd (run records fs) = inr (created_files st).
Proof.
  intros Hlim Hr.
  destruct (run_invariant (fun _ _ => True) (fun _ => True) records fs) as
    (consumed & st & Hinv & Hp & Hc & [(e & obj & _ & Hmd & Hin & Hobj & _)|(-> & Hn & _ & Ha & Hs)]);
    try done.
  - by apply (all_render_no_error records obj e) in Hobj.
  - exists st. do 5 (split; [done|]). done.
Qed.

(** A run that returns has flushed every unit, in order. *)
Lemma run_units (records : list pyval) (fs : gmap pystr pystr) :
  max_file_size_mb ≠ None ∨ max_objects_per_file ≠ None ->
  all_render' records = true ->
  snd (run records fs) = inr (map part_path (parts (fst (run records fs))))
  ∧ Forall ok (parts (fst (run records fs)))
  ∧ if md
    then map inr (concat (map part_md_blocks (parts (fst (run records fs)))))
         = map (obj_to_md py_repr) records
    else concat (map part_objects (parts (fst (run records fs)))) = records.
Proof.
  intros Hlim Hr.
  destruct (run_completes records fs Hlim Hr)
    as (st & [_ Hcat _ Hu Hok _] & Hn & Hp & _ & _ & Hs).
  rewrite Hs, Hp, Hcat. split; [done|]. split; [done|].
  unfold n_current in Hn. destruct md; destruct Hu as [Hu Hb].
  - destruct (current_md_blocks st); [|simpl in Hn; lia]. by rewrite app_nil_r in Hu.
  - destruct (current_objects st); [|simpl in Hn; lia]. by rewrite app_nil_r in Hu.
Qed.

Lemma run_count_limit (C : Z) (records : list pyval) (fs : gmap pystr pystr) :
  max_objects_per_file = Some C -> 0 < C ->
  Forall (fun p => units p <= C) (parts (fst (run records fs))).
Proof.
  intros HC Hpos.
  destruct (run_invariant (fun _ st => cinv C st) (cinv C) records fs) as
    (consumed & st & Hinv & -> & _ & H).
  - by eapply limit_present_count.
  - split; [|constructor]. unfold n_current. simpl. destruct md; lia.
  - intros seen st obj st' _ Hi Hb. by eapply count_inv_step.
  - intros st _ Hi. by apply count_inv_write_part.
  - assert (cinv C st) as [_ Hcount].
    { destruct H as [(e & obj & _ & _ & _ & _ & ?)|(_ & _ & ? & _)]; done. }
    pose proof (inv_parts _ _ _ _ _ Hinv) as Hok.
    rewrite Forall_forall in Hok, Hcount. apply Forall_forall. intros p Hp.
    rewrite ok_units by auto. auto.
Qed.

Lemma run_parts_lower_bound (C : Z) (records : list pyval) (fs : gmap pystr pystr) :
  max_objects_per_file = Some C -> 0 < C -> all_render' records = true ->
  ceil_div (Z.of_nat (length records)) C <= Z.of_nat (length (parts (fst (run records fs)))).
Proof.
  intros HC Hpos Hr.
  destruct (run_completes records fs) as (st & Hinv & Hn & Hp & _); [by eapply limit_present_count|done|].
  pose proof (run_count_limit C records fs HC Hpos) as Hcount. rewrite Hp in *.
  apply ceil_div_bound; [done|].
  rewrite <- (loop_inv_total _ _ Hinv), Hn, Z.add_0_r.
  apply part_total_bound.
  pose proof (inv_parts _ _ _ _ _ Hinv) as Hok.
  rewrite Forall_forall in Hok, Hcount. apply Forall_forall. intros p Hin.
  rewrite <- ok_units by auto. auto.
Qed.

Lemma run_chunks (C : Z) (records : list pyval) (fs : gmap pystr pystr) :
  msb = None -> max_objects_per_file = Some C -> 0 < C -> all_render' records = true ->
  map units (parts (fst (run records fs))) = chunk_sizes C (Z.of_nat (length records)).
Proof.
  intros Hmsb HC Hpos Hr.
  destruct (run_invariant (fun _ st => chunk C st)
              (fun st => map part_count (parts st) = chunk_sizes C (Z.of_nat (length records)))
              records fs) as
    (consumed & st & Hinv & -> & _ & [(e & obj & _ & Hmd & Hin & Hobj & _)|(-> & _ & HF & _)]).
  - by eapply limit_present_count.
  - unfold chunk_inv. simpl. split; [constructor|]. split; [|done].
    unfold n_current. simpl. destruct md; lia.
  - intros seen st obj st' _ Hi Hb. by eapply chunk_inv_step.
  - intros st Hinv (Hfull & Hle & H1).
    pose proof (loop_inv_total _ _ Hinv) as Htot.
    rewrite (part_total_full C) in Htot by done. rewrite <- Htot.
    pose proof (n_current_nonneg st) as H0.
    rewrite chunk_sizes_spec; [|lia|lia|lia|].
    2:{ intros Hl. apply H1. intros E. by rewrite E in Hl. }
    rewrite Nat2Z.id. destruct (decide (n_of st = 0)) as [Hz|Hnz].
    + rewrite write_part_empty, Hz by done. simpl. rewrite app_nil_r.
      by apply map_part_count_full.
    + destruct (parts_write_part st Hnz) as (p & -> & Hcp & _).
      rewrite map_app, (map_part_count_full C) by done. simpl.
      by rewrite Hcp, (proj2 (Z.eqb_neq _ _) Hnz).
  - by apply (all_render_no_error records obj e) in Hobj.
  - rewrite part_units_count; [done|]. by destruct Hinv.
Qed.

Lemma run_md_size (B : Z) (records : list pyval) (fs : gmap pystr pystr) :
  md = true -> msb = Some B -> B ≠ 0 ->
  Forall (within_limit B) (parts (fst (run records fs))).
Proof.
  intros Hmd HB HB0.
  destruct (run_invariant (fun _ st => sinv B st) (sinv B) records fs) as
    (consumed & st & Hinv & -> & _ & H).
  - left. intros E. unfold max_size_bytes in HB. by rewrite E in HB.
  - unfold size_inv. simpl. split; [done|]. split; [|constructor].
    unfold n_current. simpl. destruct md; lia.
  - intros seen st obj st' Hi Hs Hb. eapply size_inv_step; try done. by destruct Hi.
  - intros st _ Hs. by apply size_inv_write_part.
  - assert (sinv B st) as (_ & _ & Hp); [|done].
    destruct H as [(e & obj & _ & _ & _ & _ & ?)|(_ & _ & ? & _)]; done.
Qed.

Lemma no_flush (sz : Z) (st : state) :
  msb = None -> max_objects_per_file = None ∨ max_objects_per_file = Some 0 ->
  flushes' sz st = st.
Proof.
  intros Hmsb Hc. destruct (no_size_limit st sz Hmsb) as [H1 H2].
  destruct (flushes_cases sz st) as [[-> _]|(_ & _ & [?|[?|H3]])]; [done|congruence..|].
  unfold count_reached in H3. by destruct Hc as [-> | ->].
Qed.

Lemma run_single_part (records : list pyval) (fs : gmap pystr pystr) :
  msb = None -> max_objects_per_file = None ∨ max_objects_per_file = Some 0 ->
  max_file_size_mb ≠ None ∨ max_objects_per_file ≠ None ->
  all_render' records = true ->
  length (parts (fst (run records fs))) = (if bool_decide (records = []) then 0 else 1)%nat.
Proof.
  intros Hmsb Hc Hlim Hr.
  destruct (run_invariant (fun _ st => parts st = [])
              (fun st => length (parts st)
                         = (if bool_decide (records = []) then 0 else 1)%nat)
              records fs) as
    (consumed & st & Hinv & -> & _ & [(e & obj & _ & Hmd & Hin & Hobj & _)|(-> & _ & HF & _)]);
    try done.
  - intros seen st obj st' _ Hp (c & sz & _ & ->)%loop_body_inv.
    rewrite parts_append. by rewrite no_flush.
  - intros st Hinv Hp. pose proof (loop_inv_total _ _ Hinv) as Htot.
    rewrite Hp in Htot. simpl in Htot.
    destruct (decide (n_of st = 0)) as [Hz|Hnz].
    + rewrite write_part_empty, Hp by done.
      rewrite bool_decide_eq_true_2; [done|]. destruct records; [done|simpl in Htot; lia].
    + destruct (parts_write_part st Hnz) as (p & -> & _). rewrite Hp.
      rewrite bool_decide_eq_false_2; [done|]. intros ->. simpl in Htot. lia.
  - by apply (all_render_no_error records obj e) in Hobj.
Qed.

End EngineFacts.

Section JsonSize.

Variable py_repr : pyval -> pystr.
Variable cwd : pystr.
Variables input_path output_dir output_prefix : pystr.
Variable max_file_size_mb : option Q.
Variable max_objects_per_file : option Z.
Variable output_format : pystr.

Abbreviation md := (is_md output_format).
Abbreviation n_of := (n_current output_format).
Abbreviation msb := (max_size_bytes max_file_size_mb).
Abbreviation wp := (write_part cwd output_dir output_prefix output_format).
Abbreviation body := (loop_body py_repr cwd output_dir output_prefix max_file_size_mb
                    max_objects_per_file output_format).
Abbreviation run := (split_json py_repr cwd input_path output_dir output_prefix max_file_size_mb
                   max_objects_per_file output_format).
Abbreviation jinv := (json_size_inv output_format).

Lemma units_size_app (a b : list pyval) : units_size (a ++ b) = units_size a + units_size b.
Proof. induction a as [|x a IH]; [done|]. unfold units_size in *. simpl. lia. Qed.

Lemma units_size_nonneg (a : list pyval) : 0 <= units_size a.
Proof.
  induction a as [|x a IH]; [done|]. unfold units_size in *. simpl.
  pose proof (utf8_len_nonneg (json_dumps x)). lia.
Qed.

Lemma utf8_len_str_join (sp : pystr) (l : list pystr) :
  l ≠ [] ->
  utf8_len (str_join sp l)
  = fold_right (fun s acc => utf8_len s + acc) 0 l
    + (Z.of_nat (length l) - 1) * utf8_len sp.
Proof.
  induction l as [|a l IH]; [done|]. intros _.
  destruct l as [|b l]; [simpl; lia|].
  change (str_join sp (a :: b :: l)) with (a ++ sp ++ str_join sp (b :: l)).
  rewrite !utf8_len_app, IH by done.
  change (fold_right _ 0 (a :: b :: l))
    with (utf8_len a + fold_right (fun s acc => utf8_len s + acc) 0 (b :: l)).
  rewrite (length_cons a). lia.
Qed.

(** The array that [json.dump] writes has one byte more than its records
    for each of them (a comma or a bracket), and one more. *)
Lemma json_dump_list_size (objs : list pyval) :
  objs ≠ [] ->
  utf8_len (json_dump_list objs) = units_size objs + Z.of_nat (length objs) + 1.
Proof.
  intros Hne. unfold json_dump_list, json_dumps.
  change (json_dumps_with (u ",") (u ":") (PList objs))
    with ([91%N] ++ str_join (u ",") (map (json_dumps_with (u ",") (u ":")) objs) ++ [93%N]).
  rewrite !utf8_len_app, utf8_len_str_join by by destruct objs.
  rewrite length_map.
  assert (fold_right (fun s acc => utf8_len s + acc) 0
            (map (json_dumps_with (u ",") (u ":")) objs) = units_size objs) as ->.
  { clear Hne. induction objs as [|x objs IH]; [done|]. simpl. rewrite IH. done. }
  change (utf8_len [91%N]) with 1. change (utf8_len [93%N]) with 1.
  change (utf8_len (u ",")) with 1. lia.
Qed.

Lemma json_size_inv_write_part (B : Z) (st : state) :
  md = false -> jinv B st -> jinv B (wp st).
Proof.
  intros Hmd (Ht & Hn & Hp). destruct (decide (n_of st = 0)) as [H0|H0].
  { by rewrite write_part_empty. }
  unfold json_size_inv. rewrite n_current_write_part.
  unfold write_part. rewrite (proj2 (Z.eqb_neq _ _) H0). simpl.
  split; [done|]. split; [lia|].
  apply Forall_app. split; [done|]. constructor; [|done].
  unfold json_within_limit. simpl.
  unfold n_current in Hn, H0. rewrite Hmd in Hn, H0.
  destruct (current_objects st) as [|a [|b l]] eqn:Hb; [done| |].
  - destruct (decide (utf8_len (json_dumps a) <= B)).
    + left. unfold units_size. simpl. lia.
    + right. exists a. split; [done|lia].
  - left. rewrite <- Ht. apply Hn. simpl. lia.
Qed.

Lemma json_size_inv_step (B : Z) (st st' : state) (obj : pyval) :
  md = false -> msb = Some B -> B ≠ 0 ->
  jinv B st -> body obj st = inr st' -> jinv B st'.
Proof.
  intros Hmd HB HB0 Hinv (c & sz & Hm & ->)%loop_body_inv.
  apply measure_inv in Hm as [Hsz0 Hm]. rewrite Hmd in Hm. destruct Hm as [-> ->].
  unfold json_size_inv. rewrite n_current_append, parts_append.
  destruct (flushes_cases cwd output_dir output_prefix max_file_size_mb max_objects_per_file
              output_format (utf8_len (json_dumps obj)) st)
    as [[-> Hno]|[-> (Hne & _)]].
  - destruct Hinv as (Ht & Hn & Hp). simpl. rewrite Hmd.
    split; [|split; [|done]].
    + rewrite units_size_app, Ht. unfold units_size. simpl. lia.
    + intros H2. assert (n_of st ≠ 0) as Hn0 by lia.
      destruct Hno as [?|(_ & H & _)]; [done|].
      by apply (no_room_for_false _ _ B) in H.
  - apply (json_size_inv_write_part B st Hmd) in Hinv as (_ & _ & Hp).
    pose proof (n_current_write_part cwd output_dir output_prefix output_format st) as Hn0.
    rewrite Hn0. split; [|split; [lia|done]].
    unfold write_part. rewrite (proj2 (Z.eqb_neq _ _) Hne). simpl. rewrite Hmd. simpl.
    unfold units_size. simpl. lia.
Qed.

(** In JSON mode, what stays within the byte limit is the sum of the sizes
    of the records of a part; the file has [n + 1] bytes more. *)
Lemma run_json_size (B : Z) (records : list pyval) (fs : gmap pystr pystr) :
  md = false -> msb = Some B -> B ≠ 0 ->
  Forall (fun p => json_within_limit B p
                   ∧ utf8_len (part_text p)
                     = units_size (part_objects p) + part_count p + 1)
    (parts (fst (run records fs))).
Proof.
  intros Hmd HB HB0.
  destruct (run_invariant py_repr cwd input_path output_dir output_prefix max_file_size_mb
              max_objects_per_file output_format (fun _ st => jinv B st) (jinv B) records fs)
    as (consumed & st & Hinv & -> & _ & H).
  - left. intros E. unfold max_size_bytes in HB. by rewrite E in HB.
  - unfold json_size_inv. simpl. split; [done|]. split; [|constructor].
    unfold n_current. simpl. destruct md; lia.
  - intros seen st obj st' Hi Hs Hb. by eapply json_size_inv_step.
  - intros st _ Hs. by apply json_size_inv_write_part.
  - assert (jinv B st) as (_ & _ & Hp).
    { destruct H as [(e & obj & _ & _ & _ & _ & ?)|(_ & _ & ? & _)]; done. }
    pose proof (inv_parts _ _ _ _ _ Hinv) as Hok.
    rewrite Forall_forall in Hok, Hp. apply Forall_forall. intros p Hin.
    split; [by apply Hp|].
    destruct (Hok p Hin) as (Hc0 & _ & Hpo). rewrite Hmd in Hpo.
    destruct Hpo as (Hc & -> & _). rewrite json_dump_list_size; [lia|].
    intros E. rewrite E in Hc. simpl in Hc. lia.
Qed.

End JsonSize.

Section FileFacts.

Variable py_repr : pyval -> pystr.
Variable cwd : pystr.
Variables input_path output_dir output_prefix : pystr.
Variable max_file_size_mb : option Q.
Variable max_objects_per_file : option Z.
Variable output_format : pystr.

Abbreviation md := (is_md output_format).
Abbreviation n_of := (n_current output_format).
Abbreviation wp := (write_part cwd output_dir output_prefix output_format).
Abbreviation body := (loop_body py_repr cwd output_dir output_prefix max_file_size_mb
                    max_objects_per_file output_format).
Abbreviation run := (split_json py_repr cwd input_path output_dir output_prefix max_file_size_mb
                   max_objects_per_file output_format).
Abbreviation inv := (loop_inv py_repr cwd output_format).
Abbreviation name := (part_name output_dir output_prefix output_format).
Abbreviation stem := (part_stem cwd output_dir output_prefix).
Abbreviation finv := (files_inv cwd output_dir output_prefix output_format).

Lemma ext_no_slash : 47%N ∉ ext output_format.
Proof.
  unfold ext. destruct md; intros H;
    repeat (apply elem_of_cons in H as [H|H]; [done|]); by apply elem_of_nil in H.
Qed.

Lemma resolve_part_name (i : Z) :
  0 <= i -> resolve cwd (name i) = stem ++ str_int i ++ ext output_format.
Proof.
  intros Hi. unfold resolve, part_name, part_stem.
  rewrite (app_assoc output_prefix), posixpath_suffix.join_suffix by by destruct output_prefix.
  apply posixpath_suffix.abspath_underscore_suffix.
  - apply posixpath_suffix.join_ends_underscore. by exists output_prefix.
  - intros [H|H]%elem_of_app; [by apply str_int_no_slash in H|by apply ext_no_slash in H].
Qed.

Lemma part_path_inj (i j : Z) :
  stem ++ str_int i ++ ext output_format = stem ++ str_int j ++ ext output_format -> i = j.
Proof. intros H%app_inv_head%app_inv_tail. by apply str_int_inj. Qed.

Lemma files_inv_initial (fs : gmap pystr pystr) :
  finv (open_input input_path (initial_state output_dir fs)).
Proof. split; [done|]. intros j p Hj. simpl in Hj. by rewrite lookup_nil in Hj. Qed.

Lemma files_inv_write_part (st : state) : finv st -> finv (wp st).
Proof.
  intros [Hi Hp]. unfold write_part. destruct (n_of st =? 0); [done|].
  assert (Hres : resolve cwd (name (part_index st))
                 = stem ++ str_int (part_index st) ++ ext output_format).
  { apply resolve_part_name. lia. }
  split; simpl.
  - rewrite length_app. simpl. lia.
  - intros j p Hj. apply lookup_app_Some in Hj as [Hj|[Hlen Hj]].
    + destruct (Hp j p Hj) as [Hpath Hfile]. split; [done|].
      rewrite lookup_insert_ne; [done|].
      rewrite Hres, Hpath, Hi. intros E%part_path_inj.
      apply lookup_lt_Some in Hj. lia.
    + apply list_lookup_singleton_Some in Hj as [Hj <-]. simpl.
      split; [|by rewrite lookup_insert_eq].
      rewrite Hres, Hi. do 3 f_equal. lia.
Qed.

Lemma files_inv_step (st st' : state) (obj : pyval) :
  finv st -> body obj st = inr st' -> finv st'.
Proof.
  intros H (c & sz & _ & ->)%loop_body_inv.
  assert (finv (flushes cwd output_dir output_prefix max_file_size_mb max_objects_per_file
                  output_format sz st)) as [Hi Hp]; [|by split].
  destruct (flushes_cases cwd output_dir output_prefix max_file_size_mb max_objects_per_file
              output_format sz st) as [[-> _]|[-> _]]; [done|].
  by apply files_inv_write_part.
Qed.

Lemma last_app_cons {A} (l : list A) (a : A) (l' : list A) :
  last (l ++ a :: l') = last (a :: l').
Proof. induction l as [|x l IH]; [done|]. rewrite <- app_comm_cons, <- IH. by destruct l. Qed.

Lemma add_report_files (consumed : list pyval) (st st' : state) :
  inv consumed st -> finv st -> add_report cwd output_format st = (st', None) ->
  ∀ j p, parts st !! j = Some p ->
         files st' !! part_path p
         = Some (if md && bool_decide (j = 0%nat)
                 then report_line (Z.of_nat (length consumed)) ++ sep
                        ++ copy_lines (part_text p)
                 else part_text p).
Proof.
  intros Hinv [Hi Hp] Ha j p Hj. destruct md eqn:Hmd.
  2:{ rewrite add_report_json in Ha by done. injection Ha as <-. simpl. by apply (Hp j p). }
  pose proof (inv_catalog _ _ _ _ _ Hinv) as Hcat.
  pose proof (inv_total _ _ _ _ _ Hinv) as Htot.
  unfold add_report in Ha. rewrite Hmd, Hcat in Ha.
  destruct (parts st) as [|p0 ps] eqn:Hparts; [done|]. simpl in Ha.
  destruct (Hp 0%nat p0 eq_refl) as [Hpath0 Hfile0].
  assert (Hres : resolve cwd (part_path p0) = part_path p0).
  { pose proof (inv_parts _ _ _ _ _ Hinv) as Hok. rewrite Hparts in Hok.
    by inversion Hok as [|? ? (_ & ? & _) _]. }
  rewrite Hres, Hfile0 in Ha. injection Ha as <-. simpl.
  destruct j as [|j]; simpl in Hj.
  - injection Hj as <-. rewrite lookup_insert_eq. by rewrite Htot.
  - destruct (Hp (S j) p Hj) as [Hpath Hfile]. simpl.
    rewrite lookup_insert_ne.
    2:{ rewrite Hpath0, Hpath. intros E%part_path_inj. lia. }
    rewrite lookup_delete_ne, lookup_insert_ne; [done| |].
    all: rewrite <- Hres; unfold resolve; rewrite posixpath_suffix.abspath_tmp.
    all: rewrite Hpath; unfold ext; rewrite Hmd; intros E; apply (f_equal last) in E.
    all: rewrite (app_assoc _ _ (u ".md")) in E.
    all: change (u ".tmp") with (46%N :: u "tmp") in E.
    all: change (u ".md") with (46%N :: u "md") in E.
    all: rewrite !last_app_cons in E; done.
Qed.

(** The files of a run that returns: the first Markdown part starts with the
    report, every other part is as it was written. *)
Lemma run_files (records : list pyval) (fs : gmap pystr pystr) :
  max_file_size_mb ≠ None ∨ max_objects_per_file ≠ None ->
  all_render py_repr output_format records = true ->
  ∀ j p, parts (fst (run records fs)) !! j = Some p ->
         part_path p = stem ++ str_int (Z.of_nat j + 1) ++ ext output_format
         ∧ files (fst (run records fs)) !! part_path p
           = Some (if md && bool_decide (j = 0%nat)
                   then report_line (Z.of_nat (length records)) ++ sep
                          ++ copy_lines (part_text p)
                   else part_text p).
Proof.
  intros Hlim Hr j p.
  destruct (run_invariant py_repr cwd input_path output_dir output_prefix max_file_size_mb
              max_objects_per_file output_format (fun _ st => finv st) finv records fs Hlim)
    as (consumed & st & Hinv & -> & _ & [(e & obj & _ & Hmd & Hin & Hobj & _)|(-> & _ & HF & Ha & _)]).
  - apply files_inv_initial.
  - intros seen st obj st' _ Hf Hb. by eapply files_inv_step.
  - intros st _ Hf. by apply files_inv_write_part.
  - by apply (all_render_no_error py_repr output_format records obj e) in Hobj.
  - intros Hj. split; [by apply HF|]. by eapply add_report_files.
Qed.

End FileFacts.

(** ** The lines of a text *)

Lemma lstrip_nil_spaces (s : pystr) : lstrip s = [] -> Forall (fun c => isspace c = true) s.
Proof.
  induction s as [|c s IH]; [constructor|]. simpl.
  destruct (isspace c) eqn:Hc; [|done]. intros H. constructor; auto.
Qed.

Lemma lstrip_idem (s : pystr) : lstrip (lstrip s) = lstrip s.
Proof.
  induction s as [|c s IH]; [done|]. simpl.
  destruct (isspace c) eqn:Hc; [done|]. simpl. by rewrite Hc.
Qed.

Lemma rstrip_idem (s : pystr) : rstrip (rstrip s) = rstrip s.
Proof. unfold rstrip. by rewrite rev_involutive, lstrip_idem. Qed.

Lemma rstrip_nil_spaces (s : pystr) : rstrip s = [] -> Forall (fun c => isspace c = true) s.
Proof.
  unfold rstrip. intros H. apply (f_equal (@rev N)) in H. rewrite rev_involutive in H.
  apply lstrip_nil_spaces in H. rewrite Forall_forall in H |- *.
  intros c Hc. apply H. apply list_elem_of_In, in_rev. rewrite rev_involutive.
  by apply list_elem_of_In.
Qed.

Lemma contains_char_false (c : N) (s : pystr) : contains_char c s = false -> c ∉ s.
Proof.
  unfold contains_char. intros H Hin. apply list_elem_of_In in Hin.
  assert (existsb (N.eqb c) s = true); [|congruence].
  apply existsb_exists. exists c. split; [done|apply N.eqb_refl].
Qed.

(** The lines of a text made of lines. *)
Lemma lines_of_line (l rest : pystr) :
  10%N ∉ l -> lines_of (l ++ 10%N :: rest) = (l ++ [10%N]) :: lines_of rest.
Proof.
  induction l as [|c l IH]; intros Hl; [done|].
  apply not_elem_of_cons in Hl as [Hc Hl]. simpl.
  destruct (N.eqb_spec c 10); [done|]. by rewrite IH.
Qed.

Lemma lines_of_single (t : pystr) : t ≠ [] -> 10%N ∉ t -> lines_of t = [t].
Proof.
  induction t as [|c t IH]; [done|]. intros _ [Hc Ht]%not_elem_of_cons. simpl.
  destruct (N.eqb_spec c 10); [done|]. destruct t as [|c' t]; [done|].
  by rewrite IH.
Qed.

Lemma lines_of_concat (ls : list pystr) :
  Forall (fun l => 10%N ∉ l) ls ->
  lines_of (concat (map (fun l => l ++ [10%N]) ls)) = map (fun l => l ++ [10%N]) ls.
Proof.
  induction 1 as [|l ls Hl _ IH]; [done|]. simpl.
  rewrite <- app_assoc. simpl. by rewrite lines_of_line, IH.
Qed.

Lemma split_lines_nonempty (s : pystr) : split_lines s ≠ [].
Proof. destruct s as [|c s]; [done|]. simpl. destruct (c =? 10)%N; [done|]. by destruct (split_lines s). Qed.

Lemma split_lines_app (a b : pystr) :
  split_lines (a ++ 10%N :: b) = split_lines a ++ split_lines b.
Proof.
  induction a as [|c a IH]; [done|]. simpl. destruct (c =? 10)%N.
  - by rewrite IH.
  - rewrite IH. pose proof (split_lines_nonempty a). by destruct (split_lines a).
Qed.

Lemma split_lines_no_newline (s : pystr) : Forall (fun l => 10%N ∉ l) (split_lines s).
Proof.
  induction s as [|c s IH]; [repeat constructor; apply not_elem_of_nil|]. simpl.
  destruct (N.eqb_spec c 10) as [->|Hc]; [constructor; [apply not_elem_of_nil|done]|].
  destruct (split_lines s) as [|w ws].
  { repeat constructor. by intros [?|?%elem_of_nil]%elem_of_cons. }
  inversion IH; subst. constructor; [|done]. by apply not_elem_of_cons.
Qed.

Lemma join_split_lines (s : pystr) : str_join [10%N] (split_lines s) = s.
Proof.
  induction s as [|c s IH]; [done|]. simpl.
  pose proof (split_lines_nonempty s) as Hne.
  destruct (N.eqb_spec c 10) as [->|Hc].
  - destruct (split_lines s) as [|w ws]; [done|]. simpl in *. by rewrite IH.
  - destruct (split_lines s) as [|w ws]; [done|].
    destruct ws as [|w' ws]; simpl in *; by rewrite <- IH.
Qed.

Lemma universal_newlines_none (s : pystr) : 13%N ∉ s -> universal_newlines s = s.
Proof.
  induction s as [|c s IH]; [done|]. intros [Hc Hs]%not_elem_of_cons. simpl.
  destruct (N.eqb_spec c 13); [done|]. by rewrite IH.
Qed.

Lemma str_join_elem (c : N) (sp : pystr) (l : list pystr) :
  c ∈ str_join sp l -> c ∈ sp ∨ ∃ w, w ∈ l ∧ c ∈ w.
Proof.
  induction l as [|a l IH]; [by intros ?%elem_of_nil|].
  destruct l as [|b l].
  - simpl. intros H. right. exists a. split; [by left|done].
  - change (str_join sp (a :: b :: l)) with (a ++ sp ++ str_join sp (b :: l)).
    intros [H|[H|H]%elem_of_app]%elem_of_app.
    + right. exists a. split; [by left|done].
    + by left.
    + destruct (IH H) as [?|(w & Hw & Hc)]; [by left|].
      right. exists w. split; [by right|done].
Qed.

Lemma tidy_line_spec (l : pystr) :
  tidy_line l = true ↔ l ≠ [] ∧ (13%N ∉ l) ∧ rstrip l = l.
Proof.
  unfold tidy_line. rewrite !andb_true_iff, !negb_true_iff, bool_decide_eq_false,
    bool_decide_eq_true.
  split.
  - intros [[H1 H2] H3]. split; [done|]. split; [by apply contains_char_false|done].
  - intros (H1 & H2 & H3). split; [split; [done|]|done]. unfold contains_char.
    destruct (existsb (N.eqb 13) l) eqn:E; [|done].
    apply existsb_exists in E as (c & Hin%list_elem_of_In & Hc%N.eqb_eq). by subst c.
Qed.

Lemma lstrip_spaces (s : pystr) : Forall (fun c => isspace c = true) s -> lstrip s = [].
Proof. induction 1 as [|c s Hc _ IH]; [done|]. simpl. by rewrite Hc. Qed.

Lemma rstrip_spaces (s : pystr) : Forall (fun c => isspace c = true) s -> rstrip s = [].
Proof.
  intros H. unfold rstrip. rewrite lstrip_spaces; [done|].
  rewrite Forall_forall in H |- *. intros c Hc. apply H.
  by apply list_elem_of_In, in_rev, list_elem_of_In.
Qed.

Lemma lstrip_head (s : pystr) (c : N) (r : pystr) : lstrip s = c :: r -> isspace c = false.
Proof.
  induction s as [|x s IH]; [done|]. simpl.
  destruct (isspace x) eqn:Hx; [done|]. by intros [= <- _].
Qed.

Lemma strip_nil_spaces (s : pystr) : strip s = [] -> Forall (fun c => isspace c = true) s.
Proof.
  unfold strip. intros H%rstrip_nil_spaces. apply lstrip_nil_spaces.
  destruct (lstrip s) as [|c r] eqn:E; [done|].
  apply lstrip_head in E. inversion H; congruence.
Qed.

Lemma copy_one (l : pystr) :
  l ≠ [] -> rstrip l = l ->
  strip (l ++ [10%N]) ≠ [] ∧ rstrip (l ++ [10%N]) = l ∧ strip l ≠ [].
Proof.
  intros Hne Hr.
  assert (Hns : ¬ Forall (fun c => isspace c = true) l).
  { intros H%rstrip_spaces. congruence. }
  split; [|split].
  - intros H%strip_nil_spaces. by apply Forall_app in H as [H _].
  - rewrite rstrip_app. simpl. done.
  - by intros H%strip_nil_spaces.
Qed.

(** The lines of a text whose lines are tidy are copied as they are. *)
Lemma copy_tidy_lines (ls : list pystr) :
  ls ≠ [] -> Forall (fun l => l ≠ [] ∧ (13%N ∉ l) ∧ rstrip l = l ∧ (10%N ∉ l)) ls ->
  concat (map (fun line => rstrip line ++ [10%N])
            (filter (fun line => strip line <> []) (lines_of (str_join [10%N] ls))))
  = str_join [10%N] ls ++ [10%N].
Proof.
  intros Hne Hall. induction Hall as [|l ls (Hl & _ & Hr & Hn) Hls IH]; [done|].
  destruct (copy_one l Hl Hr) as (H1 & H2 & H3).
  destruct ls as [|l' ls].
  - simpl. rewrite lines_of_single by done.
    rewrite filter_cons_True by done. simpl. by rewrite Hr, app_nil_r.
  - change (str_join [10%N] (l :: l' :: ls)) with (l ++ 10%N :: str_join [10%N] (l' :: ls)).
    rewrite lines_of_line by done. rewrite filter_cons_True by done.
    rewrite map_cons, concat_cons, IH by done. rewrite H2, <- !app_assoc. done.
Qed.

Lemma copy_lines_tidy (text : pystr) : tidy text = true -> copy_lines text = text ++ [10%N].
Proof.
  unfold tidy. intros Ht. rewrite forallb_forall in Ht.
  assert (Hall : Forall (fun l => l ≠ [] ∧ (13%N ∉ l) ∧ rstrip l = l ∧ (10%N ∉ l))
                   (split_lines text)).
  { pose proof (split_lines_no_newline text) as Hn. rewrite Forall_forall in Hn |- *.
    intros l Hl. specialize (Hn l Hl). apply list_elem_of_In, Ht, tidy_line_spec in Hl.
    tauto. }
  unfold copy_lines. rewrite universal_newlines_none.
  - rewrite <- (join_split_lines text) at 1 2.
    rewrite copy_tidy_lines; [|apply split_lines_nonempty|done].
    by rewrite join_split_lines.
  - rewrite <- (join_split_lines text).
    intros [H|(w & Hw & Hc)]%str_join_elem.
    + by apply elem_of_cons in H as [H|H%elem_of_nil].
    + rewrite Forall_forall in Hall. destruct (Hall w Hw) as (_ & H13 & _). done.
Qed.

Lemma tidy_join_sep (blocks : list pystr) :
  blocks ≠ [] -> forallb tidy blocks = true -> tidy (str_join sep blocks) = true.
Proof.
  intros Hne Hall. induction blocks as [|b blocks IH]; [done|]. simpl in Hall.
  apply andb_true_iff in Hall as [Hb Hbs]. destruct blocks as [|b' blocks]; [done|].
  change (str_join sep (b :: b' :: blocks))
    with (b ++ 10%N :: (u "---" ++ 10%N :: str_join sep (b' :: blocks))).
  unfold tidy in *. rewrite !split_lines_app, !forallb_app, Hb, IH by done. done.
Qed.

(** The rewriting changes whitespace only. *)
Lemma filter_rev_nonspace (l : pystr) :
  filter (fun c => isspace c = false) (rev l) = rev (filter (fun c => isspace c = false) l).
Proof.
  induction l as [|a l IH]; [done|]. simpl. rewrite filter_app, IH.
  destruct (isspace a) eqn:Ha.
  - rewrite (filter_cons_False _ a l) by (by rewrite Ha).
    rewrite filter_cons_False by (by rewrite Ha). by rewrite app_nil_r.
  - rewrite (filter_cons_True _ a l) by done. by rewrite filter_cons_True by done.
Qed.

Lemma lstrip_filter (s : pystr) :
  filter (fun c => isspace c = false) (lstrip s) = filter (fun c => isspace c = false) s.
Proof.
  induction s as [|c s IH]; [done|]. simpl. destruct (isspace c) eqn:Hc; [|done].
  by rewrite filter_cons_False by (by rewrite Hc).
Qed.

Lemma rstrip_filter (s : pystr) :
  filter (fun c => isspace c = false) (rstrip s) = filter (fun c => isspace c = false) s.
Proof.
  unfold rstrip. by rewrite filter_rev_nonspace, lstrip_filter, filter_rev_nonspace, rev_involutive.
Qed.

Lemma spaces_filter (s : pystr) :
  Forall (fun c => isspace c = true) s -> filter (fun c => isspace c = false) s = [].
Proof.
  induction 1 as [|c s Hc _ IH]; [done|]. by rewrite filter_cons_False by (by rewrite Hc).
Qed.

Lemma universal_newlines_filter (s : pystr) :
  filter (fun c => isspace c = false) (universal_newlines s)
  = filter (fun c => isspace c = false) s.
Proof.
  assert (H : ∀ n s, (length s <= n)%nat ->
                filter (fun c => isspace c = false) (universal_newlines s)
                = filter (fun c => isspace c = false) s).
  { clear s. induction n as [|n IH]; intros [|c s] Hl; simpl in *; try done; [lia|].
    destruct (N.eqb_spec c 13) as [->|Hc].
    - rewrite (filter_cons_False _ 13%N s) by done.
      destruct s as [|c' s]; [done|]. simpl in Hl.
      destruct (N.eqb_spec c' 10) as [->|Hc'].
      + rewrite !filter_cons_False by done. apply IH. lia.
      + rewrite filter_cons_False by done. apply IH. simpl. lia.
    - destruct (isspace c) eqn:Hs.
      + rewrite !filter_cons_False by (by rewrite Hs). apply IH. lia.
      + rewrite !filter_cons_True by done. f_equal. apply IH. lia. }
  by apply (H (length s)).
Qed.

Lemma concat_lines_of (s : pystr) : concat (lines_of s) = s.
Proof.
  induction s as [|c s IH]; [done|]. simpl. destruct (c =? 10)%N; simpl; [by rewrite IH|].
  destruct (lines_of s) as [|l ls]; simpl in *; by rewrite <- IH.
Qed.

Lemma copy_lines_whitespace (text : pystr) :
  filter (fun c => isspace c = false) (copy_lines text)
  = filter (fun c => isspace c = false) text.
Proof.
  unfold copy_lines.
  transitivity (filter (fun c => isspace c = false)
                  (concat (lines_of (universal_newlines text)))).
  2:{ by rewrite concat_lines_of, universal_newlines_filter. }
  generalize (lines_of (universal_newlines text)). intros ls.
  induction ls as [|l ls IH]; [done|].
  rewrite (concat_cons l), (filter_app _ l), <- IH.
  destruct (decide (strip l = [])) as [E|E].
  - rewrite (filter_cons_False _ l ls) by (intros H; done).
    by rewrite (spaces_filter l) by by apply strip_nil_spaces.
  - rewrite (filter_cons_True _ l ls) by done.
    rewrite map_cons, concat_cons, !filter_app, rstrip_filter.
    rewrite (filter_cons_False _ 10%N []) by done. by rewrite filter_nil, app_nil_r.
Qed.

(** The count of the report line is made of digits and commas. *)
Lemma group3_chars (n : nat) (l : pystr) :
  (length l <= n)%nat -> Forall is_digit l ->
  Forall (fun c => is_digit c ∨ c = 44%N) (group3 l).
Proof.
  revert l. induction n as [|n IH]; intros l Hl Hd.
  { destruct l; [constructor|simpl in Hl; lia]. }
  assert (Hw : ∀ l', Forall is_digit l' -> Forall (fun c => is_digit c ∨ c = 44%N) l').
  { intros l' H. eapply Forall_impl; [exact H|]. by left. }
  destruct l as [|a [|b [|c [|d rest]]]]; try by apply Hw.
  rewrite group3_cons4.
  inversion Hd as [|? ? Ha Hd1]; subst. inversion Hd1 as [|? ? Hb Hd2]; subst.
  inversion Hd2 as [|? ? Hc Hd3]; subst.
  constructor; [by left|]. constructor; [by left|]. constructor; [by left|].
  constructor; [by right|]. apply IH; [simpl in *; lia|done].
Qed.

Lemma format_grouped_chars (n : Z) :
  0 <= n -> Forall (fun c => is_digit c ∨ c = 44%N) (format_grouped n).
Proof.
  intros Hn. unfold format_grouped. rewrite (proj2 (Z.ltb_ge _ _) Hn).
  apply Forall_rev, (group3_chars (length (rev (str_int n)))); [done|].
  apply Forall_rev. by apply str_int_digits.
Qed.


(** * The claims *)

Section Claims.

Variable py_repr : pyval -> pystr.
Variable cwd : pystr.
Variables input_path output_dir output_prefix : pystr.
Variable output_format : pystr.

Abbreviation run mb count :=
  (split_json py_repr cwd input_path output_dir output_prefix mb count output_format).



(** C4 (as amended): [split_json] raises the [ValueError] of the missing
    limits exactly when both limits are [None]; it then has created the
    output directory and done nothing else: no file is opened or written and
    no record is consumed, whatever the input holds. *)
Theorem C4_no_limit_error (max_file_size_mb : option Q) (max_objects_per_file : option Z)
    (records : list pyval) (fs : gmap pystr pystr) :
  let r := run max_file_size_mb max_objects_per_file records fs in
  ((∃ msg, snd r = inl (ValueError msg))
   ↔ max_file_size_mb = None ∧ max_objects_per_file = None)
  ∧ (max_file_size_mb = None ∧ max_objects_per_file = None ->
     r = (initial_state output_dir fs, inl (ValueError no_limit_message))
     ∧ trace (fst r) = [EMakedirs output_dir]
     ∧ files (fst r) = fs
     ∧ total_read (fst r) = 0).
Proof.
  intros r. split; [apply value_error_iff|]. by intros [-> ->].
Qed.

(** C5: in Markdown mode, a run over at least one record (all of which can
    be rendered) returns a catalog whose first file begins with the report
    line [### Отчёт | Всего сообщений: ] and the count, followed by the
    separator, a newline, three hyphens and a newline; then come the lines
    of the first part as it was flushed.  The count is the number of records
    written with a comma between groups of three digits: it is made of
    digits and commas, so the report is one line, and without the commas it
    is the decimal numeral of the number of records. *)
Theorem C5_report_header (max_file_size_mb : option Q) (max_objects_per_file : option Z)
    (records : list pyval) (fs : gmap pystr pystr) :
  is_md output_format = true ->
  max_file_size_mb ≠ None ∨ max_objects_per_file ≠ None ->
  all_render py_repr output_format records = true ->
  records ≠ [] ->
  let r := run max_file_size_mb max_objects_per_file records fs in
  let N := Z.of_nat (length records) in
  ∃ first rest p ps,
    snd r = inr (first :: rest)
    ∧ parts (fst r) = p :: ps
    ∧ first = part_path p
    ∧ files (fst r) !! first
      = Some ([35; 35; 35; 32; 1054; 1090; 1095; 1105; 1090; 32; 124; 32;
               1042; 1089; 1077; 1075; 1086; 32;
               1089; 1086; 1086; 1073; 1097; 1077; 1085; 1080; 1081; 58; 32]%N
              ++ format_grouped N
              ++ [10; 45; 45; 45; 10]%N
              ++ copy_lines (str_join [10; 45; 45; 45; 10]%N (part_md_blocks p)))
    ∧ Forall (fun c => is_digit c ∨ c = 44%N) (format_grouped N)
    ∧ filter (fun c => c ≠ 44%N) (format_grouped N) = str_int N.
Proof.
  intros Hmd Hlim Hr Hne r N.
  destruct (run_units py_repr cwd input_path output_dir output_prefix max_file_size_mb
              max_objects_per_file output_format records fs Hlim Hr) as (Hs & Hok & Hu).
  fold r in Hs, Hok, Hu. rewrite Hmd in Hu.
  destruct (parts (fst r)) as [|p ps] eqn:Hparts.
  { destruct records; [done|]. simpl in Hu. done. }
  exists (part_path p), (map part_path ps), p, ps.
  split; [done|]. split; [done|]. split; [done|]. split.
  - destruct (run_files py_repr cwd input_path output_dir output_prefix max_file_size_mb
                max_objects_per_file output_format records fs Hlim Hr 0%nat p) as [_ Hf].
    { fold r. by rewrite Hparts. }
    fold r in Hf. rewrite Hmd in Hf. simpl in Hf. rewrite Hf.
    inversion Hok as [|? ? (_ & _ & Hp) _]; subst. rewrite Hmd in Hp.
    destruct Hp as (_ & -> & _). reflexivity.
  - split; [apply format_grouped_chars; lia|]. apply format_grouped_digits. lia.
Qed.

(** C8: two runs of [split_json] with the same arguments over the same
    records, started on any two file systems, end alike: they return or
    raise the same, perform the same operations with the same texts, and
    leave the same text in every file of the catalog. *)
Theorem C8_deterministic (max_file_size_mb : option Q) (max_objects_per_file : option Z)
    (records : list pyval) (fs1 fs2 : gmap pystr pystr) :
  let r1 := run max_file_size_mb max_objects_per_file records fs1 in
  let r2 := run max_file_size_mb max_objects_per_file records fs2 in
  snd r1 = snd r2
  ∧ created_files (fst r1) = created_files (fst r2)
  ∧ trace (fst r1) = trace (fst r2)
  ∧ parts (fst r1) = parts (fst r2)
  ∧ ∀ path, path ∈ created_files (fst r1) -> files (fst r1) !! path = files (fst r2) !! path.
Proof.
  intros r1 r2.
  destruct (split_json_agree py_repr cwd input_path output_dir output_prefix max_file_size_mb
              max_objects_per_file output_format records fs1 fs2)
    as (Hs & Hc & _ & _ & _ & _ & _ & Ht & Hp & Hf).
  by repeat split.
Qed.


End Claims.

(** C6 (as amended): [_extract_text] takes a string as it is, the [text]
    field of a mapping, and from a sequence the strings and the [text]
    fields of the mappings in it, put together with nothing between them
    (any other item, a nested sequence included, is skipped).  The Markdown
    block of a record is made of its date, its author and the normalised
    text, where the text is the extracted [text] when that field is present
    and true, else the extracted entities of a true [text_entities] joined
    by single spaces, else empty. *)
Theorem C6_text_extraction (py_repr : pyval -> pystr) (d : list (pystr * pyval)) :
  (obj_to_md py_repr (PDict d)
   = (raw ← record_text_with (entity_text py_repr) d;
      inr (md_block (record_date py_repr d) (record_author py_repr d)
             (_normalize_text raw))))
  ∧ ∀ v, _extract_text py_repr v = entity_text py_repr v.
Proof. split; [apply obj_to_md_spec|apply _extract_text_entity_text]. Qed.

(** C7: a record whose author ends with two line breaks.  [obj_to_md]
    inserts the author as it is, so the block ends with two blank lines,
    where the claim, and the description that [obj_to_md] gives of itself,
    have none. *)
Theorem C7_blank_lines_in_block :
  let record := PDict [(u "from", PStr [65; 10; 10]%N)] in
  obj_to_md no_repr record = inr (u "###  | A" ++ [10; 10]%N)
  ∧ split_lines (u "###  | A" ++ [10; 10]%N) = [u "###  | A"; []; []].
Proof. split; reflexivity. Qed.

(** C9: the flat line of [json_to_txt] and the Markdown block of
    [obj_to_md] are made of the same date, the same author and the same
    normalised text (and fail alike); the flat line is
    [date | author: text] without its trailing whitespace, followed by the
    newline that the caller writes. *)
Theorem C9_flat_line_same_fields (py_repr : pyval -> pystr) (obj : pyval) :
  match obj with
  | PDict d =>
      json_to_txt_chat py_repr obj
      = (raw ← record_text_with (entity_text py_repr) d;
         inr (rstrip (record_date py_repr d ++ u " | " ++ record_author py_repr d
                        ++ u ": " ++ _normalize_text raw) ++ [10%N]))
      ∧ obj_to_md py_repr obj
        = (raw ← record_text_with (entity_text py_repr) d;
           inr (md_block (record_date py_repr d) (record_author py_repr d)
                  (_normalize_text raw)))
  | _ =>
      json_to_txt_chat py_repr obj = inl AttributeError
      ∧ obj_to_md py_repr obj = inl AttributeError
  end.
Proof.
  destruct obj; try done. split; [apply json_to_txt_chat_spec|apply obj_to_md_spec].
Qed.

(** ** Evaluations *)

(** C1: in JSON mode with a limit of four bytes, two records of two bytes
    each are flushed into one part; the file written holds seven bytes. *)
Theorem C1_json_part_exceeds_limit :
  let two := [PDict []; PDict []] in
  let r := split_json no_repr (u "home") (u "in.json") (u "dist") (u "part")
             (Some (4 # 1048576)%Q) None (u "json") two ∅ in
  max_size_bytes (Some (4 # 1048576)%Q) = Some 4
  ∧ map (fun obj => utf8_len (json_dumps obj)) two = [2; 2]
  ∧ snd r = inr [u "/home/dist/part_1.json"]
  ∧ map part_objects (parts (fst r)) = [two]
  ∧ map part_text (parts (fst r)) = [u "[{},{}]"]
  ∧ files (fst r) !! u "/home/dist/part_1.json" = Some (u "[{},{}]")
  ∧ utf8_len (u "[{},{}]") = 7.
Proof. vm_compute. repeat split; reflexivity. Qed.

(** The same limit in Markdown mode is kept: every part is within four
    bytes or made of one block that is larger. *)
Example md_parts_within_four_bytes :
  Forall (within_limit 4)
    (parts (fst (split_json no_repr (u "home") (u "in.json") (u "dist") (u "part")
                   (Some (4 # 1048576)%Q) None (u "md") five_messages ∅))).
Proof. by apply run_md_size. Qed.

(** C4, as the specification states it, fails: the run without limits has
    performed an operation on the file system when it raises. *)
Theorem C4_counterexample :
  let r := split_json no_repr (u "home") (u "in.json") (u "dist") (u "part")
             None None (u "md") five_messages ∅ in
  snd r = inl (ValueError no_limit_message) ∧ trace (fst r) ≠ [].
Proof. split; [reflexivity|discriminate]. Qed.

(** The run without limits on [five_messages]: the directory is created,
    the files are untouched. *)
Lemma C4_no_limit_error_witness :
  let r := split_json no_repr (u "home") (u "in.json") (u "dist") (u "part")
             None None (u "md") five_messages ∅ in
  trace (fst r) = [EMakedirs (u "dist")] ∧ files (fst r) = ∅.
Proof.
  pose proof (proj2 (C4_no_limit_error no_repr (u "home") (u "in.json") (u "dist") (u "part")
                       (u "md") None None five_messages ∅) (conj eq_refl eq_refl))
    as (_ & Ht & Hf & _).
  exact (conj Ht Hf).
Defined.



(** The report of the run over five messages. *)
Lemma C5_report_header_witness :
  ∃ p ps,
    parts (fst (split_json no_repr (u "home") (u "in.json") (u "dist") (u "part")
                  None (Some 2) (u "md") five_messages ∅)) = p :: ps
    ∧ files (fst (split_json no_repr (u "home") (u "in.json") (u "dist") (u "part")
                    None (Some 2) (u "md") five_messages ∅)) !! part_path p
      = Some ([35; 35; 35; 32; 1054; 1090; 1095; 1105; 1090; 32; 124; 32;
               1042; 1089; 1077; 1075; 1086; 32;
               1089; 1086; 1086; 1073; 1097; 1077; 1085; 1080; 1081; 58; 32]%N
              ++ format_grouped 5
              ++ [10; 45; 45; 45; 10]%N
              ++ copy_lines (str_join [10; 45; 45; 45; 10]%N (part_md_blocks p))).
Proof.
  destruct (C5_report_header no_repr (u "home") (u "in.json") (u "dist") (u "part") (u "md")
              None (Some 2) five_messages ∅ eq_refl
              (or_intror (fun E : Some 2 = None =>
                            eq_ind (Some 2) (fun o => match o with
                                                      | Some _ => True
                                                      | None => False
                                                      end) I None E))
              eq_refl
              (fun E : five_messages = [] =>
                 eq_ind five_messages (fun l => match l with
                                                | [] => False
                                                | _ :: _ => True
                                                end) I [] E))
    as (first & rest & p & ps & _ & Hp & Hfirst & Hf & _).
  exists p, ps. split; [exact Hp|]. rewrite <- Hfirst. exact Hf.
Defined.



(** C6, as the specification states it, fails: the two fragments of the
    [text] of [fragments_message] are put together with no space between
    them, where the rule of the specification gives [a b]. *)
Theorem C6_counterexample :
  record_text_with (claimed_entity_text no_repr) fragments_message = inr (u "a b")
  ∧ obj_to_md no_repr (PDict fragments_message) = inr (u "###  | " ++ [10%N] ++ u "ab")
  ∧ obj_to_md no_repr (PDict fragments_message)
    ≠ (raw ← record_text_with (claimed_entity_text no_repr) fragments_message;
       inr (md_block (record_date no_repr fragments_message)
              (record_author no_repr fragments_message) (_normalize_text raw))).
Proof. split; [reflexivity|]. split; [reflexivity|]. vm_compute. discriminate. Qed.

(** The scenario of the specification: a text that starts with [#] and
    holds line breaks. *)
Example heading_message_block :
  obj_to_md no_repr (PDict heading_message)
  = inr (u "### 2024-01-01 09:00 | Ann" ++ [10%N] ++ u "\# a b c").
Proof. reflexivity. Qed.

(** * Further properties *)

(** ** Where a run ends *)

Section RunOutcome.

Variable py_repr : pyval -> pystr.
Variable cwd : pystr.
Variables input_path output_dir output_prefix : pystr.
Variable max_file_size_mb : option Q.
Variable max_objects_per_file : option Z.
Variable output_format : pystr.

Abbreviation md := (is_md output_format).
Abbreviation n_of := (n_current output_format).
Abbreviation wp := (write_part cwd output_dir output_prefix output_format).
Abbreviation body := (loop_body py_repr cwd output_dir output_prefix max_file_size_mb
                    max_objects_per_file output_format).
Abbreviation loop := (for_each py_repr cwd output_dir output_prefix max_file_size_mb
                    max_objects_per_file output_format).
Abbreviation run := (split_json py_repr cwd input_path output_dir output_prefix max_file_size_mb
                   max_objects_per_file output_format).
Abbreviation flushes' := (flushes cwd output_dir output_prefix max_file_size_mb
                        max_objects_per_file output_format).
Abbreviation inv := (loop_inv py_repr cwd output_format).
Abbreviation finv := (files_inv cwd output_dir output_prefix output_format).
Abbreviation report := (add_report cwd output_format).
Abbreviation name := (part_name output_dir output_prefix output_format).
Abbreviation units := (part_units output_format).

(** The report changes the file system and the trace, nothing else. *)
Lemma add_report_frame (st : state) :
  let st' := fst (report st) in
  created_files st' = created_files st
  ∧ current_objects st' = current_objects st
  ∧ current_md_blocks st' = current_md_blocks st
  ∧ current_size st' = current_size st
  ∧ part_index st' = part_index st
  ∧ total_read st' = total_read st
  ∧ parts st' = parts st.
Proof.
  unfold add_report. destruct (created_files st) as [|first_path rest] eqn:E;
    [simpl; by rewrite ?E|].
  destruct md; [|simpl; by rewrite ?E].
  destruct (files st !! resolve cwd first_path); simpl; by rewrite ?E.
Qed.

(** A step of the loop flushes the buffer or not, and then adds the unit. *)
Lemma loop_body_cases (obj : pyval) (st st' : state) :
  body obj st = inr st' ->
  ∃ obj_content obj_size st1,
    (st1 = st ∨ st1 = wp st)
    ∧ st1 = flushes' obj_size st
    ∧ measure py_repr output_format obj st = inr (obj_content, obj_size)
    ∧ st' = append_unit output_format obj obj_content obj_size st1.
Proof.
  intros (c & sz & Hm & ->)%loop_body_inv. exists c, sz, (flushes' sz st).
  split; [|done].
  destruct (flushes_cases cwd output_dir output_prefix max_file_size_mb max_objects_per_file
              output_format sz st) as [[-> _]|[-> _]]; auto.
Qed.

(** A run with a limit ends at the first record that cannot be rendered,
    in the state that the loop had reached, or after the last flush and the
    report.  [I] is any property that the flushes and the additions keep. *)
Lemma run_outcome (I : list pyval -> state -> Prop)
    (records : list pyval) (fs : gmap pystr pystr) :
  max_file_size_mb ≠ None ∨ max_objects_per_file ≠ None ->
  I [] (open_input input_path (initial_state output_dir fs)) ->
  (∀ seen st, inv seen st -> finv st -> I seen st -> I seen (wp st)) ->
  (∀ seen st obj c sz, inv seen st -> finv st -> I seen st ->
     measure py_repr output_format obj st = inr (c, sz) ->
     I seen (flushes' sz st) ->
     I (seen ++ [obj]) (append_unit output_format obj c sz (flushes' sz st))) ->
  (∃ good bad rest e st,
      records = good ++ bad :: rest
      ∧ run records fs = (st, inl e)
      ∧ md = true ∧ obj_to_md py_repr bad = inl e
      ∧ inv good st ∧ finv st ∧ I good st)
  ∨ (∃ st, inv records st ∧ finv st ∧ I records st ∧ n_of st = 0
           ∧ run records fs = (fst (report st), inr (created_files st))
           ∧ snd (report st) = None).
Proof.
  intros Hlim H0 Hwp Hadd. rewrite split_json_limit by done.
  destruct (loop records _) as [st r] eqn:Hl.
  set (J := fun seen st => inv seen st ∧ finv st ∧ I seen st).
  assert (HJwp : ∀ seen st, J seen st -> J seen (wp st)).
  { intros seen st1 (Hi & Hf & HI). split; [by apply loop_inv_write_part|].
    split; [by apply files_inv_write_part|by apply Hwp]. }
  assert (Hstep : ∀ seen st obj st', J seen st -> body obj st = inr st' -> J (seen ++ [obj]) st').
  { intros seen st1 obj st1' (Hi & Hf & HI) Hb.
    split; [by eapply loop_inv_step|]. split; [by eapply files_inv_step|].
    destruct (loop_body_cases obj st1 st1' Hb) as (c & sz & st2 & Hc & E2 & Hm & E1).
    subst st1'. rewrite E2 in Hc |- *. apply Hadd; try done.
    destruct Hc as [->| ->]; [done|by apply Hwp]. }
  destruct (for_each_invariant py_repr cwd output_dir output_prefix max_file_size_mb
              max_objects_per_file output_format J Hstep records [] _ st r
              (conj (loop_inv_initial py_repr cwd input_path output_dir output_format fs)
                 (conj (files_inv_initial cwd input_path output_dir output_prefix output_format fs)
                    H0)) Hl)
    as (consumed & (Hinv & Hfinv & HI) & Hp & Hn & He).
  simpl in Hinv, HI. destruct r as [e|].
  - left. destruct (He e eq_refl) as (obj & [k Hk] & Hb).
    apply (body_raises py_repr cwd output_dir output_prefix max_file_size_mb
             max_objects_per_file output_format) in Hb as [Hmd Hobj].
    exists consumed, obj, k, e, st. rewrite <- app_assoc in Hk. simpl in Hk.
    exact (conj Hk (conj eq_refl (conj Hmd (conj Hobj (conj Hinv (conj Hfinv HI)))))).
  - right. rewrite (Hn eq_refl) in *.
    destruct (HJwp _ _ (conj Hinv (conj Hfinv HI))) as (Hinv' & Hfinv' & HI').
    destruct (add_report_returns py_repr cwd output_format _ _ Hinv') as [st' Hst'].
    pose proof (add_report_frame (wp st)) as (Hc & _). rewrite Hst' in Hc |- *. simpl in *.
    exists (wp st). rewrite Hst'. simpl. rewrite Hc.
    exact (conj Hinv' (conj Hfinv' (conj HI' (conj (n_current_write_part _ _ _ _ _) (conj eq_refl eq_refl))))).
Qed.

(** The same without a property of one's own. *)
Lemma run_ends (records : list pyval) (fs : gmap pystr pystr) :
  max_file_size_mb ≠ None ∨ max_objects_per_file ≠ None ->
  (∃ good bad rest e st,
      records = good ++ bad :: rest
      ∧ run records fs = (st, inl e)
      ∧ md = true ∧ obj_to_md py_repr bad = inl e
      ∧ inv good st ∧ finv st)
  ∨ (∃ st, inv records st ∧ finv st ∧ n_of st = 0
           ∧ run records fs = (fst (report st), inr (created_files st))
           ∧ snd (report st) = None).
Proof.
  intros Hlim.
  destruct (run_outcome (fun _ _ => True) records fs Hlim) as
    [(good & bad & rest & e & st & H)|(st & H)]; try done.
  - left. exists good, bad, rest, e, st. tauto.
  - right. exists st. tauto.
Qed.

(** What the files of the parts hold when a run ends: the text that was
    flushed, but for the first Markdown part of a run that returns. *)
Lemma run_disk (records : list pyval) (fs : gmap pystr pystr) :
  max_file_size_mb ≠ None ∨ max_objects_per_file ≠ None ->
  let r := run records fs in
  ∀ j p, parts (fst r) !! j = Some p ->
    part_path p = resolve cwd (name (Z.of_nat j + 1))
    ∧ files (fst r) !! part_path p
      = Some (match snd r with
              | inr _ =>
                  if md && bool_decide (j = 0%nat)
                  then report_line (Z.of_nat (length records)) ++ sep
                         ++ copy_lines (part_text p)
                  else part_text p
              | inl _ => part_text p
              end).
Proof.
  intros Hlim r j p. subst r.
  destruct (run_ends records fs Hlim) as
    [(good & bad & rest & e & st & -> & -> & Hmd & Hbad & Hinv & [Hi Hf])
    |(st & Hinv & [Hi Hf] & Hn & -> & Hr)]; simpl; intros Hj.
  - destruct (Hf j p Hj) as [-> Hfile]. split; [|done].
    symmetry. apply resolve_part_name. lia.
  - pose proof (add_report_frame st) as (_ & _ & _ & _ & _ & _ & Hp).
    simpl in Hp. rewrite Hp in Hj. destruct (Hf j p Hj) as [Hpath Hfile].
    split; [rewrite Hpath; symmetry; apply resolve_part_name; lia|].
    destruct (report st) as [st' o] eqn:Ha. simpl in Hr. subst o. simpl.
    by eapply add_report_files.
Qed.

Lemma part_total_lower (ps : list part) :
  Forall (fun p => 1 <= part_count p) ps -> Z.of_nat (length ps) <= part_total ps.
Proof. induction 1 as [|p ps Hp _ IH]; simpl; lia. Qed.

Lemma part_ok_units (p : part) :
  part_ok cwd output_format p -> 1 <= units p ∧ units p = part_count p.
Proof.
  intros (Hne & _ & H). unfold part_units. destruct md; destruct H as (Hc & _); lia.
Qed.

(** X1: an empty input with a limit given: the run returns the empty
    catalog; it has created the output directory and opened the input, and
    has written no file. *)
Theorem X1_empty_input (fs : gmap pystr pystr) :
  max_file_size_mb ≠ None ∨ max_objects_per_file ≠ None ->
  let r := split_json py_repr cwd input_path output_dir output_prefix max_file_size_mb
             max_objects_per_file output_format [] fs in
  snd r = inr []
  ∧ parts (fst r) = []
  ∧ files (fst r) = fs
  ∧ trace (fst r) = [EMakedirs output_dir; EOpenRead input_path]
  ∧ total_read (fst r) = 0.
Proof.
  intros Hlim. rewrite split_json_limit by done. simpl.
  rewrite write_part_empty by (unfold n_current; by destruct md). done.
Qed.

(** X2: Markdown mode with a byte limit [B] other than zero, whatever the
    count limit: every part, as it is flushed, is within [B] bytes or is
    made of a single block that is itself larger than [B]; and the file of
    every part after the first holds exactly the text that was flushed. *)
Theorem X2_md_byte_limit (B : Z) (records : list pyval) (fs : gmap pystr pystr) :
  md = true -> max_size_bytes max_file_size_mb = Some B -> B ≠ 0 ->
  let r := run records fs in
  Forall (within_limit B) (parts (fst r))
  ∧ ∀ j p, parts (fst r) !! S j = Some p ->
           files (fst r) !! part_path p = Some (part_text p).
Proof.
  intros Hmd HB HB0 r. split; [by apply run_md_size|].
  intros j p Hj.
  assert (Hlim : max_file_size_mb ≠ None ∨ max_objects_per_file ≠ None).
  { left. intros E. by rewrite E in HB. }
  destruct (run_disk records fs Hlim (S j) p Hj) as [_ Hf]. fold r in Hf.
  rewrite Hf. by destruct (snd r); rewrite ?andb_false_r.
Qed.

(** X3: JSON mode with a byte limit [B] other than zero: the records of a
    part, as the loop charges them, are within [B] bytes or the part is one
    record that is itself larger; the text written is the charge, one byte
    for each record and one more. *)
Theorem X3_json_byte_accounting (B : Z) (records : list pyval) (fs : gmap pystr pystr) :
  md = false -> max_size_bytes max_file_size_mb = Some B -> B ≠ 0 ->
  let r := run records fs in
  Forall (fun p => json_within_limit B p
                   ∧ utf8_len (part_text p)
                     = units_size (part_objects p) + part_count p + 1)
    (parts (fst r))
  ∧ ∀ j p, parts (fst r) !! j = Some p ->
           files (fst r) !! part_path p = Some (json_dump_list (part_objects p)).
Proof.
  intros Hmd HB HB0 r. split; [by apply run_json_size|].
  intros j p Hj.
  assert (Hlim : max_file_size_mb ≠ None ∨ max_objects_per_file ≠ None).
  { left. intros E. by rewrite E in HB. }
  destruct (run_disk records fs Hlim j p Hj) as [_ Hf]. fold r in Hf.
  rewrite Hf, Hmd. simpl.
  assert (part_text p = json_dump_list (part_objects p)) as ->; [|by destruct (snd r)].
  assert (Hok : Forall (part_ok cwd output_format) (parts (fst r))).
  { subst r. destruct (run_ends records fs Hlim) as
      [(good & bad & rest & e & st & -> & -> & _ & _ & Hinv & _)
      |(st & Hinv & _ & _ & -> & _)]; simpl.
    - by destruct Hinv.
    - pose proof (add_report_frame st) as (_ & _ & _ & _ & _ & _ & Hp).
      simpl in Hp. rewrite Hp. by destruct Hinv. }
  rewrite Forall_lookup in Hok. destruct (Hok j p Hj) as (_ & _ & H).
  rewrite Hmd in H. by destruct H as (_ & -> & _).
Qed.

(** X4: no part is ever empty.  Whichever way a run ends, every part
    holds one unit at least, the units of the parts and of the buffer are
    the records consumed, and so there are no more parts than records; a
    run that returns has consumed every record and left nothing in the
    buffer. *)
Theorem X4_parts_never_empty (records : list pyval) (fs : gmap pystr pystr) :
  let r := run records fs in
  Forall (fun p => 1 <= units p ∧ units p = part_count p) (parts (fst r))
  ∧ part_total (parts (fst r)) + n_of (fst r) = total_read (fst r)
  ∧ Z.of_nat (length (parts (fst r))) <= total_read (fst r) <= Z.of_nat (length records)
  ∧ (∀ paths, snd r = inr paths ->
       n_of (fst r) = 0 ∧ total_read (fst r) = Z.of_nat (length records)).
Proof.
  intros r. subst r.
  assert (Hcase : (max_file_size_mb = None ∧ max_objects_per_file = None)
                  ∨ (max_file_size_mb ≠ None ∨ max_objects_per_file ≠ None)).
  { destruct max_file_size_mb; [by right; left|].
    destruct max_objects_per_file; [by right; right|by left]. }
  destruct Hcase as [[H1 H2]|Hlim].
  { rewrite split_json_no_limit by done. simpl.
    split; [done|]. split; [unfold n_current; by destruct md|]. split; [lia|done]. }
  assert (Hgen : ∀ seen st, inv seen st ->
            Forall (fun p => 1 <= units p ∧ units p = part_count p) (parts st)
            ∧ part_total (parts st) + n_of st = total_read st
            ∧ Z.of_nat (length (parts st)) <= total_read st
            ∧ total_read st = Z.of_nat (length seen)).
  { intros seen st Hinv.
    pose proof (loop_inv_total py_repr cwd output_format seen st Hinv) as Ht.
    pose proof (n_current_nonneg output_format st) as Hn.
    destruct Hinv as [Htot _ _ _ Hok _].
    assert (Hu : Forall (fun p => 1 <= units p ∧ units p = part_count p) (parts st)).
    { eapply Forall_impl; [exact Hok|]. intros p. apply part_ok_units. }
    split; [done|]. split; [lia|]. split; [|done].
    assert (Z.of_nat (length (parts st)) <= part_total (parts st)); [|lia].
    apply part_total_lower. eapply Forall_impl; [exact Hu|]. simpl. lia. }
  destruct (run_ends records fs Hlim) as
    [(good & bad & rest & e & st & -> & -> & _ & _ & Hinv & _)
    |(st & Hinv & _ & Hn & -> & _)]; simpl.
  - destruct (Hgen _ _ Hinv) as (H1 & H2 & H3 & H4).
    split; [done|]. split; [done|]. split; [|done].
    rewrite length_app. simpl. lia.
  - pose proof (add_report_frame st) as (_ & Ho & Hb & _ & _ & Ht & Hp). simpl in *.
    destruct (Hgen _ _ Hinv) as (H1 & H2 & H3 & H4).
    assert (Hn' : n_of (fst (report st)) = n_of st).
    { unfold n_current. by rewrite Ho, Hb. }
    rewrite Hp, Ht, Hn'. split; [done|]. split; [done|]. split; [lia|].
    intros _ _. split; [done|done].
Qed.

Lemma limit_cases :
  (max_file_size_mb = None ∧ max_objects_per_file = None)
  ∨ (max_file_size_mb ≠ None ∨ max_objects_per_file ≠ None).
Proof.
  destruct max_file_size_mb; [by right; left|].
  destruct max_objects_per_file; [by right; right|by left].
Qed.

(** The state in which a run ends has the catalog and the parts of a state
    of the loop. *)
Lemma run_final_inv (records : list pyval) (fs : gmap pystr pystr) :
  max_file_size_mb ≠ None ∨ max_objects_per_file ≠ None ->
  ∃ seen st, inv seen st ∧ finv st
             ∧ parts (fst (run records fs)) = parts st
             ∧ created_files (fst (run records fs)) = created_files st.
Proof.
  intros Hlim. destruct (run_ends records fs Hlim) as
    [(good & bad & rest & e & st & -> & -> & _ & _ & Hinv & Hf)
    |(st & Hinv & Hf & _ & -> & _)]; simpl.
  - by exists good, st.
  - pose proof (add_report_frame st) as (Hc & _ & _ & _ & _ & _ & Hp).
    by exists records, st.
Qed.

Lemma seq_snoc (a n : nat) : seq a (S n) = seq a n ++ [(a + n)%nat].
Proof. by rewrite seq_S. Qed.

Lemma part_paths_seq (ps : list part) :
  (∀ j p, ps !! j = Some p -> part_path p = resolve cwd (name (Z.of_nat j + 1))) ->
  map part_path ps
  = map (fun i => resolve cwd (name (Z.of_nat i))) (seq 1 (length ps)).
Proof.
  induction ps as [|p ps IH] using rev_ind; intros Hf; [done|].
  rewrite length_app, Nat.add_1_r, seq_snoc, !map_app, IH. simpl.
  - f_equal. f_equal. rewrite (Hf (length ps) p).
    + do 3 f_equal. lia.
    + by rewrite lookup_app_r, Nat.sub_diag by lia.
  - intros j q Hj. apply Hf. by apply lookup_app_l_Some.
Qed.

Lemma finv_catalog (st : state) :
  finv st ->
  map part_path (parts st)
  = map (fun i => resolve cwd (name (Z.of_nat i))) (seq 1 (length (parts st))).
Proof.
  intros [_ Hf]. apply part_paths_seq. intros j p Hj. destruct (Hf j p Hj) as [-> _].
  symmetry. apply resolve_part_name. lia.
Qed.

(** X5: the catalog holds the absolute paths of the files
    [prefix_1], [prefix_2], ... with the extension of the format, joined to
    the output directory, in this order and without a gap; no path occurs
    twice; and the list that a run returns is this catalog. *)
Theorem X5_catalog_names (records : list pyval) (fs : gmap pystr pystr) :
  let r := run records fs in
  created_files (fst r)
  = map (fun i => posixpath.abspath cwd
                    (posixpath.join output_dir
                       (output_prefix ++ u "_" ++ str_int (Z.of_nat i) ++ ext output_format)))
        (seq 1 (length (parts (fst r))))
  ∧ NoDup (created_files (fst r))
  ∧ (∀ paths, snd r = inr paths -> paths = created_files (fst r)).
Proof.
  intros r. subst r. destruct limit_cases as [[H1 H2]|Hlim].
  { rewrite split_json_no_limit by done. simpl. split; [done|]. split; [constructor|done]. }
  assert (Hret : ∀ paths, snd (run records fs) = inr paths
                          -> paths = created_files (fst (run records fs))).
  { destruct (run_ends records fs Hlim) as
      [(good & bad & rest & e & st & -> & -> & _)|(st & _ & _ & _ & -> & _)]; simpl; [done|].
    pose proof (add_report_frame st) as (Hc & _). simpl in Hc. rewrite Hc.
    by intros paths [= <-]. }
  split; [|split; [|done]]; clear Hret;
    destruct (run_final_inv records fs Hlim) as (seen & st & Hinv & Hf & Hp & Hc);
    pose proof (finv_catalog st Hf) as Hcat;
    rewrite ?Hp, ?Hc, (inv_catalog _ _ _ _ _ Hinv), Hcat; [reflexivity|].
  apply NoDup_fmap_2_strong; [|apply NoDup_seq].
  intros i j [_ Hi]%elem_of_seq [_ Hj]%elem_of_seq.
  rewrite !resolve_part_name by lia. intros E%part_path_inj. lia.
Qed.

(** The path of the temporary file is the path of no part. *)
Lemma tmp_path_fresh (first : pystr) (i : Z) :
  md = true -> 0 <= i ->
  resolve cwd (resolve cwd first ++ u ".tmp") ≠ resolve cwd (name i).
Proof.
  intros Hmd Hi. unfold resolve at 1 2. rewrite posixpath_suffix.abspath_tmp.
  rewrite resolve_part_name by done. unfold ext. rewrite Hmd.
  intros E. apply (f_equal last) in E.
  rewrite (app_assoc _ _ (u ".md")) in E.
  change (u ".tmp") with (46%N :: u "tmp") in E.
  change (u ".md") with (46%N :: u "md") in E.
  rewrite !last_app_cons in E. done.
Qed.

(** X6: a run changes no file but those of its catalog and, in Markdown
    mode, the temporary file of the report: at every other path the file
    system holds at the end what it held at the start, whichever way the run
    ends. *)
Theorem X6_other_files_untouched (records : list pyval) (fs : gmap pystr pystr)
    (path : pystr) :
  let r := run records fs in
  path ∉ created_files (fst r) ->
  match created_files (fst r) with
  | first :: _ => path ≠ posixpath.abspath cwd (first ++ u ".tmp")
  | [] => True
  end ->
  files (fst r) !! path = fs !! path.
Proof.
  intros r. subst r. destruct limit_cases as [[H1 H2]|Hlim].
  { by rewrite split_json_no_limit. }
  set (I := fun (_ : list pyval) (st : state) =>
              ∀ p, p ∉ created_files st -> files st !! p = fs !! p).
  assert (Hwp : ∀ st, I [] st -> I [] (wp st)).
  { intros st HI p. unfold write_part. destruct (n_of st =? 0); [apply HI|]. simpl.
    intros [Hp Hne%not_elem_of_cons]%not_elem_of_app. destruct Hne as [Hne _].
    rewrite lookup_insert_ne by done. by apply HI. }
  destruct (run_outcome I records fs Hlim) as
    [(good & bad & rest & e & st & -> & -> & _ & _ & _ & _ & HI)
    |(st & Hinv & _ & HI & _ & -> & _)]; simpl.
  - done.
  - intros seen st _ _ HI. by apply Hwp.
  - intros seen st obj c sz _ _ _ _ HI. exact HI.
  - intros Hp _. by apply HI.
  - pose proof (add_report_frame st) as (Hc & _). simpl in Hc. rewrite Hc.
    intros Hp Htmp. unfold add_report in *.
    destruct (created_files st) as [|first rest] eqn:Hcf; [by apply HI; rewrite Hcf|].
    destruct md; [|by apply HI; rewrite Hcf].
    assert (Hres : resolve cwd first = first).
    { pose proof (inv_catalog _ _ _ _ _ Hinv) as Hcat.
      pose proof (inv_parts _ _ _ _ _ Hinv) as Hok. rewrite Hcf in Hcat.
      destruct (parts st) as [|p0 ps]; [done|]. injection Hcat as -> _.
      by inversion Hok as [|? ? (_ & ? & _) _]. }
    destruct (files st !! resolve cwd first); simpl; [|by apply HI; rewrite Hcf].
    apply not_elem_of_cons in Hp as Hp'. destruct Hp' as [Hne _].
    rewrite Hres, lookup_insert_ne, lookup_delete_ne, lookup_insert_ne by done.
    apply HI. by rewrite Hcf.
Qed.

(** X7: a Markdown run that returns a catalog that is not empty leaves no
    file at the path of the temporary file, whatever that path held
    before. *)
Theorem X7_temporary_file_removed (records : list pyval) (fs : gmap pystr pystr)
    (first : pystr) (rest : list pystr) :
  md = true ->
  snd (run records fs) = inr (first :: rest) ->
  files (fst (run records fs)) !! posixpath.abspath cwd (first ++ u ".tmp") = None.
Proof.
  intros Hmd. destruct limit_cases as [[H1 H2]|Hlim].
  { by rewrite split_json_no_limit. }
  destruct (run_ends records fs Hlim) as
    [(good & bad & rest' & e & st & -> & -> & _)
    |(st & Hinv & [Hi Hf] & _ & -> & Hr)]; simpl; [done|].
  intros Hcf. injection Hcf as Hcf.
  pose proof (inv_catalog _ _ _ _ _ Hinv) as Hcat.
  pose proof (inv_parts _ _ _ _ _ Hinv) as Hok. rewrite Hcf in Hcat.
  destruct (parts st) as [|p0 ps] eqn:Hparts; [done|]. injection Hcat as -> _.
  destruct (Hf 0%nat p0 eq_refl) as [Hpath Hfile].
  assert (Hres : resolve cwd (part_path p0) = part_path p0).
  { by inversion Hok as [|? ? (_ & ? & _) _]. }
  unfold add_report. rewrite Hcf, Hmd, Hres, Hfile. simpl.
  assert (Hne : resolve cwd (part_path p0 ++ u ".tmp") ≠ part_path p0).
  { rewrite <- Hres at 1. rewrite Hpath at 2.
    rewrite <- (resolve_part_name cwd output_dir output_prefix output_format) by lia.
    apply tmp_path_fresh; [done|lia]. }
  fold (resolve cwd (part_path p0 ++ u ".tmp")).
  rewrite lookup_insert_ne by done. by rewrite lookup_delete_eq.
Qed.

(** The first record that cannot be rendered is where a list splits. *)
Lemma first_failure_unique (g1 g2 : list pyval) (b1 b2 : pyval) (r1 r2 : list pyval) :
  g1 ++ b1 :: r1 = g2 ++ b2 :: r2 ->
  forallb (renders py_repr) g1 = true -> renders py_repr b1 = false ->
  forallb (renders py_repr) g2 = true -> renders py_repr b2 = false ->
  g1 = g2 ∧ b1 = b2 ∧ r1 = r2.
Proof.
  revert g2. induction g1 as [|x g1 IH]; intros [|y g2]; simpl.
  - by intros [= -> ->].
  - intros [= <- _] _ Hb1 [Hy _]%andb_true_iff _. congruence.
  - intros [= -> _] [Hx _]%andb_true_iff _ _ Hb2. congruence.
  - intros [= <- E] [_ H1]%andb_true_iff Hb1 [_ H2]%andb_true_iff Hb2.
    destruct (IH g2 E H1 Hb1 H2 Hb2) as (-> & -> & ->). done.
Qed.

Lemma inv_renders (seen : list pyval) (st : state) :
  md = true -> inv seen st -> forallb (renders py_repr) seen = true.
Proof.
  intros Hmd Hinv. pose proof (inv_units _ _ _ _ _ Hinv) as Hu. rewrite Hmd in Hu.
  destruct Hu as [Hu _]. apply forallb_forall. intros obj Hin.
  apply (in_map (obj_to_md py_repr)) in Hin. rewrite <- Hu in Hin.
  apply in_map_iff in Hin as (c & Hc & _). unfold renders. by rewrite <- Hc.
Qed.

(** X8: a Markdown run stops at the first record that cannot be rendered
    and raises what that record raises.  The parts flushed until then stay
    as they were written, without a report in the first one; the units of
    the parts and of the buffer, which is not flushed, are the blocks of the
    records before that one. *)
Theorem X8_aborted_run (good : list pyval) (bad : pyval) (rest : list pyval) (e : exn)
    (fs : gmap pystr pystr) :
  md = true ->
  max_file_size_mb ≠ None ∨ max_objects_per_file ≠ None ->
  forallb (renders py_repr) good = true ->
  obj_to_md py_repr bad = inl e ->
  let r := run (good ++ bad :: rest) fs in
  snd r = inl e
  ∧ total_read (fst r) = Z.of_nat (length good)
  ∧ map inr (concat (map part_md_blocks (parts (fst r))) ++ current_md_blocks (fst r))
    = map (obj_to_md py_repr) good
  ∧ created_files (fst r) = map part_path (parts (fst r))
  ∧ ∀ j p, parts (fst r) !! j = Some p ->
           files (fst r) !! part_path p = Some (str_join sep (part_md_blocks p)).
Proof.
  intros Hmd Hlim Hgood Hbad r. subst r.
  assert (Hb : renders py_repr bad = false) by (unfold renders; by rewrite Hbad).
  destruct (run_ends (good ++ bad :: rest) fs Hlim) as
    [(good' & bad' & rest' & e' & st & Heq & -> & _ & Hbad' & Hinv & [Hi Hf])
    |(st & Hinv & _)]; simpl.
  - assert (Hb' : renders py_repr bad' = false) by (unfold renders; by rewrite Hbad').
    destruct (first_failure_unique _ _ _ _ _ _ Heq Hgood Hb (inv_renders _ _ Hmd Hinv) Hb')
      as (<- & <- & <-).
    split; [congruence|]. split; [by destruct Hinv|].
    pose proof (inv_units _ _ _ _ _ Hinv) as Hu. rewrite Hmd in Hu.
    split; [by destruct Hu|]. split; [by destruct Hinv|].
    intros j p Hj. destruct (Hf j p Hj) as [_ ->].
    pose proof (inv_parts _ _ _ _ _ Hinv) as Hok. rewrite Forall_lookup in Hok.
    destruct (Hok j p Hj) as (_ & _ & H). rewrite Hmd in H. by destruct H as (_ & -> & _).
  - apply (inv_renders _ _ Hmd) in Hinv. rewrite forallb_app in Hinv. simpl in Hinv.
    rewrite Hb, andb_false_r in Hinv. done.
Qed.

(** The operations of the loop: one write for each part, in order. *)
Lemma imap_snoc {A B} (f : nat -> A -> B) (l : list A) (x : A) :
  imap f (l ++ [x]) = imap f l ++ [f (length l) x].
Proof. rewrite imap_app. simpl. by rewrite Nat.add_0_r. Qed.

(** X9: the operations that a run with a limit asks of the file system,
    in order: the output directory is created, the input is opened, each
    part is written once, under the name of its index; and a Markdown run
    that returns with a part then reads the first part, writes the temporary
    file and moves it over the first part.  There is no other operation. *)
Theorem X9_operations (records : list pyval) (fs : gmap pystr pystr) :
  max_file_size_mb ≠ None ∨ max_objects_per_file ≠ None ->
  let r := run records fs in
  trace (fst r)
  = [EMakedirs output_dir; EOpenRead input_path]
    ++ imap (fun j p => EWrite (name (Z.of_nat j + 1)) (part_text p)) (parts (fst r))
    ++ match snd r, parts (fst r) with
       | inr _, p :: _ =>
           if md then
             let tmp_path := part_path p ++ u ".tmp" in
             [EOpenRead (part_path p);
              EWrite tmp_path (report_line (Z.of_nat (length records)) ++ sep
                                 ++ copy_lines (part_text p));
              EReplace tmp_path (part_path p)]
           else []
       | _, _ => []
       end.
Proof.
  intros Hlim r. subst r.
  set (f := fun (j : nat) (p : part) => EWrite (name (Z.of_nat j + 1)) (part_text p)).
  set (I := fun (_ : list pyval) (st : state) =>
              trace st = [EMakedirs output_dir; EOpenRead input_path] ++ imap f (parts st)).
  destruct (run_outcome I records fs Hlim) as
    [(good & bad & rest & e & st & -> & -> & _ & _ & _ & _ & HI)
    |(st & Hinv & [Hi Hf] & HI & _ & -> & Hr)]; simpl.
  - done.
  - intros seen st _ [Hi _] HI. unfold I, write_part in *.
    destruct (n_of st =? 0); [done|]. simpl.
    rewrite HI, imap_snoc, <- !app_assoc. simpl. do 4 f_equal. unfold f. simpl.
    f_equal. f_equal. lia.
  - intros seen st obj c sz _ _ _ _ HI. exact HI.
  - by rewrite HI, app_nil_r.
  - pose proof (add_report_frame st) as (_ & _ & _ & _ & _ & _ & Hp). simpl in Hp.
    rewrite Hp. unfold I in HI.
    pose proof (inv_catalog _ _ _ _ _ Hinv) as Hcat.
    pose proof (inv_total _ _ _ _ _ Hinv) as Htot.
    pose proof (inv_parts _ _ _ _ _ Hinv) as Hok.
    unfold add_report in *. rewrite Hcat in *.
    destruct (parts st) as [|p0 ps] eqn:Hparts.
    { cbn [map fst snd]. by rewrite HI. }
    cbn [map] in *. destruct md.
    2:{ cbn [fst snd]. by rewrite HI, app_nil_r. }
    destruct (Hf 0%nat p0 eq_refl) as [_ Hfile].
    assert (Hres : resolve cwd (part_path p0) = part_path p0).
    { by inversion Hok as [|? ? (_ & ? & _) _]. }
    rewrite Hres, Hfile in *. cbn [fst snd trace]. rewrite HI, Htot, <- app_assoc.
    reflexivity.
Qed.

Lemma limit_and_negative (l : Z) (test : Z -> bool) :
  l < 0 -> limit_and (Some l) test = test l.
Proof. intros H. unfold limit_and. by destruct (Z.eqb_spec l 0); [lia|]. Qed.

(** With a negative limit the buffer is empty whenever a unit is added. *)
Lemma flushes_negative (sz : Z) (st : state) :
  (∃ C, max_objects_per_file = Some C ∧ C < 0)
  ∨ (∃ B, max_size_bytes max_file_size_mb = Some B ∧ B < 0) ->
  0 <= current_size st ->
  n_of (flushes' sz st) = 0.
Proof.
  intros Hneg Hsz. unfold flushes.
  set (st1 := flush_if_full _ _ _ _ _ st).
  set (st2 := flush_if_no_room _ _ _ _ _ _ st1).
  destruct Hneg as [(C & HC & Hlt)|(B & HB & Hlt)].
  - unfold flush_if_count, count_reached. rewrite HC, limit_and_negative by done.
    pose proof (n_current_nonneg output_format st2).
    destruct (Z.leb_spec C (n_of st2)); [apply n_current_write_part|lia].
  - assert (H1 : n_of st1 = 0).
    { subst st1. unfold flush_if_full, size_reached. rewrite HB, limit_and_negative by done.
      destruct (Z.leb_spec B (current_size st)); [apply n_current_write_part|lia]. }
    assert (H2 : n_of st2 = 0).
    { subst st2. unfold flush_if_no_room.
      destruct (no_room_for _ _ _ st1); [apply n_current_write_part|done]. }
    unfold flush_if_count.
    destruct (count_reached _ _ st2); [apply n_current_write_part|done].
Qed.

(** X10: [split_json] itself accepts a negative limit.  With a negative
    count limit, or a byte limit that comes to a negative number of bytes,
    the buffer is flushed before every record: each part holds exactly one
    unit, and a run that returns has written as many parts as there are
    records. *)
Theorem X10_negative_limit (records : list pyval) (fs : gmap pystr pystr) :
  (∃ C, max_objects_per_file = Some C ∧ C < 0)
  ∨ (∃ B, max_size_bytes max_file_size_mb = Some B ∧ B < 0) ->
  let r := run records fs in
  Forall (fun p => units p = 1) (parts (fst r))
  ∧ (∀ paths, snd r = inr paths -> length paths = length records).
Proof.
  intros Hneg r. subst r.
  assert (Hlim : max_file_size_mb ≠ None ∨ max_objects_per_file ≠ None).
  { destruct Hneg as [(C & HC & _)|(B & HB & _)]; [right|left]; intros E; by rewrite E in *. }
  set (I := fun (_ : list pyval) (st : state) =>
              n_of st <= 1 ∧ Forall (fun p => part_count p = 1) (parts st)).
  assert (Hcount : ∀ seen st, inv seen st -> I seen st ->
            Forall (fun p => units p = 1) (parts st)
            ∧ (n_of st = 0 -> length (created_files st) = length seen)).
  { intros seen st Hinv [Hn Hall].
    pose proof (loop_inv_total py_repr cwd output_format seen st Hinv) as Ht.
    pose proof (inv_catalog _ _ _ _ _ Hinv) as Hcat.
    pose proof (inv_parts _ _ _ _ _ Hinv) as Hok. split.
    - rewrite Forall_lookup in Hok, Hall |- *. intros j p Hj.
      destruct (part_ok_units p (Hok j p Hj)) as [_ ->]. by apply (Hall j p).
    - intros H0. rewrite Hcat, length_map.
      rewrite (part_total_full 1) in Ht by done. lia. }
  destruct (run_outcome I records fs Hlim) as
    [(good & bad & rest & e & st & -> & -> & _ & _ & Hinv & _ & HI)
    |(st & Hinv & _ & HI & Hn & -> & _)]; simpl.
  - split; [|constructor]. unfold n_current. simpl. destruct md; lia.
  - intros seen st Hinv _ [Hn Hall]. unfold I, write_part.
    pose proof (n_current_nonneg output_format st).
    destruct (Z.eqb_spec (n_of st) 0) as [E|E]; [by split|]. simpl.
    split; [unfold n_current; simpl; destruct md; simpl; lia|].
    apply Forall_app. split; [done|]. constructor; [simpl; lia|done].
  - intros seen st obj c sz Hinv _ _ _ [_ Hall]. split; [|done].
    rewrite n_current_append, flushes_negative; [lia|done|by destruct Hinv].
  - split; [by apply (Hcount good st)|done].
  - pose proof (add_report_frame st) as (_ & _ & _ & _ & _ & _ & Hp). simpl in Hp.
    rewrite Hp. destruct (Hcount records st Hinv HI) as [H1 H2].
    split; [done|]. intros paths [= <-]. by apply H2.
Qed.

End RunOutcome.

(** ** The normalizer, further *)

Lemma split_ws_app_word (acc w s : pystr) :
  Forall (fun c => isspace c = false) w -> split_ws acc (w ++ s) = split_ws (acc ++ w) s.
Proof.
  intros Hw. revert acc. induction Hw as [|c w Hc _ IH]; intros acc; simpl.
  - by rewrite app_nil_r.
  - rewrite Hc, IH. by rewrite <- app_assoc.
Qed.

Lemma split_ws_space (w s : pystr) :
  w ≠ [] -> split_ws w (32%N :: s) = w :: split_ws [] s.
Proof. intros Hne. simpl. by destruct w. Qed.

Lemma words_join (ws : list pystr) :
  Forall is_word ws -> words (str_join [32%N] ws) = ws.
Proof.
  unfold words. induction 1 as [|w ws [Hne Hw] Hws IH]; [done|].
  destruct ws as [|w' ws].
  - simpl. pose proof (split_ws_app_word [] w [] Hw) as E. rewrite app_nil_r in E.
    rewrite E. simpl. by destruct w.
  - change (str_join [32%N] (w :: w' :: ws)) with (w ++ 32%N :: str_join [32%N] (w' :: ws)).
    rewrite split_ws_app_word by done. simpl app.
    rewrite split_ws_space by done. by rewrite IH.
Qed.

Lemma lstrip_suffix (s : pystr) : ∃ p, s = p ++ lstrip s.
Proof.
  induction s as [|c s [p IH]]; [by exists []|]. simpl.
  destruct (isspace c); [|by exists []]. exists (c :: p). simpl. by rewrite <- IH.
Qed.

Lemma rstrip_prefix (s : pystr) : ∃ q, s = rstrip s ++ q.
Proof.
  unfold rstrip. destruct (lstrip_suffix (rev s)) as [p Hp].
  exists (rev p). rewrite <- rev_app_distr, <- Hp. by rewrite rev_involutive.
Qed.

Lemma ws_sub_utf8_len (b : bool) (s : pystr) : utf8_len (ws_sub b s) <= utf8_len s.
Proof.
  revert b. induction s as [|c s IH]; intros b; [done|]. simpl ws_sub.
  pose proof (utf8_char_len_bounds c). pose proof (utf8_len_nonneg s).
  pose proof (IH true). pose proof (IH false).
  assert (utf8_char_len 32 = 1) as H32 by done.
  destruct (isspace c); [destruct b|]; rewrite ?utf8_len_cons, ?H32; lia.
Qed.

Lemma ws_sub_length (b : bool) (s : pystr) : (length (ws_sub b s) <= length s)%nat.
Proof.
  revert b. induction s as [|c s IH]; intros b; [done|]. simpl.
  pose proof (IH true). pose proof (IH false).
  destruct (isspace c); [destruct b|]; simpl; lia.
Qed.

Lemma strip_parts (s : pystr) : ∃ p q, s = p ++ strip s ++ q.
Proof.
  unfold strip. destruct (lstrip_suffix s) as [p Hp].
  destruct (rstrip_prefix (lstrip s)) as [q Hq]. exists p, q. by rewrite <- Hq.
Qed.

Lemma words_nil_iff (s : pystr) : words s = [] ↔ forallb isspace s = true.
Proof.
  destruct (words_spec s) as [Hw Hc]. split.
  - intros E. rewrite E in Hc. simpl in Hc. apply forallb_forall. intros c Hin.
    destruct (isspace c) eqn:Hs; [done|]. exfalso.
    assert (c ∈ filter (fun c => isspace c = false) s) as Hin'.
    { apply list_elem_of_filter. split; [done|]. by apply list_elem_of_In. }
    rewrite <- Hc in Hin'. by apply elem_of_nil in Hin'.
  - intros Hall. destruct (words s) as [|w ws]; [done|]. exfalso.
    inversion Hw as [|? ? [Hne Hw'] _]; subst. destruct w as [|c w]; [done|].
    assert (c ∈ filter (fun c => isspace c = false) s) as Hin.
    { rewrite <- Hc. simpl. by left. }
    apply list_elem_of_filter in Hin as [Hs Hin%list_elem_of_In].
    rewrite forallb_forall in Hall. specialize (Hall c Hin). congruence.
Qed.

(** X12: normalising a text twice is normalising it once; the result is
    empty exactly when the text holds nothing but whitespace; and it is
    never longer than the text, in characters or in bytes of UTF-8. *)
Theorem X12_normalize_idempotent (s : pystr) :
  _normalize_text (_normalize_text s) = _normalize_text s
  ∧ (_normalize_text s = [] ↔ forallb isspace s = true)
  ∧ (length (_normalize_text s) <= length s)%nat
  ∧ utf8_len (_normalize_text s) <= utf8_len s.
Proof.
  destruct (words_spec s) as [Hw Hc]. split; [|split; [|split]].
  - rewrite !_normalize_text_words. by rewrite words_join.
  - rewrite _normalize_text_words, <- words_nil_iff. split.
    + by apply str_join_words_nil.
    + by intros ->.
  - unfold _normalize_text. case_bool_decide; [simpl; lia|].
    destruct (strip_parts (ws_sub false s)) as (p & q & Hpq).
    pose proof (ws_sub_length false s) as Hl. rewrite Hpq, !length_app in Hl. lia.
  - unfold _normalize_text. case_bool_decide; [apply utf8_len_nonneg|].
    destruct (strip_parts (ws_sub false s)) as (p & q & Hpq).
    pose proof (ws_sub_utf8_len false s) as Hl. rewrite Hpq, !utf8_len_app in Hl.
    pose proof (utf8_len_nonneg p). pose proof (utf8_len_nonneg q). lia.
Qed.

Section Failure.

Variable py_repr : pyval -> pystr.

Lemma record_text_fails (d : list (pystr * pyval)) (e : exn) :
  record_text_with (entity_text py_repr) d = inl e
  ↔ e = TypeError
    ∧ present (dict_get d (u "text")) = None
    ∧ ∃ v, dict_get d (u "text_entities") = Some v ∧ truthy v = true
           ∧ match v with
             | PBool _ | PInt _ => True
             | _ => False
             end.
Proof.
  unfold record_text_with.
  destruct (present (dict_get d (u "text"))) as [t|]; [split; [done|by intros (_ & ? & _)]|].
  destruct (dict_get d (u "text_entities")) as [v|]; simpl.
  2:{ split; [done|]. by intros (_ & _ & v & ? & _). }
  destruct (truthy v) eqn:Hv.
  2:{ split; [done|]. intros (_ & _ & v' & [= <-] & Ht & _). congruence. }
  destruct v; simpl; try done.
  all: split; [try done|try (by intros (_ & _ & v' & [= <-] & _ & [])); try (by intros [-> _])].
  all: intros [= <-]; split; [done|]; split; [done|]; by eexists.
Qed.

(** X13: the records that cannot be rendered.  [obj_to_md] raises on a
    record that is not a mapping ([AttributeError]) and on a mapping without
    a true [text] whose [text_entities] is [True] or a number other than
    zero, which cannot be iterated ([TypeError]); on every other record it
    returns a block.  The flat line of [json_to_txt] raises on the same
    records, the same exception. *)
Theorem X13_records_that_fail (obj : pyval) (e : exn) :
  (obj_to_md py_repr obj = inl e
   ↔ match obj with
     | PDict d =>
         e = TypeError
         ∧ present (dict_get d (u "text")) = None
         ∧ ∃ v, dict_get d (u "text_entities") = Some v ∧ truthy v = true
                ∧ match v with
                  | PBool _ | PInt _ => True
                  | _ => False
                  end
     | _ => e = AttributeError
     end)
  ∧ (json_to_txt_chat py_repr obj = inl e ↔ obj_to_md py_repr obj = inl e).
Proof.
  destruct obj as [| | | | |d]; try (split; split; simpl; congruence).
  rewrite obj_to_md_spec, json_to_txt_chat_spec, <- record_text_fails.
  destruct (record_text_with (entity_text py_repr) d); simpl; split; split; congruence.
Qed.

End Failure.

(** ** The JSON texts *)

(** Induction on a value and on the values inside it. *)
Lemma pyval_nested_ind (P : pyval -> Prop) :
  P PNone -> (∀ b, P (PBool b)) -> (∀ n, P (PInt n)) -> (∀ s, P (PStr s)) ->
  (∀ l, Forall P l -> P (PList l)) ->
  (∀ d, Forall (fun kv => P (snd kv)) d -> P (PDict d)) ->
  ∀ v, P v.
Proof.
  intros HN HB HI HS HL HD. fix IH 1.
  intros [|b|n|s|l|d]; [apply HN|apply HB|apply HI|apply HS| |].
  - apply HL. induction l as [|x l IHl]; constructor; [apply IH|apply IHl].
  - apply HD. induction d as [|[k x] d IHd]; constructor; [apply IH|apply IHd].
Qed.

(** No control character, so no line break. *)
Abbreviation plain s := (Forall (fun c : N => (32 <= c)%N) s).

Lemma str_int_plain (n : Z) : plain (str_int n).
Proof.
  assert (Hd : ∀ d, plain (u (NilZero.string_of_uint d))).
  { intros d. unfold NilZero.string_of_uint.
    assert (plain (u (NilEmpty.string_of_uint d))) as H.
    { eapply Forall_impl; [apply string_of_uint_digits|]. unfold is_digit. simpl. lia. }
    destruct d; try exact H. by repeat constructor. }
  unfold str_int. destruct n as [|p|p]; simpl.
  - by repeat constructor.
  - apply Hd.
  - constructor; [done|]. apply Hd.
Qed.

Lemma hex_digit_plain (d : N) : (32 <= hex_digit d)%N.
Proof. unfold hex_digit. destruct (d <? 10)%N; lia. Qed.

Lemma json_escape_char_plain (c : N) : plain (json_escape_char c).
Proof.
  unfold json_escape_char.
  repeat (match goal with |- context [if ?b then _ else _] => destruct b eqn:? end);
    try by repeat constructor.
  - repeat (constructor; [try done; apply hex_digit_plain|]). constructor.
  - constructor; [|constructor]. apply N.ltb_ge. done.
Qed.

Lemma json_string_plain (s : pystr) : plain (json_string s).
Proof.
  unfold json_string. apply Forall_app. split; [by repeat constructor|].
  apply Forall_app. split; [|by repeat constructor].
  induction s as [|c s IH]; [constructor|]. simpl. apply Forall_app. split; [|done].
  apply json_escape_char_plain.
Qed.

Lemma str_join_plain (sp : pystr) (l : list pystr) :
  plain sp -> Forall (fun s => plain s) l -> plain (str_join sp l).
Proof.
  intros Hsp. induction 1 as [|a l Ha Hl IH]; [constructor|].
  destruct l as [|b l]; [done|].
  change (str_join sp (a :: b :: l)) with (a ++ sp ++ str_join sp (b :: l)).
  apply Forall_app. split; [done|]. apply Forall_app. by split.
Qed.

Lemma json_dumps_with_plain (item_sep key_sep : pystr) (v : pyval) :
  plain item_sep -> plain key_sep -> plain (json_dumps_with item_sep key_sep v).
Proof.
  intros Hi Hk. induction v as [|b|n|s|l IH|d IH] using pyval_nested_ind.
  - by repeat constructor.
  - destruct b; by repeat constructor.
  - apply str_int_plain.
  - apply json_string_plain.
  - change (json_dumps_with item_sep key_sep (PList l))
      with ([91%N] ++ str_join item_sep (map (json_dumps_with item_sep key_sep) l) ++ [93%N]).
    apply Forall_app. split; [by repeat constructor|].
    apply Forall_app. split; [|by repeat constructor].
    apply str_join_plain; [done|]. by apply Forall_map.
  - change (json_dumps_with item_sep key_sep (PDict d))
      with ([123%N]
            ++ str_join item_sep
                 (map (fun kv => json_string (fst kv) ++ key_sep
                                   ++ json_dumps_with item_sep key_sep (snd kv)) d)
            ++ [125%N]).
    apply Forall_app. split; [by repeat constructor|].
    apply Forall_app. split; [|by repeat constructor].
    apply str_join_plain; [done|]. apply Forall_map.
    eapply Forall_impl; [exact IH|]. intros [k x] Hx.
    apply Forall_app. split; [apply json_string_plain|]. apply Forall_app. by split.
Qed.

Lemma plain_no_newline (s : pystr) : plain s -> 10%N ∉ s.
Proof. intros H Hin. rewrite Forall_forall in H. apply H in Hin. lia. Qed.

Section JsonParts.

Variable py_repr : pyval -> pystr.
Variable cwd : pystr.
Variables input_path output_dir output_prefix : pystr.
Variable max_file_size_mb : option Q.
Variable max_objects_per_file : option Z.
Variable output_format : pystr.

Abbreviation md := (is_md output_format).
Abbreviation run := (split_json py_repr cwd input_path output_dir output_prefix max_file_size_mb
                   max_objects_per_file output_format).

(** X14: a part of JSON mode is a single line: the text written holds no
    control character (one inside a string is written as an escape), so no
    line break; and the file of the part holds that text. *)
Theorem X14_json_part_one_line (records : list pyval) (fs : gmap pystr pystr) :
  md = false ->
  let r := run records fs in
  ∀ j p, parts (fst r) !! j = Some p ->
    files (fst r) !! part_path p = Some (part_text p)
    ∧ part_text p = json_dump_list (part_objects p)
    ∧ Forall (fun c => (32 <= c)%N) (part_text p)
    ∧ lines_of (part_text p) = [part_text p].
Proof.
  intros Hmd r j p Hj. subst r.
  destruct (limit_cases max_file_size_mb max_objects_per_file) as [[H1 H2]|Hlim].
  { rewrite split_json_no_limit in Hj by done. simpl in Hj. by rewrite lookup_nil in Hj. }
  destruct (run_disk py_repr cwd input_path output_dir output_prefix max_file_size_mb
              max_objects_per_file output_format records fs Hlim j p Hj) as [_ Hf].
  rewrite Hmd in Hf. simpl in Hf.
  assert (Hfile : files (fst (run records fs)) !! part_path p = Some (part_text p)).
  { rewrite Hf. by destruct (snd (run records fs)). }
  destruct (run_final_inv py_repr cwd input_path output_dir output_prefix max_file_size_mb
              max_objects_per_file output_format records fs Hlim)
    as (seen & st & Hinv & _ & Hp & _).
  pose proof (inv_parts _ _ _ _ _ Hinv) as Hok. rewrite <- Hp, Forall_lookup in Hok.
  destruct (Hok j p Hj) as (Hne & _ & H). rewrite Hmd in H. destruct H as (Hc & Ht & _).
  assert (Hplain : Forall (fun c => (32 <= c)%N) (part_text p)).
  { rewrite Ht. by apply json_dumps_with_plain; repeat constructor. }
  split; [done|]. split; [done|]. split; [done|].
  apply lines_of_single; [by rewrite Ht|by apply plain_no_newline].
Qed.

End JsonParts.

(** ** The output of the flat export *)

Section FlatExportFacts.

Variable py_repr : pyval -> pystr.
Variable cwd : pystr.
Variable input_path : pystr.
Variable output_path : option pystr.
Variable output_dir : pystr.
Variable format_ : pystr.

Abbreviation export := (json_to_txt py_repr cwd input_path output_path output_dir format_).
Abbreviation out := (posixpath.abspath cwd (txt_output_path input_path output_path output_dir)).
Abbreviation line := (txt_line py_repr format_).
Abbreviation loop := (txt_loop py_repr format_).

Lemma txt_loop_app (good : list pyval) (lines : list pystr) (rest : list pyval)
    (written : pystr) :
  map line good = map inr lines ->
  loop (good ++ rest) written = loop rest (written ++ concat lines).
Proof.
  revert lines written. induction good as [|obj good IH]; intros [|l lines] written; try done.
  - intros _. simpl. by rewrite app_nil_r.
  - simpl. intros [= Hl Hm]. rewrite Hl, (IH lines) by done. by rewrite <- app_assoc.
Qed.

(** An export over records that can all be written. *)
Lemma export_returns (records : list pyval) (lines : list pystr) (fs : gmap pystr pystr) :
  map line records = map inr lines ->
  snd (export records fs) = inr out
  ∧ txt_files (fst (export records fs)) !! out = Some (concat lines).
Proof.
  intros Hm. unfold json_to_txt.
  rewrite <- (app_nil_r records), (txt_loop_app records lines [] []) by done. simpl.
  split; [done|]. unfold resolve. by rewrite lookup_insert_eq.
Qed.

(** X15: in any format but [chat], and for records without a number that
    has a fraction, [json_to_txt] writes one line for each record, in order:
    the JSON text of the record, which holds no control character and so no
    line break, and a newline.  It does not raise, and returns the absolute
    path of the file that holds these lines. *)
Theorem X15_jsonl_one_record_per_line (records : list pyval) (fs : gmap pystr pystr) :
  format_ ≠ u "chat" ->
  let r := export records fs in
  let texts := map json_dumps_default records in
  snd r = inr out
  ∧ txt_files (fst r) !! out = Some (concat (map (fun t => t ++ [10%N]) texts))
  ∧ lines_of (concat (map (fun t => t ++ [10%N]) texts)) = map (fun t => t ++ [10%N]) texts
  ∧ Forall (fun t => Forall (fun c => (32 <= c)%N) t) texts.
Proof.
  intros Hf r texts.
  assert (Hplain : Forall (fun t => Forall (fun c => (32 <= c)%N) t) texts).
  { apply Forall_map, Forall_forall. intros obj _.
    by apply json_dumps_with_plain; repeat constructor. }
  destruct (export_returns records (map (fun t => t ++ [10%N]) texts) fs) as [H1 H2].
  { unfold texts, txt_line. rewrite bool_decide_eq_false_2 by done.
    rewrite !map_map. done. }
  split; [done|]. split; [done|]. split; [|done].
  apply lines_of_concat. eapply Forall_impl; [exact Hplain|]. apply plain_no_newline.
Qed.

(** The flat line of a record whose date and author hold no newline. *)
Lemma one_line_body (obj : pyval) :
  one_line py_repr obj = true ->
  ∃ b, json_to_txt_chat py_repr obj = inr (b ++ [10%N])
       ∧ b ≠ [] ∧ rstrip b = b ∧ 10%N ∉ b.
Proof.
  unfold one_line. destruct obj as [| | | | |d]; try done.
  rewrite json_to_txt_chat_spec.
  destruct (record_text_with (entity_text py_repr) d) as [e|raw]; [done|]. simpl.
  intros [Hd%negb_true_iff Ha%negb_true_iff]%andb_true_iff.
  apply contains_char_false in Hd, Ha.
  set (x := record_date py_repr d ++ u " | " ++ record_author py_repr d
              ++ u ": " ++ _normalize_text raw).
  exists (rstrip x). split; [done|]. split; [|split; [apply rstrip_idem|]].
  - intros H%rstrip_nil_spaces. rewrite Forall_forall in H.
    assert (isspace 124 = true); [|done]. apply H. unfold x.
    apply elem_of_app; right. apply elem_of_app; left. by repeat constructor.
  - assert (Hx : 10%N ∉ x).
    { unfold x. intros [H|[H|[H|[H|H]%elem_of_app]%elem_of_app]%elem_of_app]%elem_of_app.
      - done.
      - by repeat (apply elem_of_cons in H as [H|H]; [done|]); apply elem_of_nil in H.
      - done.
      - by repeat (apply elem_of_cons in H as [H|H]; [done|]); apply elem_of_nil in H.
      - by apply _normalize_text_no_newline in H. }
    destruct (rstrip_prefix x) as [q Hq]. intros Hin. apply Hx. rewrite Hq.
    apply elem_of_app. by left.
Qed.

(** X16: in the format [chat], over records that are mappings which can be
    rendered and whose date and author hold no newline, [json_to_txt] writes
    one line for each record, in order; no line is blank, and none has
    whitespace before its newline. *)
Theorem X16_chat_one_record_per_line (records : list pyval) (fs : gmap pystr pystr) :
  format_ = u "chat" ->
  forallb (one_line py_repr) records = true ->
  let r := export records fs in
  ∃ bodies,
    map (json_to_txt_chat py_repr) records = map (fun b => inr (b ++ [10%N])) bodies
    ∧ snd r = inr out
    ∧ txt_files (fst r) !! out = Some (concat (map (fun b => b ++ [10%N]) bodies))
    ∧ lines_of (concat (map (fun b => b ++ [10%N]) bodies)) = map (fun b => b ++ [10%N]) bodies
    ∧ Forall (fun b => b ≠ [] ∧ rstrip b = b ∧ 10%N ∉ b) bodies.
Proof.
  intros Hf Hall r.
  assert (∃ bodies,
            map (json_to_txt_chat py_repr) records = map (fun b => inr (b ++ [10%N])) bodies
            ∧ Forall (fun b => b ≠ [] ∧ rstrip b = b ∧ 10%N ∉ b) bodies)
    as (bodies & Hm & Hb).
  { induction records as [|obj rest IH]; [by exists []|]. simpl in Hall.
    apply andb_true_iff in Hall as [Ho Hr].
    destruct (IH Hr) as (bodies & Hm & Hb).
    destruct (one_line_body obj Ho) as (b & Hl & H).
    exists (b :: bodies). simpl. rewrite Hl, Hm. split; [done|]. by constructor. }
  exists bodies. split; [done|].
  destruct (export_returns records (map (fun b => b ++ [10%N]) bodies) fs) as [H1 H2].
  { unfold txt_line. rewrite bool_decide_eq_true_2 by done. cbv iota.
    change (map (fun obj => json_to_txt_chat py_repr obj) records)
      with (map (json_to_txt_chat py_repr) records). rewrite Hm, map_map. done. }
  split; [done|]. split; [done|]. split; [|done].
  apply lines_of_concat. eapply Forall_impl; [exact Hb|]. by intros b (_ & _ & ?).
Qed.


End FlatExportFacts.

(** The last occurrence of a character. *)
Lemma rfind_absent (c : N) (s : pystr) : c ∉ s -> rfind c s = -1.
Proof.
  induction s as [|a s IH]; [done|]. intros [Ha Hs]%not_elem_of_cons. simpl.
  rewrite IH by done. simpl. by destruct (N.eqb_spec a c); [congruence|].
Qed.

Lemma rfind_nonneg_bound (c : N) (s : pystr) : -1 <= rfind c s < Z.of_nat (length s).
Proof.
  induction s as [|a s IH]; [simpl; lia|]. simpl.
  destruct (Z.leb_spec 0 (rfind c s)); [lia|]. destruct (a =? c)%N; lia.
Qed.

Lemma rfind_last (c : N) (a b : pystr) :
  c ∉ b -> rfind c (a ++ c :: b) = Z.of_nat (length a).
Proof.
  intros Hb. induction a as [|x a IH]; simpl.
  - rewrite rfind_absent by done. simpl. by rewrite N.eqb_refl.
  - rewrite IH. destruct (Z.leb_spec 0 (Z.of_nat (length a))); lia.
Qed.

Lemma rfind_app_absent (c : N) (a b : pystr) :
  c ∉ b -> rfind c (a ++ b) = rfind c a.
Proof.
  intros Hb. induction a as [|x a IH]; simpl; [by apply rfind_absent|]. by rewrite IH.
Qed.

Lemma basename_dir (dir name : pystr) :
  dir = [] ∨ posixpath.endswith_slash dir = true -> 47%N ∉ name ->
  ospath.basename (dir ++ name) = name.
Proof.
  intros Hdir Hname. unfold ospath.basename. destruct Hdir as [->|Hdir].
  - simpl. by rewrite rfind_absent.
  - unfold posixpath.endswith_slash in Hdir.
    destruct (rev dir) as [|c r] eqn:Hr; [done|]. apply N.eqb_eq in Hdir. subst c.
    apply (f_equal (@rev N)) in Hr. rewrite rev_involutive in Hr. simpl in Hr. subst dir.
    assert (E : (rev r ++ [47%N]) ++ name = rev r ++ 47%N :: name) by by rewrite <- app_assoc.
    rewrite E, rfind_last by done. rewrite <- E.
    replace (Z.to_nat (Z.of_nat (length (rev r)) + 1)) with (length (rev r ++ [47%N])).
    + by rewrite drop_app_length.
    + rewrite length_app. simpl. lia.
Qed.

Lemma splitext_name (name ext : pystr) :
  47%N ∉ name -> 47%N ∉ ext -> 46%N ∉ ext ->
  existsb (fun c => negb (c =? 46)%N) name = true ->
  ospath.splitext (name ++ 46%N :: ext) = (name, 46%N :: ext).
Proof.
  intros Hn He Hd Hex. unfold ospath.splitext.
  rewrite rfind_last by done. rewrite (rfind_absent 47).
  2:{ intros [H|[H|H]%elem_of_cons]%elem_of_app; done. }
  assert ((-1 <? Z.of_nat (length name)) = true) as -> by (apply Z.ltb_lt; lia).
  replace (Z.to_nat (Z.of_nat (length name) - (-1 + 1))) with (length name) by lia.
  simpl (Z.to_nat (-1 + 1)). rewrite drop_0, take_app_length, Hex, Nat2Z.id. simpl.
  by rewrite take_app_length, drop_app_length.
Qed.

(** X18: the default name of the text file.  For an input named
    [dir/name.ext], where [name] is not made of dots alone and [ext] holds
    no dot, [json_to_txt] without an [output_path] writes [name.txt] in the
    output directory, whatever the directory and the extension of the
    input. *)
Theorem X18_default_output_name (output_dir dir name ext : pystr) :
  dir = [] ∨ posixpath.endswith_slash dir = true ->
  contains_char 47 name = false ->
  existsb (fun c => negb (c =? 46)%N) name = true ->
  contains_char 47 ext = false ->
  contains_char 46 ext = false ->
  txt_output_path (dir ++ name ++ 46%N :: ext) None output_dir
  = posixpath.join output_dir (name ++ u ".txt").
Proof.
  intros Hdir Hn%contains_char_false Hex He%contains_char_false Hd%contains_char_false.
  unfold txt_output_path. rewrite basename_dir, splitext_name; try done.
  intros [H|[H|H]%elem_of_cons]%elem_of_app; done.
Qed.

(** ** The first part after the report *)

Section Report.

Variable py_repr : pyval -> pystr.
Variable cwd : pystr.
Variables input_path output_dir output_prefix : pystr.
Variable max_file_size_mb : option Q.
Variable max_objects_per_file : option Z.
Variable output_format : pystr.

Abbreviation md := (is_md output_format).
Abbreviation run := (split_json py_repr cwd input_path output_dir output_prefix max_file_size_mb
                   max_objects_per_file output_format).

(** X11: in a Markdown run that returns, when no line of the blocks of the
    first part is empty, holds a carriage return or ends with whitespace,
    the first file holds in the end the report line, the separator, the
    blocks of the part joined by the separator as they were flushed, and one
    newline more: the rewriting changes nothing in them. *)
Theorem X11_report_keeps_tidy_blocks (records : list pyval) (fs : gmap pystr pystr)
    (p : part) (ps : list part) :
  md = true ->
  max_file_size_mb ≠ None ∨ max_objects_per_file ≠ None ->
  all_render py_repr output_format records = true ->
  parts (fst (run records fs)) = p :: ps ->
  forallb tidy (part_md_blocks p) = true ->
  files (fst (run records fs)) !! part_path p
  = Some (report_line (Z.of_nat (length records)) ++ sep
            ++ str_join sep (part_md_blocks p) ++ [10%N]).
Proof.
  intros Hmd Hlim Hr Hparts Htidy.
  destruct (run_files py_repr cwd input_path output_dir output_prefix max_file_size_mb
              max_objects_per_file output_format records fs Hlim Hr 0%nat p) as [_ Hf].
  { by rewrite Hparts. }
  destruct (run_units py_repr cwd input_path output_dir output_prefix max_file_size_mb
              max_objects_per_file output_format records fs Hlim Hr) as (_ & Hok & _).
  rewrite Hparts in Hok. inversion Hok as [|? ? (Hne & _ & H) _]; subst.
  rewrite Hmd in H. destruct H as (Hc & Ht & _).
  assert (E : copy_lines (part_text p) = str_join sep (part_md_blocks p) ++ [10%N]).
  { rewrite Ht. apply copy_lines_tidy, tidy_join_sep; [|done].
    destruct (part_md_blocks p); [simpl in Hc; lia|done]. }
  by rewrite Hf, Hmd, E.
Qed.

End Report.

(** ** The configuration file *)

Lemma config_get_set (out : list (pystr * jsonval)) (k : pystr) (v : jsonval) (key : pystr) :
  config_get (config_set out k v) key
  = if bool_decide (k = key) then Some v else config_get out key.
Proof.
  induction out as [|[k' w] out IH]; simpl.
  - by case_bool_decide.
  - destruct (bool_decide (k' = k)) eqn:E; simpl.
    + apply bool_decide_eq_true in E. subst k'. by case_bool_decide.
    + apply bool_decide_eq_false in E. rewrite IH.
      repeat case_bool_decide; congruence.
Qed.

Lemma config_set_keys (out : list (pystr * jsonval)) (k : pystr) (v : jsonval) :
  k ∈ map fst out -> map fst (config_set out k v) = map fst out.
Proof.
  induction out as [|[k' w] out IH]; simpl; [by intros ?%elem_of_nil|].
  case_bool_decide; [done|]. intros [?|?]%elem_of_cons; [congruence|].
  simpl. by rewrite IH.
Qed.

(** The loop of [load_config] over a mapping. *)
Lemma merge_keys_dict (d : list (pystr * jsonval)) (keys : list pystr)
    (out : list (pystr * jsonval)) :
  Forall (fun key => key ∈ map fst out) keys ->
  ∃ cfg, merge_keys (JDict d) keys out = inr cfg
         ∧ map fst cfg = map fst out
         ∧ ∀ key, config_get cfg key
                  = if bool_decide (key ∈ keys)
                    then match config_get d key with
                         | Some v => Some v
                         | None => config_get out key
                         end
                    else config_get out key.
Proof.
  revert out. induction keys as [|k keys IH]; intros out Hin.
  { exists out. split; [done|]. split; [done|]. intros key.
    rewrite bool_decide_eq_false_2; [done|apply not_elem_of_nil]. }
  inversion Hin as [|? ? Hk Hks]; subst. cbn [merge_keys].
  set (out1 := match config_get d k with
               | Some v => config_set out k v
               | None => out
               end).
  assert (Hout1 : merge_key (JDict d) out k = inr out1).
  { unfold merge_key, out1. by destruct (config_get d k). }
  assert (Hkeys1 : map fst out1 = map fst out).
  { unfold out1. destruct (config_get d k); [by apply config_set_keys|done]. }
  rewrite Hout1. simpl.
  destruct (IH out1) as (cfg & Hm & Hf & Hg).
  { by rewrite Hkeys1. }
  exists cfg. split; [done|]. split; [congruence|]. intros key. rewrite Hg.
  assert (Hget1 : config_get out1 key
                  = if bool_decide (k = key)
                    then match config_get d key with
                         | Some v => Some v
                         | None => config_get out key
                         end
                    else config_get out key).
  { unfold out1. case_bool_decide as E.
    - subst key. destruct (config_get d k); [|done].
      by rewrite config_get_set, bool_decide_eq_true_2.
    - destruct (config_get d k); [|done].
      by rewrite config_get_set, bool_decide_eq_false_2. }
  rewrite Hget1. destruct (decide (k = key)) as [->|Hne].
  - rewrite (bool_decide_eq_true_2 (key ∈ key :: keys)) by by left.
    rewrite (bool_decide_eq_true_2 (key = key)) by done.
    destruct (bool_decide (key ∈ keys)); by destruct (config_get d key).
  - rewrite (bool_decide_eq_false_2 (k = key)) by done.
    destruct (decide (key ∈ keys)) as [Hi|Hni].
    + rewrite (bool_decide_eq_true_2 (key ∈ k :: keys)) by by right.
      by rewrite (bool_decide_eq_true_2 (key ∈ keys)).
    + rewrite (bool_decide_eq_false_2 (key ∈ k :: keys)).
      * by rewrite (bool_decide_eq_false_2 (key ∈ keys)).
      * intros [?|?]%elem_of_cons; [congruence|done].
Qed.

Lemma load_config_dict (d : list (pystr * jsonval)) :
  ∃ cfg, load_config (Loaded (JDict d)) = inr cfg
         ∧ map fst cfg = map fst DEFAULT_CONFIG
         ∧ ∀ key, config_get cfg key
                  = if bool_decide (key ∈ map fst DEFAULT_CONFIG)
                    then match config_get d key with
                         | Some v => Some v
                         | None => config_get DEFAULT_CONFIG key
                         end
                    else config_get DEFAULT_CONFIG key.
Proof. apply merge_keys_dict. by apply Forall_forall. Qed.

(** X19: the configuration read from a file that holds a mapping.
    [load_config] does not raise; it returns the four keys of the defaults,
    in their order, and nothing else; each key has the value that the file
    gives it, of whatever type, and the default where the file has no such
    key. *)
Theorem X19_load_config_merge (d : list (pystr * jsonval)) :
  ∃ cfg, load_config (Loaded (JDict d)) = inr cfg
         ∧ map fst cfg = map fst DEFAULT_CONFIG
         ∧ ∀ key, config_get cfg key
                  = match config_get DEFAULT_CONFIG key with
                    | Some dflt => Some (default dflt (config_get d key))
                    | None => None
                    end.
Proof.
  destruct (load_config_dict d) as (cfg & Hm & Hk & Hg).
  exists cfg. split; [done|]. split; [done|]. intros key. rewrite Hg.
  destruct (config_get DEFAULT_CONFIG key) as [dflt|] eqn:E.
  - assert (key ∈ map fst DEFAULT_CONFIG) as Hin.
    { simpl in E. repeat (case_bool_decide; [subst key; set_solver|]). done. }
    rewrite bool_decide_eq_true_2 by done. by destruct (config_get d key).
  - rewrite bool_decide_eq_false_2; [done|]. intros Hin. simpl in E, Hin.
    repeat (apply elem_of_cons in Hin as [->|Hin];
            [by repeat (case_bool_decide; [done|])|]).
    by apply elem_of_nil in Hin.
Qed.

(** The loop of [load_config] over a value that is no mapping: it raises at
    the first key for which [in] raises or holds. *)
Lemma merge_keys_other (data : jsonval) (test : pystr -> bool) (keys : list pystr)
    (out : list (pystr * jsonval)) :
  (∀ key, merge_key data out key = if test key then inl TypeError else inr out) ->
  merge_keys data keys out = if existsb test keys then inl TypeError else inr out.
Proof.
  intros H. induction keys as [|k keys IH]; [done|]. cbn [merge_keys existsb]. rewrite H.
  destruct (test k); [done|]. simpl. exact IH.
Qed.

(** X20: the other files.  Without a file, with one that cannot be read or
    whose text is not JSON, [load_config] returns the defaults.  When the
    file holds a JSON value that is no mapping, nothing is caught:
    [load_config] raises [TypeError] on [null], a boolean or a number, on a
    list that has a key of the defaults among its items, and on a string
    that has one as a substring; on any other list or string it returns the
    defaults.  Whenever it returns, the configuration has the four keys of
    the defaults. *)
Theorem X20_load_config_other_files (file : config_file) :
  match file with
  | Missing | Unreadable | Malformed => load_config file = inr DEFAULT_CONFIG
  | Loaded (JDict _) => True
  | Loaded (JList l) =>
      load_config file
      = if existsb (fun key =>
                      existsb (fun item => match item with
                                           | JStr s => bool_decide (s = key)
                                           | _ => false
                                           end) l)
             (map fst DEFAULT_CONFIG)
        then inl TypeError else inr DEFAULT_CONFIG
  | Loaded (JStr s) =>
      load_config file
      = if existsb (fun key => contains_str key s) (map fst DEFAULT_CONFIG)
        then inl TypeError else inr DEFAULT_CONFIG
  | Loaded (JNull | JBool _ | JInt _ | JFloat _) => load_config file = inl TypeError
  end
  ∧ ∀ cfg, load_config file = inr cfg -> map fst cfg = map fst DEFAULT_CONFIG.
Proof.
  destruct file as [| | |data]; try (split; [done|by intros cfg [= <-]]).
  destruct data as [|b|n|x|s|l|d]; try (split; [done|done]).
  - assert (E : load_config (Loaded (JStr s))
                = if existsb (fun key => contains_str key s) (map fst DEFAULT_CONFIG)
                  then inl TypeError else inr DEFAULT_CONFIG).
    { apply merge_keys_other. intros key. done. }
    split; [done|]. rewrite E. destruct (existsb _ _); [done|by intros cfg [= <-]].
  - set (test := fun key => existsb (fun item => match item with
                                                 | JStr s => bool_decide (s = key)
                                                 | _ => false
                                                 end) l).
    assert (E : load_config (Loaded (JList l))
                = if existsb test (map fst DEFAULT_CONFIG)
                  then inl TypeError else inr DEFAULT_CONFIG).
    { apply merge_keys_other. intros key. done. }
    split; [done|]. rewrite E. destruct (existsb _ _); [done|by intros cfg [= <-]].
  - split; [done|]. intros cfg Hc.
    destruct (load_config_dict d) as (cfg' & Hm & Hk & _). congruence.
Qed.

(** ** The lines of a block *)

Lemma split_lines_word (w : pystr) : 10%N ∉ w -> split_lines w = [w].
Proof.
  induction w as [|c w IH]; [done|]. intros [Hc Hw]%not_elem_of_cons. simpl.
  destruct (N.eqb_spec c 10); [done|]. by rewrite IH.
Qed.

Section BlockLines.

Variable py_repr : pyval -> pystr.

(** X21: the lines of a block.  For a record whose date and author hold
    no newline, the block is one line, the header, when the normalised text
    is empty, and else two lines, the header and the body; no line of it is
    empty. *)
Theorem X21_block_lines (d : list (pystr * pyval)) (raw : pystr) :
  record_text_with (entity_text py_repr) d = inr raw ->
  contains_char 10 (record_date py_repr d) = false ->
  contains_char 10 (record_author py_repr d) = false ->
  let header := u "### " ++ record_date py_repr d ++ u " | " ++ record_author py_repr d in
  let text := _normalize_text raw in
  let body := if startswith (u "#") text then 92%N :: text else text in
  ∃ block,
    obj_to_md py_repr (PDict d) = inr block
    ∧ split_lines block = (if bool_decide (text = []) then [header] else [header; body])
    ∧ Forall (fun l => l ≠ []) (split_lines block).
Proof.
  intros Hraw Hd%contains_char_false Ha%contains_char_false header text body.
  rewrite obj_to_md_spec, Hraw. simpl. eexists. split; [reflexivity|].
  fold text. unfold md_block. fold header.
  assert (Hh : 10%N ∉ header).
  { unfold header. intros [H|[H|[H|H]%elem_of_app]%elem_of_app]%elem_of_app.
    - by repeat (apply elem_of_cons in H as [H|H]; [done|]); apply elem_of_nil in H.
    - done.
    - by repeat (apply elem_of_cons in H as [H|H]; [done|]); apply elem_of_nil in H.
    - done. }
  assert (Hb : 10%N ∉ body).
  { pose proof (_normalize_text_no_newline raw) as Hn. fold text in Hn. unfold body.
    destruct (startswith (u "#") text); [|done]. by intros [?|?]%elem_of_cons. }
  case_bool_decide as Ht.
  - rewrite split_lines_word by done. split; [done|]. by repeat constructor.
  - fold body. change (header ++ [10%N] ++ body) with (header ++ 10%N :: body).
    rewrite split_lines_app, !split_lines_word by done. split; [done|].
    repeat constructor; [done|]. unfold body. destruct (startswith (u "#") text); done.
Qed.

(** X22: the normalised text is the words of the extracted text (its
    maximal runs of characters that are not whitespace, none lost) joined by
    single spaces, so it holds no newline and no whitespace but single
    spaces; the Markdown block is the header line alone when that text is
    empty, else the header line, one newline and the text, which gets a
    backslash in front when it starts with [#]. *)
Theorem X22_normalized_text_and_block (d : list (pystr * pyval)) (s : pystr) :
  (_normalize_text s = str_join [32%N] (words s)
   ∧ Forall is_word (words s)
   ∧ concat (words s) = filter (fun c => isspace c = false) s
   ∧ (10%N ∉ _normalize_text s)
   ∧ (∀ c, c ∈ _normalize_text s -> isspace c = true -> c = 32%N))
  ∧ obj_to_md py_repr (PDict d)
    = (raw ← record_text_with (entity_text py_repr) d;
       let text := _normalize_text raw in
       let header := u "### " ++ record_date py_repr d ++ u " | " ++ record_author py_repr d in
       inr (if bool_decide (text = []) then header
            else header ++ [10%N]
                   ++ (if startswith (u "#") text then 92%N :: text else text))).
Proof.
  split; [|apply obj_to_md_spec].
  destruct (words_spec s) as [Hw Hc].
  split; [apply _normalize_text_words|]. split; [done|]. split; [done|].
  split; [apply _normalize_text_no_newline|].
  intros c. rewrite _normalize_text_words. by apply str_join_words_space.
Qed.

End BlockLines.

(** ** Evaluations of the further properties *)

(** A record that is no mapping, which no format but [jsonl] can write. *)
Example not_a_mapping_fails :
  obj_to_md no_repr (PInt 7) = inl AttributeError
  ∧ json_to_txt_chat no_repr (PInt 7) = inl AttributeError.
Proof. by split. Qed.

(** An empty input under a limit of two units. *)
Lemma X1_empty_input_witness :
  snd (split_json no_repr (u "home") (u "in.json") (u "dist") (u "part")
         None (Some 2) (u "md") [] ∅) = inr [].
Proof.
  refine (proj1 (X1_empty_input no_repr (u "home") (u "in.json") (u "dist") (u "part")
                   None (Some 2) (u "md") ∅ _)).
  by right.
Defined.

(** Five messages under a limit of 64 bytes and of two units. *)
Lemma X2_md_byte_limit_witness :
  Forall (within_limit 64)
    (parts (fst (split_json no_repr (u "home") (u "in.json") (u "dist") (u "part")
                   (Some (1 # 16384)%Q) (Some 2) (u "md") five_messages ∅))).
Proof.
  refine (proj1 (X2_md_byte_limit no_repr (u "home") (u "in.json") (u "dist") (u "part")
                   (Some (1 # 16384)%Q) (Some 2) (u "md") 64 five_messages ∅ _ _ _));
    [reflexivity|reflexivity|lia].
Defined.

(** Two empty mappings under a limit of four bytes, in JSON mode. *)
Lemma X3_json_byte_accounting_witness :
  Forall (fun p => json_within_limit 4 p
                   ∧ utf8_len (part_text p)
                     = units_size (part_objects p) + part_count p + 1)
    (parts (fst (split_json no_repr (u "home") (u "in.json") (u "dist") (u "part")
                   (Some (4 # 1048576)%Q) None (u "json") [PDict []; PDict []] ∅))).
Proof.
  refine (proj1 (X3_json_byte_accounting no_repr (u "home") (u "in.json") (u "dist")
                   (u "part") (Some (4 # 1048576)%Q) None (u "json") 4
                   [PDict []; PDict []] ∅ _ _ _));
    [reflexivity|reflexivity|lia].
Defined.

(** A file next to the parts is kept as it is. *)
Lemma X6_other_files_untouched_witness :
  files (fst (split_json no_repr (u "home") (u "in.json") (u "dist") (u "part")
                None (Some 2) (u "md") five_messages
                (<[u "/home/dist/notes.txt" := u "kept"]> ∅)))
    !! u "/home/dist/notes.txt"
  = Some (u "kept").
Proof.
  refine (eq_trans
            (X6_other_files_untouched no_repr (u "home") (u "in.json") (u "dist") (u "part")
               None (Some 2) (u "md") five_messages
               (<[u "/home/dist/notes.txt" := u "kept"]> ∅) (u "/home/dist/notes.txt") _ _)
            _).
  - vm_compute. intros H.
    repeat (apply elem_of_cons in H as [H|H]; [discriminate|]). by apply elem_of_nil in H.
  - vm_compute. discriminate.
  - reflexivity.
Defined.

(** A file that was at the path of the temporary file is gone. *)
Lemma X7_temporary_file_removed_witness :
  files (fst (split_json no_repr (u "home") (u "in.json") (u "dist") (u "part")
                None (Some 2) (u "md") five_messages
                (<[u "/home/dist/part_1.md.tmp" := u "old"]> ∅)))
    !! posixpath.abspath (u "home") (u "/home/dist/part_1.md" ++ u ".tmp")
  = None.
Proof.
  refine (X7_temporary_file_removed no_repr (u "home") (u "in.json") (u "dist") (u "part")
            None (Some 2) (u "md") five_messages
            (<[u "/home/dist/part_1.md.tmp" := u "old"]> ∅)
            (u "/home/dist/part_1.md") [u "/home/dist/part_2.md"; u "/home/dist/part_3.md"]
            _ _); reflexivity.
Defined.

(** Two messages, then a number, then a message, one unit to a part. *)
Lemma X8_aborted_run_witness :
  let r := split_json no_repr (u "home") (u "in.json") (u "dist") (u "part")
             None (Some 1) (u "md")
             ([message "2023-12-27T10:28:01" "Ann" "one";
               message "2023-12-27T10:29:11" "Bob" "two"]
              ++ PInt 7 :: [message "2023-12-27T10:30:00" "Ann" "three"]) ∅ in
  snd r = inl AttributeError ∧ total_read (fst r) = 2.
Proof.
  pose proof (X8_aborted_run no_repr (u "home") (u "in.json") (u "dist") (u "part")
                None (Some 1) (u "md")
                [message "2023-12-27T10:28:01" "Ann" "one";
                 message "2023-12-27T10:29:11" "Bob" "two"]
                (PInt 7) [message "2023-12-27T10:30:00" "Ann" "three"] AttributeError ∅
                eq_refl (or_intror (fun E => eq_ind (Some 1) (fun o => match o with
                                                                       | Some _ => True
                                                                       | None => False
                                                                       end) I None E))
                eq_refl eq_refl) as (H1 & H2 & _).
  exact (conj H1 H2).
Defined.

(** The operations of the run over five messages, two to a part. *)
Lemma X9_operations_witness :
  length (trace (fst (split_json no_repr (u "home") (u "in.json") (u "dist") (u "part")
                        None (Some 2) (u "md") five_messages ∅)))
  = 8%nat.
Proof.
  rewrite (X9_operations no_repr (u "home") (u "in.json") (u "dist") (u "part")
             None (Some 2) (u "md") five_messages ∅); [reflexivity|by right].
Defined.

(** A count limit of -1: one message to a part. *)
Lemma X10_negative_limit_witness :
  Forall (fun p => part_units (u "md") p = 1)
    (parts (fst (split_json no_repr (u "home") (u "in.json") (u "dist") (u "part")
                   None (Some (-1)) (u "md") five_messages ∅))).
Proof.
  refine (proj1 (X10_negative_limit no_repr (u "home") (u "in.json") (u "dist") (u "part")
                   None (Some (-1)) (u "md") five_messages ∅ _)).
  left. exists (-1). split; [reflexivity|lia].
Defined.

(** The first part of the run over five messages after the report. *)
Lemma X11_report_keeps_tidy_blocks_witness :
  let r := split_json no_repr (u "home") (u "in.json") (u "dist") (u "part")
             None (Some 2) (u "md") five_messages ∅ in
  ∃ p ps,
    parts (fst r) = p :: ps
    ∧ files (fst r) !! part_path p
      = Some (report_line 5 ++ sep ++ str_join sep (part_md_blocks p) ++ [10%N]).
Proof.
  intros r.
  assert (Hp : parts (fst r) = hd (Build_part [] 0 [] [] []) (parts (fst r))
                                 :: tl (parts (fst r))) by (vm_compute; reflexivity).
  eexists _, _. split; [exact Hp|].
  refine (X11_report_keeps_tidy_blocks no_repr (u "home") (u "in.json") (u "dist") (u "part")
            None (Some 2) (u "md") five_messages ∅ _ _ _ _ _ Hp _);
    [reflexivity|by right|vm_compute; reflexivity|vm_compute; reflexivity].
Defined.

(** The part of two empty mappings is one line. *)
Lemma X14_json_part_one_line_witness :
  ∃ p,
    parts (fst (split_json no_repr (u "home") (u "in.json") (u "dist") (u "part")
                  None (Some 2) (u "json") [PDict []; PDict []] ∅)) !! 0%nat = Some p
    ∧ lines_of (part_text p) = [part_text p].
Proof.
  eexists. split; [reflexivity|].
  refine (proj2 (proj2 (proj2
            (X14_json_part_one_line no_repr (u "home") (u "in.json") (u "dist") (u "part")
               None (Some 2) (u "json") [PDict []; PDict []] ∅ _ 0%nat _ _))));
    reflexivity.
Defined.

(** Five messages written as JSON lines. *)
Lemma X15_jsonl_one_record_per_line_witness :
  snd (json_to_txt no_repr (u "home") (u "src/in.json") None (u "dist") (u "jsonl")
         five_messages ∅)
  = inr (u "/home/dist/in.txt").
Proof.
  refine (proj1 (X15_jsonl_one_record_per_line no_repr (u "home") (u "src/in.json") None
                   (u "dist") (u "jsonl") five_messages ∅ _)).
  vm_compute. discriminate.
Defined.

(** Five messages written as flat lines. *)
Lemma X16_chat_one_record_per_line_witness :
  ∃ bodies,
    map (json_to_txt_chat no_repr) five_messages = map (fun b => inr (b ++ [10%N])) bodies
    ∧ length bodies = 5%nat.
Proof.
  destruct (X16_chat_one_record_per_line no_repr (u "home") (u "src/in.json") None
              (u "dist") (u "chat") five_messages ∅ eq_refl eq_refl)
    as (bodies & Hm & _).
  exists bodies. split; [exact Hm|].
  apply (f_equal (@length _)) in Hm. rewrite !length_map in Hm. symmetry. exact Hm.
Defined.


(** [src/data.json] gives [dist/data.txt]. *)
Lemma X18_default_output_name_witness :
  txt_output_path (u "src/data.json") None (u "dist") = u "dist/data.txt".
Proof.
  refine (X18_default_output_name (u "dist") (u "src/") (u "data") (u "json") _ _ _ _ _);
    [by right|reflexivity..].
Defined.

(** The block of [heading_message] has two lines. *)
Lemma X21_block_lines_witness :
  ∃ block,
    obj_to_md no_repr (PDict heading_message) = inr block
    ∧ split_lines block = [u "### 2024-01-01 09:00 | Ann"; 92%N :: u "# a b c"].
Proof.
  destruct (X21_block_lines no_repr heading_message [35; 32; 97; 10; 10; 98; 13; 10; 99]%N
              eq_refl eq_refl eq_refl) as (block & Hb & Hl & _).
  exists block. split; [exact Hb|exact Hl].
Defined.
